(** * Resumable chunked downloader (content/scripts/chunked_downloader.py)

    A shallow embedding of [ChunkedDownloader]: the chunk plan, the chunk
    fetcher with its retry loop, the progress ledger (the [.meta] file), the
    whole-file integrity check and the manifest consumer, followed by the
    properties of the specification that concern them.

    Python integers are unbounded, so sizes, offsets and ordinals are [Z];
    [//] is floor division, which is [Z.div].  Bytes are [Z] values in
    [0, 256).  The network and the local disk are explicit: every function
    that touches them threads a [World]. *)

From Stdlib Require Import ZArith Lia List Ascii String Bool.
From stdpp Require Import base gmap strings list fin_maps.

Local Open Scope Z_scope.

(* ===================================================================== *)
(** ** Transfer planner *)
(* ===================================================================== *)

Module Planner.

(** [CHUNK_SIZE = 4 * 1024 * 1024] *)
Definition CHUNK_SIZE : Z := 4 * 1024 * 1024.

(** [self.chunk_size = chunk_size or self.CHUNK_SIZE]: [None] and [0] are
    falsy and select the default. *)
Definition init_chunk_size (chunk_size : option Z) : Z :=
  match chunk_size with
  | Some c => if c =? 0 then CHUNK_SIZE else c
  | None => CHUNK_SIZE
  end.

(** [total_chunks = (file_size + self.chunk_size - 1) // self.chunk_size] *)
Definition total_chunks (file_size chunk_size : Z) : Z :=
  (file_size + chunk_size - 1) / chunk_size.

(** [start_byte = chunk_num * self.chunk_size] *)
Definition start_byte (chunk_size chunk_num : Z) : Z :=
  chunk_num * chunk_size.

(** [end_byte = min(start_byte + self.chunk_size - 1, file_size - 1)] *)
Definition end_byte (file_size chunk_size chunk_num : Z) : Z :=
  Z.min (start_byte chunk_size chunk_num + chunk_size - 1) (file_size - 1).

(** [range(n)] for a Python integer [n]: empty when [n <= 0]. *)
Definition range (n : Z) : list Z :=
  map Z.of_nat (seq 0 (Z.to_nat n)).

(** Number of bytes of the inclusive interval of chunk [chunk_num]. *)
Definition chunk_length (file_size chunk_size chunk_num : Z) : Z :=
  end_byte file_size chunk_size chunk_num
  - start_byte chunk_size chunk_num + 1.

(** The plan the download loop walks through: one inclusive byte range per
    ordinal of [range(total_chunks)]. *)
Definition chunk_plan (file_size chunk_size : Z) : list (Z * Z) :=
  map (fun i => (start_byte chunk_size i, end_byte file_size chunk_size i))
      (range (total_chunks file_size chunk_size)).

Definition sum_Z (l : list Z) : Z := fold_right Z.add 0 l.

(** The range of the specification:
    [ [i*chunkSize, min((i+1)*chunkSize, expectedSize) - 1] ]. *)
Definition spec_range (file_size chunk_size i : Z) : Z * Z :=
  (i * chunk_size, Z.min ((i + 1) * chunk_size) file_size - 1).

(** [ceil(expectedSize / chunkSize)] characterised without division: the
    least [n] with [n * chunkSize >= expectedSize]. *)
Definition is_ceil_div (a b n : Z) : Prop :=
  a <= n * b /\ (n - 1) * b < a.

End Planner.

(* ===================================================================== *)
(** ** The world: remote server, local disk, event trace *)
(* ===================================================================== *)

Abbreviation bytes := (list Z).
Abbreviation path := string.

(** Exceptions the script can raise.  The script itself only uses the base
    class [Exception]; the constructors record where each one comes from. *)
#[warnings="-register-all"] Inductive Exn : Type :=
  | HTTPError (status : Z)              (* response.raise_for_status() *)
  | RequestException                    (* session.get / session.head failed *)
  | NoPartialDownloads                  (* "Server doesn't support partial downloads" *)
  | FailedAfter (n : Z) (last_error : option Exn)
                                        (* "Failed after {n} attempts: {last_error}" *)
  | FileInfoFailed (cause : Exn)        (* "Failed to get file info: {e}" *)
  | JSONDecodeError                     (* json.load / response.json() *)
  | InvalidSeek (offset : Z)            (* f.seek of a negative offset *)
  | FileNotFoundError (p : path)
  | KeyError (key : string)
  | ZeroDivisionError.

Inductive Outcome (A : Type) : Type :=
  | Return (a : A)
  | Raise (e : Exn).
Arguments Return {A} a.
Arguments Raise {A} e.

(** What [get_file_info] returns, and what is stored under ['file_info']. *)
Record FileInfo := mkFileInfo {
  info_final_url : string;             (* 'final_url' *)
  info_size : Z;                       (* 'size' *)
  info_supports_resume : bool;         (* 'supports_resume' *)
  info_headers : list (string * string) (* 'headers' *)
}.

(** The metadata dictionary of a download, as [json.load] returns it and
    [json.dump] writes it.  A key that is absent is [None]; the empty
    ['file_info': {}] of a fresh dictionary is [None] too (the key is
    overwritten with the probed information before it is ever read).
    Timestamps are readings of the world's clock. *)
Record Metadata := mkMetadata {
  chunks_completed : option (list Z);
  file_info : option FileInfo;
  download_started : option nat;
  last_updated : option nat
}.

(** Contents of a [.meta] file: text that [json.load] parses to a
    dictionary, or text it rejects (for instance a file cut short by a crash
    in the middle of [json.dump]). *)
Inductive MetaFile : Type :=
  | ValidJson (m : Metadata)
  | Unparseable.

Inductive OpenMode := ModeWB | ModeRPlusB.

Inductive Event : Type :=
  | EvHead (url : string)
  | EvGet (url : string) (start_byte end_byte : Z)
  | EvSleep (seconds : Z)
  | EvOpen (p : path) (mode : OpenMode)
  | EvPreallocate (p : path) (file_size : Z)
  | EvWrite (p : path) (offset : Z) (data : bytes)
  | EvFlush (p : path)
  | EvSave (p : path) (m : Metadata)
  | EvHash (p : path) (hexdigest : string)
  | EvRename (src dst : path)
  | EvUnlink (p : path)
  | EvGetManifest (url : string)
  | EvWriteManifest (p : path).

(** Answer to [session.head(url, allow_redirects=True)]. *)
Record HeadResponse := mkHeadResponse {
  hr_status : Z;
  hr_url : string;                      (* response.url, after redirects *)
  hr_content_length : option Z;         (* the content-length header *)
  hr_accept_ranges : option string;     (* the accept-ranges header *)
  hr_headers : list (string * string)
}.

(** Answer to [session.get(url, headers={'Range': ...}, timeout=30)]. *)
Inductive Response : Type :=
  | Resp (status_code : Z) (content : bytes)
  | NetworkFailure.                     (* timeout, connection reset, ... *)

(** One module descriptor of the manifest; every key is optional. *)
Record ModuleInfo := mkModuleInfo {
  zim_url : option string;
  zim_filename : option string;
  zim_sha256 : option string;
  index_url : option string;
  index_filename : option string;
  index_sha256 : option string
}.

(** The manifest document: the optional ['modules'] mapping and the optional
    top-level ['core'] descriptor. *)
Record Manifest := mkManifest {
  modules : option (gmap string ModuleInfo);
  core : option ModuleInfo
}.

(** Answer to the plain [session.get(manifest_url)]: status and the result
    of [response.json()]. *)
Inductive ManifestResponse : Type :=
  | ManifestResp (status_code : Z) (json : option Manifest)
  | ManifestNetworkFailure.

(** The remote side.  The first argument is the number of requests issued
    so far, so that a server may answer the same request differently over
    time (a flaky network). *)
Record Server := mkServer {
  do_head : nat -> string -> option HeadResponse;
  do_get : nat -> string -> Z -> Z -> Response;
  do_get_manifest : nat -> string -> ManifestResponse
}.

(** The local side.  Artifact files (destination and [.tmp]) hold bytes;
    ledger files ([.meta]) are kept in a store of their own. *)
Record World := mkWorld {
  files : gmap string bytes;
  ledgers : gmap string MetaFile;
  requests : nat;                       (* requests issued so far *)
  clock : Z;                            (* seconds slept so far *)
  trace : list Event                    (* oldest event first *)
}.

Definition Action (A : Type) : Type := World -> Outcome A * World.

#[global] Instance action_ret : MRet Action :=
  fun A a w => (Return a, w).

#[global] Instance action_bind : MBind Action :=
  fun A B f m w =>
    match m w with
    | (Return a, w') => f a w'
    | (Raise e, w') => (Raise e, w')
    end.

Definition raise {A : Type} (e : Exn) : Action A := fun w => (Raise e, w).

Definition emit (e : Event) : Action unit :=
  fun w => (Return tt,
            mkWorld (files w) (ledgers w) (requests w) (clock w) (trace w ++ [e])).

Definition set_files (fs : gmap string bytes) (w : World) : World :=
  mkWorld fs (ledgers w) (requests w) (clock w) (trace w).

Definition set_ledgers (ls : gmap string MetaFile) (w : World) : World :=
  mkWorld (files w) ls (requests w) (clock w) (trace w).

Definition count_request (w : World) : World :=
  mkWorld (files w) (ledgers w) (S (requests w)) (clock w) (trace w).

(** [time.sleep(seconds)] *)
Definition sleep (seconds : Z) : Action unit :=
  fun w => (Return tt,
            mkWorld (files w) (ledgers w) (requests w) (clock w + seconds)
                    (trace w ++ [EvSleep seconds])).

(** [datetime.now()] *)
Definition now (w : World) : nat := Z.to_nat (clock w) + requests w.

(** [response.raise_for_status()] raises for 4xx and 5xx codes only. *)
Definition raises_for_status (status : Z) : bool :=
  (400 <=? status) && (status <? 600).

(** [str.lower()] on ASCII text (digests and header values). *)
Definition lower_ascii (c : ascii) : ascii :=
  let n := nat_of_ascii c in
  if ((65 <=? n) && (n <=? 90))%nat then ascii_of_nat (n + 32) else c.

Fixpoint lower (s : string) : string :=
  match s with
  | EmptyString => EmptyString
  | String c s' => String (lower_ascii c) (lower s')
  end.

(** Truth value of an optional string argument: [None] and [""] are falsy. *)
Definition truthy (s : option string) : bool :=
  match s with
  | Some (String _ _) => true
  | _ => false
  end.

(** [f.seek(offset); f.write(data)] on a file holding [content]: a gap
    between the end of the file and [offset] reads as zeros. *)
Definition write_at (content : bytes) (offset : nat) (data : bytes) : bytes :=
  take offset content ++ replicate (offset - length content)%nat 0
  ++ data ++ drop (offset + length data)%nat content.

(* ===================================================================== *)
(** ** ChunkedDownloader *)
(* ===================================================================== *)

Module ChunkedDownloader.
Import Planner.

(** [MAX_RETRIES = 3], [RETRY_DELAY = 5] *)
Definition MAX_RETRIES : Z := 3.
Definition RETRY_DELAY : Z := 5.

(** The instance: its chunk size and its HTTP session. *)
Record Downloader := mkDownloader {
  chunk_size : Z;
  session : Server
}.

(** [__init__(self, chunk_size=None)] *)
Definition init (chunk_size : option Z) (srv : Server) : Downloader :=
  mkDownloader (init_chunk_size chunk_size) srv.

Definition meta_path_of (dest_path : path) : path := dest_path +:+ ".meta".
Definition temp_path_of (dest_path : path) : path := dest_path +:+ ".tmp".

Section Methods.

(** [hashlib.sha256(...).hexdigest()], a library function. *)
Variable sha256_hexdigest : bytes -> string.

Variable self : Downloader.

(** [get_file_info]: every failure inside the [try] is re-raised as
    "Failed to get file info". *)
Definition get_file_info (url : string) : Action FileInfo :=
  fun w =>
    let w1 := count_request (snd (emit (EvHead url) w)) in
    match do_head (session self) (requests w) url with
    | None => (Raise (FileInfoFailed RequestException), w1)
    | Some r =>
        if raises_for_status (hr_status r)
        then (Raise (FileInfoFailed (HTTPError (hr_status r))), w1)
        else
          (Return
             {| info_final_url := hr_url r;
                info_size := default 0 (hr_content_length r);
                info_supports_resume :=
                  bool_decide (lower (default ""%string (hr_accept_ranges r))
                               = "bytes"%string);
                info_headers := hr_headers r |}, w1)
    end.

(** [load_metadata]: [json.load] raises on text it cannot parse, and the
    method has no handler for it. *)
Definition load_metadata (meta_path : path) : Action Metadata :=
  fun w =>
    match ledgers w !! meta_path with
    | Some (ValidJson m) => (Return m, w)
    | Some Unparseable => (Raise JSONDecodeError, w)
    | None =>
        (Return {| chunks_completed := Some [];
                   file_info := None;
                   download_started := Some (now w);
                   last_updated := None |}, w)
    end.

(** [save_metadata]: stamps the dictionary (in place, so the stamped
    dictionary is handed back) and writes it out. *)
Definition save_metadata (meta_path : path) (metadata : Metadata)
  : Action Metadata :=
  fun w =>
    let metadata' :=
      {| chunks_completed := chunks_completed metadata;
         file_info := file_info metadata;
         download_started := download_started metadata;
         last_updated := Some (now w) |} in
    let w1 := set_ledgers (<[meta_path := ValidJson metadata']> (ledgers w)) w in
    (Return metadata', snd (emit (EvSave meta_path metadata') w1)).

(** [calculate_chunk_hash] *)
Definition calculate_chunk_hash (data : bytes) : string :=
  sha256_hexdigest data.

(** What one pass through the body of the [try] in the retry loop does. *)
Inductive Attempt : Type :=
  | Got (content : bytes)               (* return response.content *)
  | Failed (e : Exn)                    (* an exception reached [except] *)
  | FellThrough.                        (* neither returned nor raised *)

(** The body of the [try]: one ranged GET and the status dispatch.  A status
    that is neither 206 nor 200 goes to [raise_for_status], which is silent
    for codes below 400. *)
Definition attempt_once (url : string) (start_byte end_byte : Z)
  : World -> Attempt * World :=
  fun w =>
    let w1 := count_request (snd (emit (EvGet url start_byte end_byte) w)) in
    match do_get (session self) (requests w) url start_byte end_byte with
    | NetworkFailure => (Failed RequestException, w1)
    | Resp status content =>
        if status =? 206 then (Got content, w1)
        else if status =? 200 then (Failed NoPartialDownloads, w1)
        else if raises_for_status status then (Failed (HTTPError status), w1)
        else (FellThrough, w1)
    end.

(** [for attempt in range(max_retries): ...] followed by the final
    [raise]. *)
Fixpoint retry_loop (attempts : list Z) (max_retries : Z)
    (url : string) (start_byte end_byte : Z) (last_error : option Exn)
  : Action bytes :=
  fun w =>
    match attempts with
    | [] => (Raise (FailedAfter max_retries last_error), w)
    | attempt :: rest =>
        match attempt_once url start_byte end_byte w with
        | (Got content, w1) => (Return content, w1)
        | (Failed e, w1) =>
            let w2 :=
              if attempt <? max_retries - 1
              then snd (sleep (RETRY_DELAY * 2 ^ attempt) w1)
              else w1 in
            retry_loop rest max_retries url start_byte end_byte (Some e) w2
        | (FellThrough, w1) =>
            retry_loop rest max_retries url start_byte end_byte last_error w1
        end
    end.

(** [max_retries = max_retries or self.MAX_RETRIES] *)
Definition effective_retries (max_retries : option Z) : Z :=
  match max_retries with
  | Some n => if n =? 0 then MAX_RETRIES else n
  | None => MAX_RETRIES
  end.

(** [download_chunk_with_retry] *)
Definition download_chunk_with_retry (url : string) (start_byte end_byte : Z)
    (max_retries : option Z) : Action bytes :=
  let n := effective_retries max_retries in
  retry_loop (range n) n url start_byte end_byte None.

(** [metadata.get('chunks_completed', [])] *)
Definition completed_list (metadata : Metadata) : list Z :=
  default [] (chunks_completed metadata).

Definition set_chunks_completed (l : list Z) (metadata : Metadata) : Metadata :=
  {| chunks_completed := Some l;
     file_info := file_info metadata;
     download_started := download_started metadata;
     last_updated := last_updated metadata |}.

Definition set_file_info (fi : FileInfo) (metadata : Metadata) : Metadata :=
  {| chunks_completed := chunks_completed metadata;
     file_info := Some fi;
     download_started := download_started metadata;
     last_updated := last_updated metadata |}.

(** [f.seek(start_byte); f.write(chunk_data); f.flush()] on the temporary
    file.  Seeking to a negative offset raises. *)
Definition write_chunk (temp_path : path) (start_byte : Z) (chunk_data : bytes)
  : Action unit :=
  fun w =>
    if start_byte <? 0 then (Raise (InvalidSeek start_byte), w)
    else
      let content := default [] (files w !! temp_path) in
      let w1 :=
        set_files (<[temp_path := write_at content (Z.to_nat start_byte) chunk_data]>
                     (files w)) w in
      let w2 := snd (emit (EvWrite temp_path start_byte chunk_data) w1) in
      (Return tt, snd (emit (EvFlush temp_path) w2)).

(** The body of the [try] of the chunk loop, for one outstanding ordinal:
    fetch, write and flush, mark, and save the ledger on every tenth
    completed chunk. *)
Definition fetch_and_record (final_url : string) (file_size : Z)
    (meta_path temp_path : path) (chunk_num : Z)
    (completed : gset Z) (metadata : Metadata)
  : Action (gset Z * Metadata) :=
  let start_byte := start_byte (chunk_size self) chunk_num in
  let end_byte := end_byte file_size (chunk_size self) chunk_num in
  chunk_data ← download_chunk_with_retry final_url start_byte end_byte None;
  _ ← write_chunk temp_path start_byte chunk_data;
  let completed' := {[chunk_num]} ∪ completed in
  let metadata' := set_chunks_completed (elements completed') metadata in
  if (Z.of_nat (size completed') mod 10 =? 0)
  then (metadata'' ← save_metadata meta_path metadata';
        mret (completed', metadata''))
  else mret (completed', metadata').

(** How the chunk loop ends. *)
Inductive LoopEnd : Type :=
  | AllFetched (completed : gset Z) (metadata : Metadata)
  | ChunkFailed (e : Exn).              (* the [except] branch: return False *)

(** [for chunk_num in range(total_chunks): ...] *)
Fixpoint chunk_loop (final_url : string) (file_size : Z)
    (meta_path temp_path : path) (ordinals : list Z)
    (completed : gset Z) (metadata : Metadata) (w : World)
  : LoopEnd * World :=
  match ordinals with
  | [] => (AllFetched completed metadata, w)
  | chunk_num :: rest =>
      if decide (chunk_num ∈ completed)
      then chunk_loop final_url file_size meta_path temp_path rest
                      completed metadata w
      else
        match fetch_and_record final_url file_size meta_path temp_path
                               chunk_num completed metadata w with
        | (Return (completed', metadata'), w1) =>
            chunk_loop final_url file_size meta_path temp_path rest
                       completed' metadata' w1
        | (Raise e, w1) =>
            (ChunkFailed e, snd (save_metadata meta_path metadata w1))
        end
  end.

(** [open(temp_path, mode)] and the pre-allocation.  An existing temporary
    file is opened in place (['r+b']); otherwise ['wb'] creates it empty and
    [f.seek(file_size - 1); f.write(b'\0')] extends it to [file_size] zero
    bytes.  The seek raises when [file_size - 1] is negative, leaving the
    empty file behind. *)
Definition open_temp (temp_path : path) (file_size : Z) : Action unit :=
  fun w =>
    match files w !! temp_path with
    | Some _ => emit (EvOpen temp_path ModeRPlusB) w
    | None =>
        let w1 := set_files (<[temp_path := []]> (files w))
                            (snd (emit (EvOpen temp_path ModeWB) w)) in
        if file_size - 1 <? 0 then (Raise (InvalidSeek (file_size - 1)), w1)
        else
          emit (EvPreallocate temp_path file_size)
               (set_files (<[temp_path := write_at [] (Z.to_nat (file_size - 1)) [0]]>
                             (files w1)) w1)
    end.

(** [calculate_file_hash]: the digest of the whole file. *)
Definition calculate_file_hash (file_path : path) : Action string :=
  fun w =>
    match files w !! file_path with
    | None => (Raise (FileNotFoundError file_path), w)
    | Some content =>
        let digest := sha256_hexdigest content in
        (Return digest, snd (emit (EvHash file_path digest) w))
    end.

(** [temp_path.rename(dest_path); meta_path.unlink(); return True].
    [Path.unlink] raises when the ledger file does not exist. *)
Definition publish (dest_path meta_path temp_path : path) : Action bool :=
  fun w =>
    match files w !! temp_path with
    | None => (Raise (FileNotFoundError temp_path), w)
    | Some content =>
        let w1 :=
          snd (emit (EvRename temp_path dest_path)
                 (set_files (<[dest_path := content]> (delete temp_path (files w))) w)) in
        match ledgers w1 !! meta_path with
        | None => (Raise (FileNotFoundError meta_path), w1)
        | Some _ =>
            (Return true,
             snd (emit (EvUnlink meta_path)
                    (set_ledgers (delete meta_path (ledgers w1)) w1)))
        end
    end.

(** The tail of [download_with_resume]: the optional integrity check, then
    the rename and the removal of the ledger. *)
Definition verify_and_publish (dest_path meta_path temp_path : path)
    (verify_hash : option string) : Action bool :=
  if truthy verify_hash then
    calculated_hash ← calculate_file_hash temp_path;
    if bool_decide (lower calculated_hash = lower (default ""%string verify_hash))
    then publish dest_path meta_path temp_path
    else mret false
  else publish dest_path meta_path temp_path.

(** [download_with_resume].  Directory creation and printing are left out;
    the metadata probe, the ledger, the temporary file, the chunk loop and
    the publication are as in the script. *)
Definition download_with_resume (url : string) (dest_path : path)
    (verify_hash : option string) : Action bool :=
  let meta_path := meta_path_of dest_path in
  let temp_path := temp_path_of dest_path in
  file_info ← get_file_info url;
  let final_url := info_final_url file_info in
  let file_size := info_size file_info in
  metadata ← load_metadata meta_path;
  let metadata := set_file_info file_info metadata in
  if chunk_size self =? 0 then raise ZeroDivisionError else
  let total := total_chunks file_size (chunk_size self) in
  let completed : gset Z := list_to_set (completed_list metadata) in
  _ ← open_temp temp_path file_size;
  ((fun w =>
      match chunk_loop final_url file_size meta_path temp_path
                       (range total) completed metadata w with
      | (ChunkFailed _, w1) => (Return false, w1)
      | (AllFetched _ _, w1) =>
          verify_and_publish dest_path meta_path temp_path verify_hash w1
      end) : Action bool).

(** [download_manifest] *)
Definition download_manifest (manifest_url : string) (dest_dir : path)
  : Action Manifest :=
  fun w =>
    let w1 := count_request (snd (emit (EvGetManifest manifest_url) w)) in
    match do_get_manifest (session self) (requests w) manifest_url with
    | ManifestNetworkFailure => (Raise RequestException, w1)
    | ManifestResp status json =>
        if raises_for_status status then (Raise (HTTPError status), w1)
        else match json with
             | None => (Raise JSONDecodeError, w1)
             | Some manifest =>
                 (Return manifest,
                  snd (emit (EvWriteManifest (dest_dir +:+ "/manifest.json")) w1))
             end
    end.

(** [str(Path(dest_dir) / module_name / filename)] for relative names. *)
Definition join_path (dest_dir module_name filename : string) : path :=
  dest_dir +:+ "/" +:+ module_name +:+ "/" +:+ filename.

(** The index part of the loop body in [download_content_package]. *)
Definition download_index (dest_dir module_name : string)
    (module_info : ModuleInfo) (success : bool) : Action bool :=
  match index_url module_info with
  | None => mret success
  | Some url =>
      match index_filename module_info with
      | None => raise (KeyError "index_filename")
      | Some filename =>
          ok ← download_with_resume url (join_path dest_dir module_name filename)
                                    (index_sha256 module_info);
          mret (if ok : bool then success else false)
      end
  end.

(** The loop body of [download_content_package]: the ZIM file, and the
    index unless the ZIM download failed ([continue]). *)
Definition download_module (dest_dir module_name : string)
    (module_info : ModuleInfo) (success : bool) : Action bool :=
  match zim_url module_info with
  | None => download_index dest_dir module_name module_info success
  | Some url =>
      match zim_filename module_info with
      | None => raise (KeyError "zim_filename")
      | Some filename =>
          ok ← download_with_resume url (join_path dest_dir module_name filename)
                                    (zim_sha256 module_info);
          if ok : bool then download_index dest_dir module_name module_info success
          else mret false
      end
  end.

Fixpoint download_modules (dest_dir : string)
    (modules_to_download : list (string * ModuleInfo)) (success : bool)
  : Action bool :=
  match modules_to_download with
  | [] => mret success
  | (module_name, module_info) :: rest =>
      success' ← download_module dest_dir module_name module_info success;
      download_modules dest_dir rest success'
  end.

(** The module selection: the named module out of ['modules'], or the
    top-level ['core'] entry.  [None] stands for the early [return False]. *)
Definition select_modules (manifest : Manifest) (module : option string)
  : option (list (string * ModuleInfo)) :=
  if truthy module then
    let name := default ""%string module in
    match default ∅ (modules manifest) !! name with
    | None => None
    | Some module_info => Some [(name, module_info)]
    end
  else
    match core manifest with
    | Some module_info => Some [("core"%string, module_info)]
    | None => None
    end.

(** [download_content_package]: every exception is caught and turned into
    [False]. *)
Definition download_content_package (manifest_url : string) (dest_dir : path)
    (module : option string) : World -> bool * World :=
  fun w =>
    let body : Action bool :=
      manifest ← download_manifest manifest_url dest_dir;
      match select_modules manifest module with
      | None => mret false
      | Some modules_to_download =>
          download_modules dest_dir modules_to_download true
      end in
    match body w with
    | (Return b, w') => (b, w')
    | (Raise _, w') => (false, w')
    end.

End Methods.

End ChunkedDownloader.

(* ===================================================================== *)
(** ** Vocabulary of the properties *)
(* ===================================================================== *)

Module Vocabulary.
Import Planner ChunkedDownloader.

(** The events a run appended to the trace. *)
Definition added (w w' : World) : list Event :=
  drop (length (trace w)) (trace w').

(** The ranged requests among some events, and the delays slept. *)
Definition is_get (ev : Event) : bool :=
  match ev with EvGet _ _ _ => true | _ => false end.

Definition gets (evs : list Event) : list Event := List.filter is_get evs.

Fixpoint sleeps (evs : list Event) : list Z :=
  match evs with
  | [] => []
  | EvSleep d :: rest => d :: sleeps rest
  | _ :: rest => sleeps rest
  end.

(** A response on which the body of the [try] raises: a failed request, a
    full-body 200, or a 4xx/5xx status. *)
Definition raising (r : Response) : bool :=
  match r with
  | NetworkFailure => true
  | Resp status _ =>
      negb (status =? 206) && ((status =? 200) || raises_for_status status)
  end.


(** A full-body answer to a ranged request. *)
Definition full_body (r : Response) : bool :=
  match r with
  | Resp status _ => status =? 200
  | NetworkFailure => false
  end.

(** The events of a fetch that fails on every one of the attempts
    [attempts]: a request per attempt, and a sleep of
    [RETRY_DELAY * 2 ^ attempt] after every attempt but the last of
    [max_retries]. *)
Fixpoint backoff_schedule (url : string) (start_byte end_byte : Z)
    (max_retries : Z) (attempts : list Z) : list Event :=
  match attempts with
  | [] => []
  | attempt :: rest =>
      EvGet url start_byte end_byte
      :: (if attempt <? max_retries - 1
          then [EvSleep (RETRY_DELAY * 2 ^ attempt)] else [])
      ++ backoff_schedule url start_byte end_byte max_retries rest
  end.

(** Events by the phase of [download_with_resume] that emits them. *)
Definition net_event (ev : Event) : bool :=
  match ev with EvGet _ _ _ | EvSleep _ => true | _ => false end.

Definition setup_event (ev : Event) : bool :=
  match ev with EvHead _ | EvOpen _ _ | EvPreallocate _ _ => true | _ => false end.

Definition loop_event (ev : Event) : bool :=
  match ev with
  | EvGet _ _ _ | EvSleep _ | EvWrite _ _ _ | EvFlush _ | EvSave _ _ => true
  | _ => false
  end.

Definition publish_event (ev : Event) : bool :=
  match ev with EvHash _ _ | EvRename _ _ | EvUnlink _ => true | _ => false end.

(** Everything [download_with_resume] does before its chunk loop: the
    metadata probe, the ledger, the temporary file. *)
Definition setup (self : Downloader) (url : string) (dest_path : path)
  : Action (FileInfo * Metadata) :=
  file_info ← get_file_info self url;
  metadata ← load_metadata (meta_path_of dest_path);
  if chunk_size self =? 0 then raise ZeroDivisionError else
  _ ← open_temp (temp_path_of dest_path) (info_size file_info);
  mret (file_info, set_file_info file_info metadata).

(** The chunk loop as [download_with_resume] starts it. *)
Definition run_chunks (self : Downloader) (dest_path : path)
    (file_info : FileInfo) (metadata : Metadata) : World -> LoopEnd * World :=
  chunk_loop self (info_final_url file_info) (info_size file_info)
    (meta_path_of dest_path) (temp_path_of dest_path)
    (range (total_chunks (info_size file_info) (chunk_size self)))
    (list_to_set (completed_list metadata)) metadata.

(** The events of one fetch of the range [start_byte .. end_byte] of
    [url]: requests for that very range, and sleeps. *)
Definition fetch_event (url : string) (start_byte end_byte : Z) (ev : Event)
  : Prop :=
  ev = EvGet url start_byte end_byte \/ exists seconds, ev = EvSleep seconds.

(** The two ways one pass of the chunk loop's [try] can go: an exception
    after network traffic only, or a chunk written and flushed at its
    offset, marked, and possibly followed by a save of the ledger.  What is
    written is the content of a 206 answer to the request for the chunk's
    own range. *)
Inductive FetchStep (self : Downloader) (final_url : string) (file_size : Z)
    (meta_path temp_path : path) (chunk_num : Z) (completed : gset Z) (w : World)
  : Outcome (gset Z * Metadata) -> World -> Prop :=
  | StepRaised (e : Exn) (w' : World) (net : list Event) :
      files w' = files w -> ledgers w' = ledgers w ->
      trace w' = trace w ++ net ->
      Forall (fetch_event final_url (start_byte (chunk_size self) chunk_num)
                (end_byte file_size (chunk_size self) chunk_num)) net ->
      FetchStep self final_url file_size meta_path temp_path chunk_num
        completed w (Raise e) w'
  | StepWritten (data : bytes) (metadata' : Metadata) (w' : World)
      (net saved : list Event) :
      Forall (fetch_event final_url (start_byte (chunk_size self) chunk_num)
                (end_byte file_size (chunk_size self) chunk_num)) net ->
      (exists t, do_get (session self) t final_url
                   (start_byte (chunk_size self) chunk_num)
                   (end_byte file_size (chunk_size self) chunk_num)
                 = Resp 206 data) ->
      0 <= start_byte (chunk_size self) chunk_num ->
      files w'
      = <[temp_path :=
            write_at (default [] (files w !! temp_path))
              (Z.to_nat (start_byte (chunk_size self) chunk_num)) data]> (files w) ->
      completed_list metadata' = elements ({[chunk_num]} ∪ completed) ->
      (saved = [] /\ ledgers w' = ledgers w
       \/ saved = [EvSave meta_path metadata']
          /\ ledgers w' = <[meta_path := ValidJson metadata']> (ledgers w)) ->
      trace w'
      = trace w ++ net
        ++ [EvWrite temp_path (start_byte (chunk_size self) chunk_num) data;
            EvFlush temp_path] ++ saved ->
      FetchStep self final_url file_size meta_path temp_path chunk_num
        completed w (Return ({[chunk_num]} ∪ completed, metadata')) w'.

(** The ordinals a ledger file on disk records as completed. *)
Definition loaded_chunks (w : World) (meta_path : path) : list Z :=
  match ledgers w !! meta_path with
  | Some (ValidJson m) => completed_list m
  | _ => []
  end.

(** Among the events [evs], a write at [offset] of the temporary file
    immediately followed by its flush, both strictly before position [k]. *)
Definition flushed_before (temp_path : path) (evs : list Event) (k : nat)
    (offset : Z) : Prop :=
  exists (j : nat) (data : bytes),
    (S j < k)%nat
    /\ evs !! j = Some (EvWrite temp_path offset data)
    /\ evs !! S j = Some (EvFlush temp_path).

(** What the chunk loop maintains about the events [evs] of the run so far,
    the in-memory set [completed] and the dictionary [metadata], given the
    set [loaded] read from the ledger at the start. *)
Record LoopInv (self : Downloader) (meta_path temp_path : path)
    (loaded completed : gset Z) (metadata : Metadata) (evs : list Event)
  : Prop := mkLoopInv {
  inv_list : forall i, i ∈ completed <-> i ∈ completed_list metadata;
  inv_loaded : loaded ⊆ completed;
  inv_flushed : forall i, i ∈ completed ->
      i ∈ loaded
      \/ flushed_before temp_path evs (length evs) (start_byte (chunk_size self) i);
  inv_writes : forall k p offset data,
      evs !! k = Some (EvWrite p offset data) ->
      p = temp_path
      /\ exists i, i ∈ completed /\ offset = start_byte (chunk_size self) i;
  inv_saves : forall k p m,
      evs !! k = Some (EvSave p m) ->
      p = meta_path
      /\ forall i, i ∈ completed_list m ->
           i ∈ loaded
           \/ flushed_before temp_path evs k (start_byte (chunk_size self) i)
}.

(** What the chunk loop may change: the temporary file, the ledger file,
    and the trace, by loop events only.  Neither file disappears. *)
Definition loop_frame (meta_path temp_path : path) (w w' : World) : Prop :=
  (forall p, p <> temp_path -> files w' !! p = files w !! p)
  /\ (forall p, p <> meta_path -> ledgers w' !! p = ledgers w !! p)
  /\ (is_Some (files w !! temp_path) -> is_Some (files w' !! temp_path))
  /\ (is_Some (ledgers w !! meta_path) -> is_Some (ledgers w' !! meta_path))
  /\ exists more, trace w' = trace w ++ more
                  /\ forallb loop_event more = true.

(** The ways the tail of [download_with_resume] can go: the integrity check
    refuses the file; or the file is renamed, after which the removal of the
    ledger succeeds or raises. *)
Inductive Tail (sha256_hexdigest : bytes -> string) (dest_path : path)
    (verify_hash : option string) (w : World) : Outcome bool -> World -> Prop :=
  | TailNoTemp :
      files w !! temp_path_of dest_path = None ->
      Tail sha256_hexdigest dest_path verify_hash w
        (Raise (FileNotFoundError (temp_path_of dest_path))) w
  | TailRefused (content : bytes) :
      files w !! temp_path_of dest_path = Some content ->
      truthy verify_hash = true ->
      lower (sha256_hexdigest content) <> lower (default ""%string verify_hash) ->
      Tail sha256_hexdigest dest_path verify_hash w (Return false)
        (snd (emit (EvHash (temp_path_of dest_path) (sha256_hexdigest content)) w))
  | TailPublished (content : bytes) (checked : list Event) r w' :
      files w !! temp_path_of dest_path = Some content ->
      checked = (if truthy verify_hash
                 then [EvHash (temp_path_of dest_path) (sha256_hexdigest content)]
                 else []) ->
      (truthy verify_hash = true ->
       lower (sha256_hexdigest content) = lower (default ""%string verify_hash)) ->
      files w' = <[dest_path := content]> (delete (temp_path_of dest_path) (files w)) ->
      (ledgers w !! meta_path_of dest_path = None
       /\ r = Raise (FileNotFoundError (meta_path_of dest_path))
       /\ ledgers w' = ledgers w
       /\ trace w' = trace w ++ checked
                     ++ [EvRename (temp_path_of dest_path) dest_path]
       \/ is_Some (ledgers w !! meta_path_of dest_path)
          /\ r = Return true
          /\ ledgers w' = delete (meta_path_of dest_path) (ledgers w)
          /\ trace w' = trace w ++ checked
                        ++ [EvRename (temp_path_of dest_path) dest_path;
                            EvUnlink (meta_path_of dest_path)]) ->
      Tail sha256_hexdigest dest_path verify_hash w r w'.

(** The ways a whole [download_with_resume] can go. *)
Inductive Run (sha256_hexdigest : bytes -> string) (self : Downloader)
    (url : string) (dest_path : path) (verify_hash : option string) (w : World)
  : Outcome bool -> World -> Prop :=
  | RunSetupRaised (e : Exn) (w1 : World) :
      setup self url dest_path w = (Raise e, w1) ->
      Run sha256_hexdigest self url dest_path verify_hash w (Raise e) w1
  | RunChunkFailed file_info metadata (w1 : World) (e : Exn) (w2 : World) :
      setup self url dest_path w = (Return (file_info, metadata), w1) ->
      run_chunks self dest_path file_info metadata w1 = (ChunkFailed e, w2) ->
      Run sha256_hexdigest self url dest_path verify_hash w (Return false) w2
  | RunTail file_info metadata (w1 : World) completed metadata' (w2 : World) r w3 :
      setup self url dest_path w = (Return (file_info, metadata), w1) ->
      run_chunks self dest_path file_info metadata w1
      = (AllFetched completed metadata', w2) ->
      Tail sha256_hexdigest dest_path verify_hash w2 r w3 ->
      Run sha256_hexdigest self url dest_path verify_hash w r w3.

(** The events of the setup and of the chunk loop together. *)
Definition assembling_event (ev : Event) : bool :=
  setup_event ev || loop_event ev.

(** The bytes [start_byte .. end_byte] of a resource. *)
Definition slice (content : bytes) (start_byte end_byte : Z) : bytes :=
  take (Z.to_nat (end_byte - start_byte + 1)) (drop (Z.to_nat start_byte) content).

(** A server that offers [content] at [url]: the probe succeeds, resolves
    to [final_url] and reports the size, and whatever ranged request it
    answers with 206, it answers with exactly the bytes requested.  It may
    still fail to answer. *)
Definition offers (srv : Server) (url final_url : string) (content : bytes)
  : Prop :=
  (forall t, exists hr,
      do_head srv t url = Some hr
      /\ raises_for_status (hr_status hr) = false
      /\ hr_url hr = final_url
      /\ hr_content_length hr = Some (Z.of_nat (length content)))
  /\ (forall t s e data, 0 <= s <= e -> e < Z.of_nat (length content) ->
        do_get srv t final_url s e = Resp 206 data ->
        data = slice content s e).

(** A server that serves [content] at [url]: the probe succeeds, resolves to
    [final_url] and reports the size, and every ranged request within the
    resource is answered with 206 and exactly the bytes requested. *)
Definition serves (srv : Server) (url final_url : string) (content : bytes)
  : Prop :=
  (forall t, exists hr,
      do_head srv t url = Some hr
      /\ raises_for_status (hr_status hr) = false
      /\ hr_url hr = final_url
      /\ hr_content_length hr = Some (Z.of_nat (length content)))
  /\ (forall t s e, 0 <= s <= e -> e < Z.of_nat (length content) ->
        do_get srv t final_url s e = Resp 206 (slice content s e)).

(** The local file [local] has the size of [content] and holds its bytes
    wherever the chunk of the byte is in [done]. *)
Definition agrees (chunk_size : Z) (done : gset Z) (local content : bytes)
  : Prop :=
  length local = length content
  /\ forall k : nat, Z.of_nat k / chunk_size ∈ done -> local !! k = content !! k.

(** Nothing on disk for this destination: neither temporary file nor
    ledger. *)
Definition fresh (dest_path : path) (w : World) : Prop :=
  files w !! temp_path_of dest_path = None
  /\ ledgers w !! meta_path_of dest_path = None.

(** An interrupted download of [content] on disk: a parseable ledger, and a
    temporary file that holds every chunk the ledger records. *)
Definition resumable (self : Downloader) (dest_path : path) (content : bytes)
    (w : World) : Prop :=
  (exists m, ledgers w !! meta_path_of dest_path = Some (ValidJson m))
  /\ exists local,
       files w !! temp_path_of dest_path = Some local
       /\ agrees (chunk_size self)
            (list_to_set (loaded_chunks w (meta_path_of dest_path)))
            local content.

(** The file a download has assembled: the temporary file while it exists,
    the destination once the temporary file has been renamed. *)
Definition assembled (dest_path : path) (w : World) : option bytes :=
  match files w !! temp_path_of dest_path with
  | Some local => Some local
  | None => files w !! dest_path
  end.

(** The requests for the ordinals [ordinals], in order. *)
Definition requests_for (self : Downloader) (final_url : string)
    (file_size : Z) (ordinals : list Z) : list Event :=
  map (fun i => EvGet final_url (start_byte (chunk_size self) i)
                      (end_byte file_size (chunk_size self) i)) ordinals.

End Vocabulary.

(* ===================================================================== *)
(** ** Concrete scenarios *)
(* ===================================================================== *)

Module Scenarios.
Import Planner ChunkedDownloader Vocabulary.

(** A ten-byte resource, fetched in chunks of four bytes. *)
Definition resource : bytes := [1; 2; 3; 4; 5; 6; 7; 8; 9; 10].

Definition head_ok (content_length : option Z) (url : string) : option HeadResponse :=
  Some (mkHeadResponse 200 url content_length (Some "bytes"%string) []).

Definition no_manifest (t : nat) (url : string) : ManifestResponse :=
  ManifestNetworkFailure.

(** A server that honours every ranged request. *)
Definition origin : Server :=
  mkServer (fun _ => head_ok (Some 10))
           (fun _ _ s e => Resp 206 (slice resource s e))
           no_manifest.

(** A server that answers every ranged request with the full body. *)
Definition always_200 : Server :=
  mkServer (fun _ => head_ok (Some 10))
           (fun _ _ _ _ => Resp 200 resource)
           no_manifest.

(** A server whose ranged requests all time out. *)
Definition unreachable : Server :=
  mkServer (fun _ => head_ok (Some 10))
           (fun _ _ _ _ => NetworkFailure)
           no_manifest.

(** A server that does not report a size. *)
Definition no_size : Server :=
  mkServer (fun _ => head_ok None)
           (fun _ _ s e => Resp 206 (slice resource s e))
           no_manifest.

(** A server that honours the first ranged request (the second request
    overall, after the HEAD) and times out from then on. *)
Definition interrupted : Server :=
  mkServer (fun _ => head_ok (Some 10))
           (fun t _ s e => if (t <? 2)%nat then Resp 206 (slice resource s e)
                           else NetworkFailure)
           no_manifest.

(** A stand-in for SHA-256, enough to tell the resource from anything
    else. *)
Definition toy_digest (content : bytes) : string :=
  if bool_decide (content = resource) then "C0FFEE"%string else "0BAD"%string.

Definition empty_world : World := mkWorld ∅ ∅ 0 0 [].

Definition URL : string := "http://host/f".
Definition DEST : path := "raw/f".

(** A world whose ledger for [DEST] cannot be parsed. *)
Definition corrupt_ledger_world : World :=
  mkWorld ∅ {[meta_path_of DEST := Unparseable]} 0 0 [].

Definition some_info : FileInfo := mkFileInfo URL 10 true [].

(** A world left behind by an earlier run that completed chunks 0 and 1. *)
Definition resumable_world : World :=
  mkWorld {[temp_path_of DEST := [1; 2; 3; 4; 5; 6; 7; 8; 0; 0]]}
          {[meta_path_of DEST :=
              ValidJson (mkMetadata (Some [0; 1]) (Some some_info) (Some 0%nat) (Some 3%nat))]}
          0 0 [].


End Scenarios.

(* ===================================================================== *)
(** ** Sentences of the specification that the code does not satisfy *)
(* ===================================================================== *)

Module Stated.
Import Planner ChunkedDownloader Vocabulary.

(** The claim C2 as the specification states it: a full-body answer to a
    ranged request makes the fetch raise at once, after that single
    request. *)
Definition aborts_on_full_body (self : Downloader) (url : string)
    (start_byte end_byte : Z) (w : World) : Prop :=
  full_body (do_get (session self) (requests w) url start_byte end_byte) = true ->
  exists e w',
    download_chunk_with_retry self url start_byte end_byte None w = (Raise e, w')
    /\ added w w' = [EvGet url start_byte end_byte].

(** The claim C4 as the specification states it: loading an unparseable
    ledger yields a fresh, empty ledger. *)
Definition corrupt_ledger_starts_over (meta_path : path) (w : World) : Prop :=
  ledgers w !! meta_path = Some Unparseable ->
  exists m, fst (load_metadata meta_path w) = Return m /\ completed_list m = [].

(** The claim C5 as the specification states it: when no size is reported
    the download does not raise and fetches the resource as one chunk. *)
Definition single_chunk_when_size_unknown
    (sha256_hexdigest : bytes -> string) (self : Downloader)
    (url : string) (dest_path : path) (verify_hash : option string)
    (w : World) : Prop :=
  (exists hr, do_head (session self) (requests w) url = Some hr
              /\ hr_content_length hr = None) ->
  (forall e, fst (download_with_resume sha256_hexdigest self url dest_path
                    verify_hash w) <> Raise e)
  /\ length (gets (added w (snd (download_with_resume sha256_hexdigest self url
                                   dest_path verify_hash w)))) = 1%nat.


End Stated.

(* ===================================================================== *)
(** ** The command line ([main]) *)
(* ===================================================================== *)

Module Cli.
Import Planner ChunkedDownloader.

(** The [action] argument: ['download'], ['resume'] or ['manifest']. *)
Inductive CliAction : Type := ActDownload | ActResume | ActManifest.

(** The parsed arguments; [--dest] defaults to ['../raw/']. *)
Record Args := mkArgs {
  arg_action : CliAction;
  arg_url : option string;
  arg_manifest : option string;
  arg_dest : string;
  arg_module : option string;
  arg_hash : option string;
  arg_chunk_size : option Z
}.

(** How the process ends: [sys.exit(status)], falling off the end of
    [main], or an exception nobody caught. *)
Inductive Termination : Type :=
  | Exited (status : Z)
  | Returned
  | Uncaught (e : Exn).

Definition is_char (c d : ascii) : bool := bool_decide (c = d).

(** [s.split('?')[0]]: what precedes the first question mark. *)
Fixpoint before_query (s : string) : string :=
  match s with
  | EmptyString => EmptyString
  | String c s' => if is_char c "?" then EmptyString else String c (before_query s')
  end.

Fixpoint has_slash (s : string) : bool :=
  match s with
  | EmptyString => false
  | String c s' => is_char c "/" || has_slash s'
  end.

(** [os.path.basename(p)]: what follows the last slash. *)
Fixpoint basename (p : string) : string :=
  match p with
  | EmptyString => EmptyString
  | String c p' => if has_slash p then basename p' else p
  end.

(** The file name a direct download is stored under. *)
Definition filename_of_url (url : string) : string :=
  basename (before_query url).

Section Main.

Variable sha256_hexdigest : bytes -> string.

(** The HTTP session every downloader is created with. *)
Variable session : Server.

(** [str(Path(dest) / filename)], a library function. *)
Variable path_join : string -> string -> path.

(** [main] *)
Definition main (args : Args) : World -> Termination * World :=
  fun w =>
    let downloader := init (arg_chunk_size args) session in
    match arg_action args with
    | ActDownload =>
        if truthy (arg_manifest args) then
          let '(success, w') :=
            download_content_package sha256_hexdigest downloader
              (default ""%string (arg_manifest args)) (arg_dest args)
              (arg_module args) w in
          (Exited (if success : bool then 0 else 1), w')
        else if truthy (arg_url args) then
          let url := default ""%string (arg_url args) in
          let dest_path := path_join (arg_dest args) (filename_of_url url) in
          match download_with_resume sha256_hexdigest downloader url dest_path
                                     (arg_hash args) w with
          | (Return success, w') => (Exited (if success : bool then 0 else 1), w')
          | (Raise e, w') => (Uncaught e, w')
          end
        else (Exited 1, w)
    | ActResume => (Returned, w)
    | ActManifest =>
        if truthy (arg_manifest args) then
          match download_manifest downloader (default ""%string (arg_manifest args))
                                  (arg_dest args) w with
          | (Return _, w') => (Returned, w')
          | (Raise e, w') => (Uncaught e, w')
          end
        else (Exited 1, w)
    end.

End Main.
End Cli.

(* ===================================================================== *)
(** ** Further vocabulary *)
(* ===================================================================== *)

Module MoreVocabulary.
Import Planner ChunkedDownloader Vocabulary Scenarios.

(** The character [d] occurs in [s]. *)
Fixpoint mentions (d : ascii) (s : string) : bool :=
  match s with
  | EmptyString => false
  | String c s' => Cli.is_char c d || mentions d s'
  end.

(** [Path(dest) / filename] for a directory given without a trailing
    slash. *)
Definition slash_join (dest filename : string) : path :=
  dest +:+ "/" +:+ filename.

(** A response on which the body of the [try] neither returns nor raises:
    a status that is not 206, not 200, and that [raise_for_status] lets
    pass. *)
Definition silent (r : Response) : bool :=
  match r with
  | NetworkFailure => false
  | Resp status _ =>
      negb (status =? 206) && negb (status =? 200)
      && negb (raises_for_status status)
  end.

(** A metadata probe that fails: no answer, or a 4xx/5xx status. *)
Definition probe_fails (srv : Server) (t : nat) (url : string) : Prop :=
  match do_head srv t url with
  | None => True
  | Some hr => raises_for_status (hr_status hr) = true
  end.

(** A manifest request that fails: no answer, a 4xx/5xx status, or a body
    that is not JSON. *)
Definition manifest_fails (srv : Server) (t : nat) (url : string) : Prop :=
  match do_get_manifest srv t url with
  | ManifestNetworkFailure => True
  | ManifestResp status json => raises_for_status status = true \/ json = None
  end.

(** The requests of [count] attempts in a row, without a sleep. *)
Definition bare_requests (url : string) (start_byte end_byte : Z) (count : Z)
  : list Event :=
  map (fun _ => EvGet url start_byte end_byte) (range count).

(** A request for one of the chunks of the plan for [file_size] bytes. *)
Definition planned_request (self : Downloader) (final_url : string)
    (file_size : Z) (ev : Event) : Prop :=
  exists i, 0 <= i < total_chunks file_size (chunk_size self)
            /\ ev = EvGet final_url (start_byte (chunk_size self) i)
                          (end_byte file_size (chunk_size self) i).

(** The events of a manifest download that went through. *)
Definition manifest_events (manifest_url : string) (dest_dir : path) : list Event :=
  [EvGetManifest manifest_url; EvWriteManifest (dest_dir +:+ "/manifest.json")].

(** A server whose probe always fails with status 404. *)
Definition gone : Server :=
  mkServer (fun _ url => Some (mkHeadResponse 404 url None None []))
           (fun _ _ _ _ => NetworkFailure)
           (fun _ _ => ManifestNetworkFailure).

(** A server that times out twice on every range, then serves it: the
    requests numbered 0 and 1 fail. *)
Definition slow_start : Server :=
  mkServer (fun _ url => Some (mkHeadResponse 200 url (Some 10) (Some "bytes"%string) []))
           (fun t _ _ _ => if (t <? 2)%nat then NetworkFailure else Resp 206 [7; 7])
           (fun _ _ => ManifestNetworkFailure).

(** A server that answers every ranged request with 204 No Content. *)
Definition no_content : Server :=
  mkServer (fun _ url => Some (mkHeadResponse 200 url (Some 10) (Some "bytes"%string) []))
           (fun _ _ _ _ => Resp 204 [])
           (fun _ _ => ManifestNetworkFailure).

(** The artifact is at [dest_path], and hashes to [digest] when one was
    given. *)
Definition in_place (sha256_hexdigest : bytes -> string) (dest_path : path)
    (digest : option string) (w : World) : Prop :=
  exists content,
    files w !! dest_path = Some content
    /\ (truthy digest = true ->
        lower (sha256_hexdigest content) = lower (default ""%string digest)).

(** A module descriptor lists a URL without the file name to store it
    under. *)
Definition lacks_filename (module_info : ModuleInfo) : Prop :=
  (is_Some (zim_url module_info) /\ zim_filename module_info = None)
  \/ (zim_url module_info = None
      /\ is_Some (index_url module_info) /\ index_filename module_info = None).

(** A descriptor for the ten-byte resource as a ZIM file. *)
Definition zim_only : ModuleInfo :=
  mkModuleInfo (Some URL) (Some "f.zim"%string) (Some "c0ffee"%string)
               None None None.

(** A descriptor with none of the keys the downloader reads. *)
Definition keyless : ModuleInfo := mkModuleInfo None None None None None None.

(** A server with a manifest whose only entry is the top-level ['core']. *)
Definition depot (core_info : ModuleInfo) : Server :=
  mkServer (fun _ => head_ok (Some 10))
           (fun _ _ s e => Resp 206 (slice resource s e))
           (fun _ _ => ManifestResp 200 (Some (mkManifest None (Some core_info)))).

End MoreVocabulary.

(* ===================================================================== *)
(** ** Properties of the transfer planner *)
(* ===================================================================== *)

Module PlannerProps.
Import Planner.

Lemma total_chunks_ceil (file_size chunk_size : Z) :
  0 < chunk_size ->
  is_ceil_div file_size chunk_size (total_chunks file_size chunk_size).
Proof.
  intros Hc. unfold is_ceil_div, total_chunks.
  pose proof (Z.div_mod (file_size + chunk_size - 1) chunk_size ltac:(lia)) as Hdm.
  pose proof (Z.mod_pos_bound (file_size + chunk_size - 1) chunk_size Hc) as Hb.
  split; nia.
Qed.

Lemma total_chunks_pos (file_size chunk_size : Z) :
  0 < file_size -> 0 < chunk_size -> 0 < total_chunks file_size chunk_size.
Proof.
  intros Hf Hc. destruct (total_chunks_ceil file_size chunk_size Hc) as [H1 _].
  nia.
Qed.

Lemma sum_Z_app (l1 l2 : list Z) : sum_Z (l1 ++ l2) = sum_Z l1 + sum_Z l2.
Proof. induction l1 as [|x l1 IH]; simpl; [reflexivity | rewrite IH; lia]. Qed.

Lemma range_of_nat (k : nat) : range (Z.of_nat k) = map Z.of_nat (seq 0 k).
Proof. unfold range. now rewrite Nat2Z.id. Qed.

Lemma range_succ (k : Z) : 0 <= k -> range (k + 1) = range k ++ [k].
Proof.
  intros Hk. unfold range.
  replace (Z.to_nat (k + 1)) with (S (Z.to_nat k)) by lia.
  rewrite seq_S, map_app. simpl. now rewrite Z2Nat.id by lia.
Qed.

Lemma elem_of_range (n i : Z) : i ∈ range n <-> 0 <= i < n.
Proof.
  unfold range. rewrite list_elem_of_In, in_map_iff. split.
  - intros (k & <- & Hk). apply in_seq in Hk. lia.
  - intros Hi. exists (Z.to_nat i). split; [lia |]. apply in_seq. lia.
Qed.

(** The first [k] chunks together hold [min (k * chunk_size) file_size]
    bytes. *)
Lemma prefix_lengths (file_size chunk_size : Z) (k : nat) :
  0 < file_size -> 0 < chunk_size ->
  Z.of_nat k <= total_chunks file_size chunk_size ->
  sum_Z (map (chunk_length file_size chunk_size) (range (Z.of_nat k)))
  = Z.min (Z.of_nat k * chunk_size) file_size.
Proof.
  intros Hf Hc. destruct (total_chunks_ceil file_size chunk_size Hc) as [_ Hlow].
  induction k as [|k IH]; intros Hk.
  - simpl. lia.
  - replace (Z.of_nat (S k)) with (Z.of_nat k + 1) by lia.
    rewrite range_succ, map_app, sum_Z_app, IH by lia. simpl.
    unfold chunk_length, end_byte, start_byte. nia.
Qed.

End PlannerProps.

Module PlannerClaims.
Import Planner PlannerProps.

(** C1.  For every positive size and chunk size the plan walked by the
    download loop has [ceil(file_size / chunk_size)] chunks, every chunk is
    the range the specification names, and the chunks tile
    [0, file_size): the first starts at 0, each is non-empty, each starts
    right after its predecessor ends, the last ends at [file_size - 1],
    distinct chunks are disjoint, every byte offset lies in exactly one
    chunk, and the chunk lengths add up to [file_size]. *)
Theorem chunk_plan_tiles (file_size chunk_size : Z) :
  0 < file_size -> 0 < chunk_size ->
  let n := total_chunks file_size chunk_size in
  let lo := start_byte chunk_size in
  let hi := end_byte file_size chunk_size in
  is_ceil_div file_size chunk_size n
  /\ (forall i, 0 <= i < n -> (lo i, hi i) = spec_range file_size chunk_size i)
  /\ lo 0 = 0
  /\ (forall i, 0 <= i < n -> lo i <= hi i)
  /\ (forall i, 0 <= i < n - 1 -> lo (i + 1) = hi i + 1)
  /\ hi (n - 1) = file_size - 1
  /\ (forall i j, 0 <= i < j -> j < n -> hi i < lo j)
  /\ (forall b, 0 <= b < file_size ->
        exists i, (0 <= i < n /\ lo i <= b <= hi i)
                  /\ forall j, 0 <= j < n /\ lo j <= b <= hi j -> j = i)
  /\ sum_Z (map (chunk_length file_size chunk_size) (range n)) = file_size.
Proof.
  intros Hf Hc n lo hi.
  pose proof (total_chunks_ceil file_size chunk_size Hc) as [Hup Hlow].
  pose proof (total_chunks_pos file_size chunk_size Hf Hc) as Hn.
  fold n in Hup, Hlow, Hn.
  subst lo hi. unfold spec_range, end_byte, start_byte.
  split; [split; assumption |].
  split; [intros i Hi; f_equal; lia |].
  split; [lia |].
  split; [intros i Hi; nia |].
  split; [intros i Hi; nia |].
  split; [nia |].
  split; [intros i j Hij Hj; nia |].
  split.
  - intros b Hb. exists (b / chunk_size).
    pose proof (Z.div_mod b chunk_size ltac:(lia)) as Hdm.
    pose proof (Z.mod_pos_bound b chunk_size Hc) as Hmb.
    assert (0 <= b / chunk_size) by (apply Z.div_pos; lia).
    split; [split; [nia | split; nia] |].
    intros j [Hj [Hj1 Hj2]].
    assert (j * chunk_size <= b < (j + 1) * chunk_size) as Hjb by lia.
    apply (Z.div_unique b chunk_size j (b - j * chunk_size)); lia.
  - replace n with (Z.of_nat (Z.to_nat n)) at 1 by lia.
    rewrite prefix_lengths by (fold n; lia). lia.
Qed.

(** The theorem at scenario A of the specification: 10,000,000 bytes in
    4 MiB chunks. *)
Lemma chunk_plan_tiles_witness :
  0 < 10000000 /\ 0 < CHUNK_SIZE
  /\ sum_Z (map (chunk_length 10000000 CHUNK_SIZE)
                (range (total_chunks 10000000 CHUNK_SIZE))) = 10000000.
Proof.
  split; [reflexivity |]. split; [reflexivity |].
  apply (chunk_plan_tiles 10000000 CHUNK_SIZE); reflexivity.
Defined.

(** Scenario A evaluated: three chunks of sizes 4194304, 4194304, 1611392. *)
Example scenario_A :
  total_chunks 10000000 CHUNK_SIZE = 3
  /\ map (chunk_length 10000000 CHUNK_SIZE) (range 3) = [4194304; 4194304; 1611392]
  /\ chunk_plan 10000000 CHUNK_SIZE
     = [(0, 4194303); (4194304, 8388607); (8388608, 9999999)].
Proof. repeat split. Qed.

End PlannerClaims.

(* ===================================================================== *)
(** ** The chunk fetcher *)
(* ===================================================================== *)

Module FetcherProps.
Import Planner PlannerProps ChunkedDownloader Vocabulary.

Section Fetcher.
Variable self : Downloader.

Lemma added_app (w w' : World) (delta : list Event) :
  trace w' = trace w ++ delta -> added w w' = delta.
Proof. intros H. unfold added. rewrite H. apply drop_app_length. Qed.

Lemma raising_attempt (url : string) (s e : Z) (w : World) :
  raising (do_get (session self) (requests w) url s e) = true ->
  exists err, attempt_once self url s e w
    = (Failed err,
       count_request (snd (emit (EvGet url s e) w))).
Proof.
  unfold attempt_once, raising.
  destruct (do_get _ _ _ _ _) as [status content|]; [|eauto].
  destruct (status =? 206); [discriminate|]. simpl.
  destruct (status =? 200); [eauto|]. simpl.
  intros ->. eauto.
Qed.

(** A fetch whose every attempt raises: the loop runs through all the
    attempts, follows the backoff schedule, touches no file and ends in the
    final [raise]. *)
Lemma retry_loop_all_raise (url : string) (s e n : Z) (attempts : list Z) :
  (forall t, raising (do_get (session self) t url s e) = true) ->
  forall (last : option Exn) (w : World),
  exists err w',
    retry_loop self attempts n url s e last w = (Raise (FailedAfter n err), w')
    /\ trace w' = trace w ++ backoff_schedule url s e n attempts
    /\ files w' = files w /\ ledgers w' = ledgers w
    /\ (err = None -> last = None /\ attempts = []).
Proof.
  intros Hall. induction attempts as [|a rest IH]; intros last w.
  - exists last, w. simpl. rewrite app_nil_r. repeat split; auto.
  - simpl. destruct (raising_attempt url s e w (Hall _)) as [err ->].
    match goal with |- context [retry_loop _ _ _ _ _ _ _ ?w2] =>
      destruct (IH (Some err) w2) as (err' & w' & -> & Ht & Hf & Hl & Hn) end.
    exists err', w'. split; [reflexivity|].
    assert (err' <> None) as Hne
      by (intros ->; destruct (Hn eq_refl); discriminate).
    rewrite Ht, Hf, Hl.
    destruct (a <? n - 1); simpl; rewrite <- !app_assoc; simpl;
      split_and!; try reflexivity; intros; contradiction.
Qed.

Lemma gets_backoff (url : string) (s e n : Z) (attempts : list Z) :
  gets (backoff_schedule url s e n attempts)
  = map (fun _ => EvGet url s e) attempts.
Proof.
  induction attempts as [|a rest IH]; [reflexivity|].
  simpl. destruct (a <? n - 1); simpl; now rewrite IH.
Qed.

Lemma sleeps_backoff (url : string) (s e n : Z) (attempts : list Z) :
  sleeps (backoff_schedule url s e n attempts)
  = map (fun a => RETRY_DELAY * 2 ^ a) (List.filter (fun a => a <? n - 1) attempts).
Proof.
  induction attempts as [|a rest IH]; [reflexivity|].
  simpl. destruct (a <? n - 1); simpl; now rewrite IH.
Qed.

Lemma filter_range_below (n : Z) :
  List.filter (fun a => a <? n - 1) (range n) = range (n - 1).
Proof.
  destruct (Z_le_gt_dec n 0) as [Hn|Hn].
  - unfold range. replace (Z.to_nat n) with 0%nat by lia.
    replace (Z.to_nat (n - 1)) with 0%nat by lia. reflexivity.
  - assert (range n = range (n - 1) ++ [n - 1]) as ->
      by (rewrite <- range_succ by lia; f_equal; lia).
    rewrite List.filter_app. simpl.
    replace (n - 1 <? n - 1) with false by lia. rewrite app_nil_r.
    apply forallb_filter_id. apply forallb_forall. intros x Hx.
    apply list_elem_of_In, elem_of_range in Hx. lia.
Qed.

End Fetcher.
End FetcherProps.

(* ===================================================================== *)
(** ** The phases of [download_with_resume] *)
(* ===================================================================== *)

Module PhaseProps.
Import Planner PlannerProps ChunkedDownloader Vocabulary FetcherProps.

Ltac unfold_action :=
  unfold mbind, action_bind, mret, action_ret, raise in *.

Lemma string_length_app (s1 s2 : string) :
  String.length (s1 +:+ s2) = (String.length s1 + String.length s2)%nat.
Proof. induction s1 as [|c s1 IH]; simpl; [reflexivity | now rewrite IH]. Qed.

Lemma temp_neq_dest (dest_path : path) : temp_path_of dest_path <> dest_path.
Proof.
  unfold temp_path_of. intros H. apply (f_equal String.length) in H.
  rewrite string_length_app in H. simpl in H. lia.
Qed.

Section Phases.
Variable sha256_hexdigest : bytes -> string.
Variable self : Downloader.

(** [download_with_resume] is its setup, its chunk loop and its tail. *)
Lemma download_with_resume_phases (url : string) (dest_path : path)
    (verify_hash : option string) (w : World) :
  download_with_resume sha256_hexdigest self url dest_path verify_hash w
  = match setup self url dest_path w with
    | (Raise e, w1) => (Raise e, w1)
    | (Return (file_info, metadata), w1) =>
        match run_chunks self dest_path file_info metadata w1 with
        | (ChunkFailed _, w2) => (Return false, w2)
        | (AllFetched _ _, w2) =>
            verify_and_publish sha256_hexdigest dest_path
              (meta_path_of dest_path) (temp_path_of dest_path) verify_hash w2
        end
    end.
Proof.
  unfold download_with_resume, setup, run_chunks. unfold_action.
  destruct (get_file_info self url w) as [[fi|e] w1]; [|reflexivity].
  destruct (load_metadata (meta_path_of dest_path) w1) as [[md|e] w2]; [|reflexivity].
  destruct (chunk_size self =? 0); [reflexivity|].
  destruct (open_temp _ _ w2) as [[[]|e] w3]; reflexivity.
Qed.

Lemma attempt_once_frame (url : string) (s e : Z) (w : World) a w1 :
  attempt_once self url s e w = (a, w1) ->
  files w1 = files w /\ ledgers w1 = ledgers w
  /\ trace w1 = trace w ++ [EvGet url s e]
  /\ requests w1 = S (requests w).
Proof.
  unfold attempt_once. intros H.
  assert (w1 = count_request (snd (emit (EvGet url s e) w))) as ->.
  { destruct (do_get _ _ _ _ _) as [status content|];
      [destruct (status =? 206); [|destruct (status =? 200);
         [|destruct (raises_for_status status)]]|];
      now injection H. }
  repeat split.
Qed.

Lemma attempt_once_got (url : string) (s e : Z) (w : World) content w1 :
  attempt_once self url s e w = (Got content, w1) ->
  do_get (session self) (requests w) url s e = Resp 206 content.
Proof.
  unfold attempt_once.
  destruct (do_get _ _ _ _ _) as [status c|]; [|discriminate].
  destruct (status =? 206) eqn:H206.
  - apply Z.eqb_eq in H206 as ->. intros H. now injection H as <- _.
  - destruct (status =? 200); [|destruct (raises_for_status status)];
      discriminate.
Qed.

Lemma fetch_events_net (url : string) (s e : Z) (net : list Event) :
  Forall (fetch_event url s e) net -> forallb net_event net = true.
Proof.
  intros H. apply forallb_forall. rewrite List.Forall_forall in H.
  intros ev Hev. destruct (H ev Hev) as [->|[d ->]]; reflexivity.
Qed.

(** The retry loop only talks to the network, about its own range, and
    returns nothing but the content of a 206 answer. *)
Lemma retry_loop_frame (url : string) (s e n : Z) (attempts : list Z) :
  forall (last : option Exn) (w : World) r w',
  retry_loop self attempts n url s e last w = (r, w') ->
  files w' = files w /\ ledgers w' = ledgers w
  /\ (exists delta, trace w' = trace w ++ delta
                    /\ Forall (fetch_event url s e) delta)
  /\ forall data, r = Return data ->
       exists t, do_get (session self) t url s e = Resp 206 data.
Proof.
  assert (fetch_event url s e (EvGet url s e)) as Hget by (left; reflexivity).
  induction attempts as [|a rest IH]; intros last w r w' H; simpl in H.
  - injection H as <- <-.
    split; [reflexivity|]; split; [reflexivity|]; split; [|discriminate].
    exists []. now rewrite app_nil_r.
  - destruct (attempt_once self url s e w) as [att w1] eqn:Hatt.
    pose proof Hatt as Hgot.
    apply attempt_once_frame in Hatt as (Hf1 & Hl1 & Ht1 & _).
    destruct att as [content|err|].
    + injection H as <- <-.
      split; [assumption|]; split; [assumption|]; split.
      * exists [EvGet url s e]. split; [assumption | now constructor].
      * intros data Hd. injection Hd as <-. apply attempt_once_got in Hgot. eauto.
    + apply IH in H as (Hf & Hl & (delta & Ht & Hd) & Hret).
      destruct (a <? n - 1); simpl in *.
      * rewrite Hf, Hl, Ht, Ht1, Hf1, Hl1. split; [reflexivity|]; split; [reflexivity|]; split; [|exact Hret].
        exists (EvGet url s e :: EvSleep (RETRY_DELAY * 2 ^ a) :: delta).
        rewrite <- !app_assoc. split; [reflexivity|].
        constructor; [exact Hget|].
        constructor; [right; eauto | exact Hd].
      * rewrite Hf, Hl, Ht, Ht1, Hf1, Hl1. split; [reflexivity|]; split; [reflexivity|]; split; [|exact Hret].
        exists (EvGet url s e :: delta).
        rewrite <- !app_assoc. split; [reflexivity | now constructor].
    + apply IH in H as (Hf & Hl & (delta & Ht & Hd) & Hret).
      rewrite Hf, Hl, Ht, Ht1, Hf1, Hl1. split; [reflexivity|]; split; [reflexivity|]; split; [|exact Hret].
      exists (EvGet url s e :: delta).
      rewrite <- !app_assoc. split; [reflexivity | now constructor].
Qed.

(** One pass through the [try] of the chunk loop. *)
Lemma fetch_and_record_step (final_url : string) (file_size : Z)
    (meta_path temp_path : path) (chunk_num : Z)
    (completed : gset Z) (metadata : Metadata) (w : World) r w' :
  fetch_and_record self final_url file_size meta_path temp_path chunk_num
                   completed metadata w = (r, w') ->
  FetchStep self final_url file_size meta_path temp_path chunk_num completed
            w r w'.
Proof.
  unfold fetch_and_record, download_chunk_with_retry. unfold_action.
  destruct (retry_loop _ _ _ _ _ _ _ w) as [[data|e] w1] eqn:Hretry;
    apply retry_loop_frame in Hretry as (Hf & Hl & (net & Ht & Hnet) & Hresp).
  2:{ intros H. injection H as <- <-. eapply StepRaised; eassumption. }
  specialize (Hresp data eq_refl).
  unfold write_chunk.
  destruct (start_byte (chunk_size self) chunk_num <? 0) eqn:Hneg.
  { intros H. injection H as <- <-. eapply StepRaised; eassumption. }
  apply Z.ltb_ge in Hneg. simpl.
  destruct (Z.of_nat (size ({[chunk_num]} ∪ completed)) mod 10 =? 0).
  - unfold save_metadata. simpl. intros H. injection H as <- <-.
    eapply (StepWritten _ _ _ _ _ _ _ _ data _ _ net [EvSave _ _]); simpl;
      try eassumption; try reflexivity.
    + rewrite Hf. reflexivity.
    + right. split; [reflexivity|]. now rewrite Hl.
    + rewrite Ht, <- !app_assoc. reflexivity.
  - intros H. injection H as <- <-.
    eapply (StepWritten _ _ _ _ _ _ _ _ data _ _ net []); simpl;
      try eassumption; try reflexivity.
    + rewrite Hf. reflexivity.
    + left. split; [reflexivity | exact Hl].
    + rewrite Ht, <- !app_assoc. reflexivity.
Qed.

(** The rename and the removal of the ledger, after an integrity check that
    passed or was skipped. *)
Lemma publish_tail (dest_path : path) (verify_hash : option string)
    (w w0 : World) (checked : list Event) (content : bytes) r w' :
  files w0 = files w -> ledgers w0 = ledgers w ->
  trace w0 = trace w ++ checked ->
  files w !! temp_path_of dest_path = Some content ->
  checked = (if truthy verify_hash
             then [EvHash (temp_path_of dest_path) (sha256_hexdigest content)]
             else []) ->
  (truthy verify_hash = true ->
   lower (sha256_hexdigest content) = lower (default ""%string verify_hash)) ->
  publish dest_path (meta_path_of dest_path) (temp_path_of dest_path) w0 = (r, w') ->
  Tail sha256_hexdigest dest_path verify_hash w r w'.
Proof.
  intros Hf Hl Ht Hc Hchecked Hmatch. unfold publish.
  rewrite Hf, Hc. simpl.
  destruct (ledgers w0 !! meta_path_of dest_path) as [m|] eqn:Hm.
  - intros H. injection H as <- <-.
    eapply TailPublished; try eassumption; simpl.
    + reflexivity.
    + right. rewrite <- Hl, Hm, Ht, <- !app_assoc. eauto.
  - intros H. injection H as <- <-.
    eapply TailPublished; try eassumption; simpl.
    + reflexivity.
    + left. rewrite <- Hl, Hm, Ht, <- !app_assoc. eauto.
Qed.

(** The tail of the download. *)
Lemma verify_and_publish_tail (dest_path : path) (verify_hash : option string)
    (w : World) r w' :
  verify_and_publish sha256_hexdigest dest_path (meta_path_of dest_path)
    (temp_path_of dest_path) verify_hash w = (r, w') ->
  Tail sha256_hexdigest dest_path verify_hash w r w'.
Proof.
  unfold verify_and_publish.
  destruct (truthy verify_hash) eqn:Htruthy.
  - unfold_action. unfold calculate_file_hash.
    destruct (files w !! temp_path_of dest_path) as [content|] eqn:Hc.
    2:{ intros H. injection H as <- <-. now apply TailNoTemp. }
    case_bool_decide as Heq.
    + apply (publish_tail dest_path verify_hash w _
               [EvHash (temp_path_of dest_path) (sha256_hexdigest content)] content);
        auto; now rewrite Htruthy.
    + intros H. injection H as <- <-. now apply TailRefused.
  - destruct (files w !! temp_path_of dest_path) as [content|] eqn:Hc.
    + apply (publish_tail dest_path verify_hash w _ [] content);
        rewrite ?Htruthy; auto; try discriminate.
      now rewrite app_nil_r.
    + unfold publish. rewrite Hc. intros H. injection H as <- <-.
      now apply TailNoTemp.
Qed.

(** Every run of [download_with_resume] is of one of three shapes. *)
Lemma download_with_resume_run (url : string) (dest_path : path)
    (verify_hash : option string) (w : World) r w' :
  download_with_resume sha256_hexdigest self url dest_path verify_hash w = (r, w') ->
  Run sha256_hexdigest self url dest_path verify_hash w r w'.
Proof.
  rewrite download_with_resume_phases.
  destruct (setup self url dest_path w) as [[[fi md]|e] w1] eqn:Hsetup.
  2:{ intros H. injection H as <- <-. now apply RunSetupRaised. }
  destruct (run_chunks self dest_path fi md w1) as [[cc md'|e] w2] eqn:Hloop.
  - intros H. apply verify_and_publish_tail in H.
    eapply RunTail; eassumption.
  - intros H. injection H as <- <-. eapply RunChunkFailed; eassumption.
Qed.

Lemma get_file_info_spec (url : string) (w : World) r w1 :
  get_file_info self url w = (r, w1) ->
  files w1 = files w /\ ledgers w1 = ledgers w
  /\ trace w1 = trace w ++ [EvHead url].
Proof.
  unfold get_file_info. intros H.
  assert (w1 = count_request (snd (emit (EvHead url) w))) as ->.
  { destruct (do_head _ _ _) as [hr|];
      [destruct (raises_for_status (hr_status hr))|]; now injection H. }
  repeat split.
Qed.

Lemma load_metadata_spec (meta_path : path) (w : World) r w1 :
  load_metadata meta_path w = (r, w1) ->
  w1 = w
  /\ forall metadata, r = Return metadata ->
       completed_list metadata = loaded_chunks w meta_path.
Proof.
  unfold load_metadata, loaded_chunks. intros H.
  destruct (ledgers w !! meta_path) as [[m|]|]; injection H as <- <-;
    (split; [reflexivity|]); intros md Hmd;
    [injection Hmd as <- | discriminate | injection Hmd as <-]; reflexivity.
Qed.

Lemma open_temp_spec (temp_path : path) (file_size : Z) (w : World) r w1 :
  open_temp temp_path file_size w = (r, w1) ->
  ledgers w1 = ledgers w
  /\ (forall p, p <> temp_path -> files w1 !! p = files w !! p)
  /\ is_Some (files w1 !! temp_path)
  /\ exists evs, trace w1 = trace w ++ evs /\ forallb setup_event evs = true.
Proof.
  unfold open_temp. intros H.
  destruct (files w !! temp_path) as [content|] eqn:Hc.
  - injection H as <- <-. simpl. rewrite Hc. split_and!; eauto.
  - destruct (file_size - 1 <? 0); injection H as <- <-; simpl.
    + rewrite lookup_insert_eq. split_and!; eauto.
      intros p Hp. now apply lookup_insert_ne.
    + rewrite lookup_insert_eq. split_and!; eauto.
      * intros p Hp. now rewrite !lookup_insert_ne by congruence.
      * eexists. rewrite <- app_assoc. split; reflexivity.
Qed.

(** The setup touches the temporary file only and leaves it in place. *)
Lemma setup_spec (url : string) (dest_path : path) (w : World) r w1 :
  setup self url dest_path w = (r, w1) ->
  ledgers w1 = ledgers w
  /\ (forall p, p <> temp_path_of dest_path -> files w1 !! p = files w !! p)
  /\ (exists evs, trace w1 = trace w ++ evs /\ forallb setup_event evs = true)
  /\ forall file_info metadata, r = Return (file_info, metadata) ->
       is_Some (files w1 !! temp_path_of dest_path)
       /\ completed_list metadata = loaded_chunks w (meta_path_of dest_path)
       /\ chunk_size self <> 0.
Proof.
  unfold setup. unfold_action. intros H.
  destruct (get_file_info self url w) as [[fi|e] wa] eqn:Hprobe;
    apply get_file_info_spec in Hprobe as (Hfa & Hla & Hta).
  2:{ injection H as <- <-. rewrite Hfa, Hla, Hta.
      split_and!; eauto; discriminate. }
  destruct (load_metadata (meta_path_of dest_path) wa) as [[md|e] wb] eqn:Hload;
    apply load_metadata_spec in Hload as (-> & Hlist).
  2:{ injection H as <- <-. rewrite Hfa, Hla, Hta.
      split_and!; eauto; discriminate. }
  destruct (chunk_size self =? 0) eqn:Hcs.
  { injection H as <- <-. rewrite Hfa, Hla, Hta.
    split_and!; eauto; discriminate. }
  apply Z.eqb_neq in Hcs.
  destruct (open_temp _ _ wa) as [[[]|e] wc] eqn:Hopen;
    apply open_temp_spec in Hopen as (Hlc & Hfc & Hsome & evs & Htc & Hevs);
    injection H as <- <-; rewrite Hlc, Hla, Htc, Hta, <- app_assoc.
  - split_and!; eauto.
    + intros p Hp. rewrite Hfc, Hfa; auto.
    + intros fi' md' Hr. injection Hr as <- <-. split_and!; auto.
      transitivity (completed_list md); [reflexivity|].
      rewrite (Hlist md eq_refl). unfold loaded_chunks. now rewrite Hla.
  - split_and!; eauto; [|discriminate].
    intros p Hp. rewrite Hfc, Hfa; auto.
Qed.

End Phases.
End PhaseProps.

Module LedgerProps.
Import Planner PlannerProps ChunkedDownloader Vocabulary FetcherProps PhaseProps.

Section Ledger.
Variable self : Downloader.
Variables meta_path temp_path : path.
Variable loaded : gset Z.

Lemma flushed_before_mono (evs more : list Event) (k k' : nat) (offset : Z) :
  (k <= k')%nat ->
  flushed_before temp_path evs k offset ->
  flushed_before temp_path (evs ++ more) k' offset.
Proof.
  intros Hk (j & data & Hj & Hw & Hf). exists j, data.
  split; [lia|]. split; apply lookup_app_l_Some; assumption.
Qed.

Lemma net_event_lookup (net : list Event) (k : nat) (ev : Event) :
  forallb net_event net = true -> net !! k = Some ev -> net_event ev = true.
Proof.
  intros Hall Hk. rewrite forallb_forall in Hall. apply Hall.
  apply list_elem_of_In. eapply list_elem_of_lookup_2. exact Hk.
Qed.

(** A chunk written, flushed and marked keeps the invariant, with or
    without the save that may follow. *)
Lemma inv_after_write (completed : gset Z) (metadata metadata' : Metadata)
    (evs net saved : list Event) (chunk_num : Z) (data : bytes) :
  LoopInv self meta_path temp_path loaded completed metadata evs ->
  forallb net_event net = true ->
  completed_list metadata' = elements ({[chunk_num]} ∪ completed) ->
  saved = [] \/ saved = [EvSave meta_path metadata'] ->
  LoopInv self meta_path temp_path loaded ({[chunk_num]} ∪ completed) metadata'
    (evs ++ net
         ++ [EvWrite temp_path (start_byte (chunk_size self) chunk_num) data;
             EvFlush temp_path] ++ saved).
Proof.
  intros [HA HE HB HC HD] Hnet Hlist Hsaved.
  set (W := EvWrite temp_path (start_byte (chunk_size self) chunk_num) data).
  set (evs' := evs ++ net ++ [W; EvFlush temp_path] ++ saved).
  assert (evs' !! (length evs + length net)%nat = Some W) as HW.
  { subst evs'. rewrite lookup_app_r by lia.
    replace (length evs + length net - length evs)%nat with (length net + 0)%nat by lia.
    rewrite lookup_app_r by lia.
    replace (length net + 0 - length net)%nat with 0%nat by lia. reflexivity. }
  assert (evs' !! S (length evs + length net)%nat = Some (EvFlush temp_path)) as HF.
  { subst evs'. rewrite lookup_app_r by lia.
    replace (S (length evs + length net) - length evs)%nat with (length net + 1)%nat by lia.
    rewrite lookup_app_r by lia.
    replace (length net + 1 - length net)%nat with 1%nat by lia. reflexivity. }
  assert (forall i k, i ∈ ({[chunk_num]} ∪ completed : gset Z) ->
            (length evs + length net + 2 <= k)%nat ->
            i ∈ loaded
            \/ flushed_before temp_path evs' k (start_byte (chunk_size self) i)) as HB'.
  { intros i k Hi Hk. apply elem_of_union in Hi as [Hi|Hi].
    - apply elem_of_singleton in Hi as ->. right.
      exists (length evs + length net)%nat, data. split; [lia|]. split; assumption.
    - destruct (HB i Hi) as [?|Hfl]; [left; assumption|].
      right. apply (flushed_before_mono evs _ (length evs) k); [lia | exact Hfl]. }
  constructor.
  - intros i. rewrite Hlist, elem_of_elements. reflexivity.
  - intros x Hx. apply elem_of_union. right. apply HE, Hx.
  - intros i Hi. apply HB'; [exact Hi|].
    subst evs'. rewrite !length_app. simpl. lia.
  - intros k p offset data' Hk. subst evs'.
    apply lookup_app_Some in Hk as [Hk|[Hlen Hk]].
    { destruct (HC _ _ _ _ Hk) as [-> (i & Hi & ->)].
      split; [reflexivity|]. exists i.
      split; [apply elem_of_union; right; exact Hi | reflexivity]. }
    apply lookup_app_Some in Hk as [Hk|[Hlen2 Hk]].
    { apply (net_event_lookup _ _ _ Hnet) in Hk. discriminate. }
    destruct (k - length evs - length net)%nat as [|[|k'']].
    + injection Hk as <- <- <-. split; [reflexivity|].
      exists chunk_num.
      split; [apply elem_of_union; left; now apply elem_of_singleton | reflexivity].
    + discriminate.
    + simpl in Hk. destruct Hsaved as [->| ->]; [discriminate|].
      destruct k''; discriminate.
  - intros k p m Hk. subst evs'.
    apply lookup_app_Some in Hk as [Hk|[Hlen Hk]].
    { destruct (HD _ _ _ Hk) as [-> Hm]. split; [reflexivity|].
      intros i Hi. destruct (Hm i Hi) as [?|Hfl]; [left; assumption|].
      right. apply (flushed_before_mono evs _ k k); [lia | exact Hfl]. }
    apply lookup_app_Some in Hk as [Hk|[Hlen2 Hk]].
    { apply (net_event_lookup _ _ _ Hnet) in Hk. discriminate. }
    destruct (k - length evs - length net)%nat as [|[|k'']] eqn:Hpos;
      [discriminate | discriminate |].
    simpl in Hk. destruct Hsaved as [->| ->]; [discriminate|].
    destruct k''; [|discriminate]. injection Hk as <- <-.
    split; [reflexivity|]. intros i Hi.
    rewrite Hlist, elem_of_elements in Hi. apply HB'; [exact Hi | lia].
Qed.

(** A failed chunk followed by the save of the [except] branch keeps the
    invariant too. *)
Lemma inv_after_failure (completed : gset Z) (metadata saved : Metadata)
    (evs net : list Event) :
  LoopInv self meta_path temp_path loaded completed metadata evs ->
  forallb net_event net = true ->
  completed_list saved = completed_list metadata ->
  LoopInv self meta_path temp_path loaded completed saved
    (evs ++ net ++ [EvSave meta_path saved]).
Proof.
  intros [HA HE HB HC HD] Hnet Hlist. constructor.
  - intros i. rewrite Hlist. apply HA.
  - exact HE.
  - intros i Hi. destruct (HB i Hi) as [?|Hfl]; [left; assumption|].
    right. eapply flushed_before_mono; [|exact Hfl].
    rewrite !length_app. lia.
  - intros k p offset data Hk.
    apply lookup_app_Some in Hk as [Hk|[Hlen Hk]]; [exact (HC _ _ _ _ Hk)|].
    apply lookup_app_Some in Hk as [Hk|[Hlen2 Hk]].
    { apply (net_event_lookup _ _ _ Hnet) in Hk. discriminate. }
    destruct (k - length evs - length net)%nat as [|k'']; [discriminate|].
    destruct k''; discriminate.
  - intros k p m Hk.
    apply lookup_app_Some in Hk as [Hk|[Hlen Hk]].
    { destruct (HD _ _ _ Hk) as [-> Hm]. split; [reflexivity|].
      intros i Hi. destruct (Hm i Hi) as [?|Hfl]; [left; assumption|].
      right. apply (flushed_before_mono evs _ k k); [lia | exact Hfl]. }
    apply lookup_app_Some in Hk as [Hk|[Hlen2 Hk]].
    { apply (net_event_lookup _ _ _ Hnet) in Hk. discriminate. }
    destruct (k - length evs - length net)%nat as [|k''] eqn:Hpos;
      [|destruct k''; discriminate].
    injection Hk as <- <-. split; [reflexivity|]. intros i Hi.
    rewrite Hlist in Hi. apply HA in Hi.
    destruct (HB i Hi) as [?|Hfl]; [left; assumption|].
    right. apply (flushed_before_mono evs _ (length evs) k); [lia | exact Hfl].
Qed.

(** The chunk loop keeps the invariant; when it ends in the [except]
    branch, the last thing it did was to save the ledger it holds. *)
Lemma chunk_loop_inv (final_url : string) (file_size : Z) (ordinals : list Z) :
  forall (completed : gset Z) (metadata : Metadata) (w : World) res w'
         (before evs : list Event),
  chunk_loop self final_url file_size meta_path temp_path ordinals
             completed metadata w = (res, w') ->
  trace w = before ++ evs ->
  LoopInv self meta_path temp_path loaded completed metadata evs ->
  exists evs' completed' metadata',
    trace w' = before ++ evs'
    /\ LoopInv self meta_path temp_path loaded completed' metadata' evs'
    /\ (res = AllFetched completed' metadata'
        \/ (exists e, res = ChunkFailed e)
           /\ ledgers w' !! meta_path = Some (ValidJson metadata')
           /\ exists evs1, evs' = evs1 ++ [EvSave meta_path metadata']).
Proof.
  induction ordinals as [|chunk_num rest IH];
    intros completed metadata w res w' before evs Hrun Ht Hinv; simpl in Hrun.
  - injection Hrun as <- <-. exists evs, completed, metadata. auto.
  - destruct (decide (chunk_num ∈ completed)); [eapply IH; eassumption|].
    destruct (fetch_and_record _ _ _ _ _ _ _ _ w) as [r w1] eqn:Hstep.
    apply fetch_and_record_step in Hstep.
    destruct Hstep as [e w1 net Hf Hl Ht1 Hnet
                      |data metadata1 w1 net saved Hnet _ Hpos Hf Hlist Hsaved Ht1];
      apply fetch_events_net in Hnet.
    + injection Hrun as <- <-. unfold save_metadata. simpl.
      eexists (evs ++ net ++ [EvSave meta_path _]), completed, _.
      split; [rewrite Ht1, Ht, <- !app_assoc; reflexivity|].
      split; [apply (inv_after_failure _ metadata); auto|].
      right. split; [eauto|]. split; [apply lookup_insert_eq|].
      exists (evs ++ net). now rewrite <- app_assoc.
    + eapply IH; [exact Hrun | |].
      * rewrite Ht1, Ht, <- !app_assoc. reflexivity.
      * apply (inv_after_write _ metadata); auto. tauto.
Qed.

Lemma net_events_loop_events (net : list Event) :
  forallb net_event net = true -> forallb loop_event net = true.
Proof.
  rewrite !forallb_forall. intros H ev Hev. specialize (H ev Hev).
  destruct ev; try discriminate; reflexivity.
Qed.

Lemma loop_frame_refl (w : World) : loop_frame meta_path temp_path w w.
Proof.
  unfold loop_frame. split_and!; auto. exists []. now rewrite app_nil_r.
Qed.

Lemma loop_frame_trans (w1 w2 w3 : World) :
  loop_frame meta_path temp_path w1 w2 ->
  loop_frame meta_path temp_path w2 w3 ->
  loop_frame meta_path temp_path w1 w3.
Proof.
  intros (Hf1 & Hl1 & Ht1 & Hm1 & d1 & He1 & Hd1)
         (Hf2 & Hl2 & Ht2 & Hm2 & d2 & He2 & Hd2).
  unfold loop_frame. split_and!.
  - intros p Hp. rewrite Hf2, Hf1; auto.
  - intros p Hp. rewrite Hl2, Hl1; auto.
  - auto.
  - auto.
  - exists (d1 ++ d2). rewrite He2, He1, <- app_assoc.
    split; [reflexivity|]. rewrite forallb_app, Hd1, Hd2. reflexivity.
Qed.

Lemma fetch_step_frame (final_url : string) (file_size : Z) (chunk_num : Z)
    (completed : gset Z) (w : World) r w' :
  FetchStep self final_url file_size meta_path temp_path chunk_num completed
            w r w' ->
  loop_frame meta_path temp_path w w'.
Proof.
  intros [e w1 net Hf Hl Ht Hnet
         |data metadata1 w1 net saved Hnet _ Hpos Hf Hlist Hsaved Ht];
    apply fetch_events_net in Hnet; unfold loop_frame.
  - rewrite Hf, Hl. split_and!; auto.
    exists net. split; [exact Ht | now apply net_events_loop_events].
  - split_and!.
    + intros p Hp. rewrite Hf. now apply lookup_insert_ne.
    + intros p Hp. destruct Hsaved as [[_ ->]|[_ ->]]; [reflexivity|].
      now apply lookup_insert_ne.
    + intros _. rewrite Hf, lookup_insert_eq. eauto.
    + intros Hsome. destruct Hsaved as [[_ ->]|[_ ->]]; [exact Hsome|].
      rewrite lookup_insert_eq. eauto.
    + eexists. split; [exact Ht|]. rewrite !forallb_app.
      rewrite (net_events_loop_events _ Hnet).
      destruct Hsaved as [[-> _]|[-> _]]; reflexivity.
Qed.

Lemma save_metadata_frame (metadata : Metadata) (w : World) :
  loop_frame meta_path temp_path w (snd (save_metadata meta_path metadata w)).
Proof.
  unfold loop_frame, save_metadata. simpl. split_and!; auto.
  - intros p Hp. now apply lookup_insert_ne.
  - intros _. rewrite lookup_insert_eq. eauto.
  - eexists. split; reflexivity.
Qed.

Lemma chunk_loop_frame (final_url : string) (file_size : Z) (ordinals : list Z) :
  forall (completed : gset Z) (metadata : Metadata) (w : World) res w',
  chunk_loop self final_url file_size meta_path temp_path ordinals
             completed metadata w = (res, w') ->
  loop_frame meta_path temp_path w w'.
Proof.
  induction ordinals as [|chunk_num rest IH];
    intros completed metadata w res w' Hrun; simpl in Hrun.
  - injection Hrun as <- <-. apply loop_frame_refl.
  - destruct (decide (chunk_num ∈ completed)); [eapply IH; eassumption|].
    destruct (fetch_and_record _ _ _ _ _ _ _ _ w) as [r w1] eqn:Hstep.
    apply fetch_and_record_step, fetch_step_frame in Hstep.
    destruct r as [[completed1 metadata1]|e].
    + eapply loop_frame_trans; [exact Hstep | eapply IH; exact Hrun].
    + injection Hrun as <- <-.
      eapply loop_frame_trans; [exact Hstep | apply save_metadata_frame].
Qed.

End Ledger.
End LedgerProps.

Module RunProps.
Import Planner PlannerProps ChunkedDownloader Vocabulary FetcherProps PhaseProps
       LedgerProps.

Section Runs.
Variable sha256_hexdigest : bytes -> string.
Variable self : Downloader.

Lemma setup_events_inv (dest_path : path) (completed : gset Z)
    (metadata : Metadata) (evs : list Event) :
  forallb setup_event evs = true ->
  (forall i, i ∈ completed <-> i ∈ completed_list metadata) ->
  LoopInv self (meta_path_of dest_path) (temp_path_of dest_path)
          completed completed metadata evs.
Proof.
  intros Hevs Hlist. rewrite forallb_forall in Hevs.
  assert (forall k ev, evs !! k = Some ev -> setup_event ev = true) as Hk.
  { intros k ev H. apply Hevs, list_elem_of_In.
    eapply list_elem_of_lookup_2, H. }
  constructor; auto.
  - intros k p offset data H. apply Hk in H. discriminate.
  - intros k p m H. apply Hk in H. discriminate.
Qed.

Lemma forallb_weaken {A : Type} (P Q : A -> bool) (l : list A) :
  (forall x, P x = true -> Q x = true) ->
  forallb P l = true -> forallb Q l = true.
Proof. rewrite !forallb_forall. auto. Qed.

(** Setup and chunk loop together: what they leave alone, and the
    invariant at the end of the loop. *)
Lemma assemble_spec (url : string) (dest_path : path) (w : World)
    file_info metadata w1 res w2 :
  setup self url dest_path w = (Return (file_info, metadata), w1) ->
  run_chunks self dest_path file_info metadata w1 = (res, w2) ->
  (forall p, p <> temp_path_of dest_path -> files w2 !! p = files w !! p)
  /\ (forall p, p <> meta_path_of dest_path -> ledgers w2 !! p = ledgers w !! p)
  /\ is_Some (files w2 !! temp_path_of dest_path)
  /\ (is_Some (ledgers w !! meta_path_of dest_path) ->
      is_Some (ledgers w2 !! meta_path_of dest_path))
  /\ exists evs completed' metadata',
       trace w2 = trace w ++ evs
       /\ forallb assembling_event evs = true
       /\ LoopInv self (meta_path_of dest_path) (temp_path_of dest_path)
            (list_to_set (loaded_chunks w (meta_path_of dest_path)))
            completed' metadata' evs
       /\ (res = AllFetched completed' metadata'
           \/ (exists e, res = ChunkFailed e)
              /\ ledgers w2 !! meta_path_of dest_path = Some (ValidJson metadata')
              /\ exists evs1, evs = evs1 ++ [EvSave (meta_path_of dest_path) metadata']).
Proof.
  intros Hsetup Hloop.
  apply setup_spec in Hsetup as (Hl1 & Hf1 & (evs0 & Ht1 & Hevs0) & Hret).
  destruct (Hret _ _ eq_refl) as (Hsome & Hlist & Hcs).
  pose proof Hloop as Hframe. unfold run_chunks in Hframe.
  apply chunk_loop_frame in Hframe as (Hf2 & Hl2 & Hs2 & Hm2 & more & Ht2 & Hmore).
  unfold run_chunks in Hloop.
  eapply (chunk_loop_inv self _ _
            (list_to_set (loaded_chunks w (meta_path_of dest_path)))) in Hloop
    as (evs' & completed' & metadata' & Ht' & Hinv & Hres); [|exact Ht1|].
  2:{ rewrite Hlist. apply setup_events_inv; [exact Hevs0|].
      intros i. rewrite <- Hlist. apply elem_of_list_to_set. }
  split_and!.
  - intros p Hp. rewrite Hf2, Hf1; auto.
  - intros p Hp. rewrite Hl2, Hl1; auto.
  - auto.
  - rewrite <- Hl1. exact Hm2.
  - exists evs', completed', metadata'. split_and!; auto.
    assert (evs' = evs0 ++ more) as ->.
    { rewrite Ht2, Ht1, <- app_assoc in Ht'. now apply app_inv_head in Ht'. }
    rewrite forallb_app. apply andb_true_intro. split.
    + eapply forallb_weaken; [|exact Hevs0].
      intros ev Hev. unfold assembling_event. now rewrite Hev.
    + eapply forallb_weaken; [|exact Hmore].
      intros ev Hev. unfold assembling_event. rewrite Hev. apply orb_true_r.
Qed.

Lemma assembling_lookup (evs : list Event) (ev : Event) :
  forallb assembling_event evs = true -> ev ∈ evs -> assembling_event ev = true.
Proof.
  rewrite forallb_forall. intros H Hev. now apply H, list_elem_of_In.
Qed.

End Runs.

Lemma tail_events (sha256_hexdigest : bytes -> string) (dest_path : path)
    (verify_hash : option string) (w : World) r w' :
  Tail sha256_hexdigest dest_path verify_hash w r w' ->
  exists evs, trace w' = trace w ++ evs /\ forallb publish_event evs = true.
Proof.
  intros [Hnone|content Hc Htr Hbad|content checked r' w3 Hc -> Hm Hf Hend].
  - exists []. now rewrite app_nil_r.
  - eexists. split; reflexivity.
  - destruct Hend as [(_ & _ & _ & ->)|(_ & _ & _ & ->)];
      eexists; (split; [reflexivity|]); destruct (truthy verify_hash); reflexivity.
Qed.




Lemma hash_not_assembling (evs : list Event) (p : path) (d : string) :
  forallb assembling_event evs = true -> EvHash p d ∉ evs.
Proof. intros H Hin. apply (assembling_lookup _ _ H) in Hin. discriminate. Qed.

Lemma rename_not_assembling (evs : list Event) (s t : path) :
  forallb assembling_event evs = true -> EvRename s t ∉ evs.
Proof. intros H Hin. apply (assembling_lookup _ _ H) in Hin. discriminate. Qed.


(** A download that returns [False] without having hashed anything went
    through the [except] branch of the chunk loop. *)
Lemma false_without_hash (sha256_hexdigest : bytes -> string) (self : Downloader)
    (url : string) (dest_path : path) (verify_hash : option string)
    (w : World) r w' :
  download_with_resume sha256_hexdigest self url dest_path verify_hash w
  = (r, w') ->
  r = Return false ->
  (forall p d, EvHash p d ∉ added w w') ->
  exists file_info metadata w1 e,
    setup self url dest_path w = (Return (file_info, metadata), w1)
    /\ run_chunks self dest_path file_info metadata w1 = (ChunkFailed e, w').
Proof.
  intros Hrun Hr Hnohash.
  apply download_with_resume_run in Hrun.
  destruct Hrun as [e w1 Hsetup
                   |fi md w1 e w2 Hsetup Hloop
                   |fi md w1 cc md' w2 r w3 Hsetup Hloop Htail].
  - discriminate.
  - exists fi, md, w1, e. split; assumption.
  - exfalso.
    destruct (assemble_spec self url dest_path w _ _ _ _ _ Hsetup Hloop)
      as (_ & _ & _ & _ & evs & _ & _ & Ht & _ & _ & _).
    destruct Htail as [Hnone
                      |content Hc _ Hbad
                      |content checked r w3 Hc Hchecked Hmatch Hf3 Hend].
    + discriminate.
    + apply (Hnohash (temp_path_of dest_path) (sha256_hexdigest content)).
      assert (trace (snd (emit (EvHash (temp_path_of dest_path)
                                   (sha256_hexdigest content)) w2))
              = trace w ++ evs ++ [EvHash (temp_path_of dest_path)
                                     (sha256_hexdigest content)]) as Ht3
        by (simpl; rewrite Ht, <- app_assoc; reflexivity).
      rewrite (added_app _ _ _ Ht3). apply elem_of_app. right.
      now apply list_elem_of_singleton.
    + destruct Hend as [(_ & -> & _)|(_ & -> & _)]; discriminate.
Qed.

End RunProps.

Module ScenarioProps.
Import Planner PlannerProps ChunkedDownloader Vocabulary Scenarios.

Lemma origin_serves : serves origin URL URL resource.
Proof.
  split.
  - intros t. eexists. repeat split.
  - intros t s e _ _. reflexivity.
Defined.

Lemma resumable_world_ok : resumable (init (Some 4) origin) DEST resource resumable_world.
Proof.
  split; [eexists; reflexivity|].
  eexists. split; [reflexivity|]. split; [reflexivity|].
  intros k Hk.
  do 8 (destruct k as [|k]; [reflexivity|]).
  exfalso. apply elem_of_list_to_set in Hk.
  assert (2 <= Z.of_nat (S (S (S (S (S (S (S (S k)))))))) / 4)
    by (apply Z.div_le_lower_bound; lia).
  assert (loaded_chunks resumable_world (meta_path_of DEST) = [0; 1]) as Hl
    by (vm_compute; reflexivity).
  rewrite Hl in Hk. change (chunk_size (init (Some 4) origin)) with 4 in Hk.
  apply elem_of_cons in Hk as [Hk|Hk]; [lia|].
  apply list_elem_of_singleton in Hk. lia.
Defined.

Lemma empty_world_fresh : fresh DEST empty_world.
Proof. split; reflexivity. Defined.

End ScenarioProps.

(* ===================================================================== *)
(** ** Integrity check *)
(* ===================================================================== *)

Module IntegrityClaims.
Import Planner PlannerProps ChunkedDownloader Vocabulary FetcherProps PhaseProps
       LedgerProps RunProps Scenarios.



End IntegrityClaims.

(* ===================================================================== *)
(** ** Progress ledger *)
(* ===================================================================== *)

Module LedgerClaims.
Import Planner PlannerProps ChunkedDownloader Vocabulary FetcherProps PhaseProps
       LedgerProps RunProps Scenarios.



(** C10.  When [download_with_resume] returns [False] because a chunk could
    not be fetched (it returned [False] without ever reaching the integrity
    check), the last thing it did was to save the ledger, and the ledger
    file now on disk records every ordinal whose chunk was written in this
    run, as well as every ordinal the ledger recorded at the start. *)
Theorem failure_saves_ledger
    (sha256_hexdigest : bytes -> string) (self : Downloader)
    (url : string) (dest_path : path) (verify_hash : option string)
    (w : World) r w' :
  download_with_resume sha256_hexdigest self url dest_path verify_hash w
  = (r, w') ->
  r = Return false ->
  (forall p d, EvHash p d ∉ added w w') ->
  exists m : Metadata,
    ledgers w' !! meta_path_of dest_path = Some (ValidJson m)
    /\ last (added w w') = Some (EvSave (meta_path_of dest_path) m)
    /\ (forall k p offset data,
          added w w' !! k = Some (EvWrite p offset data) ->
          p = temp_path_of dest_path
          /\ exists i, i ∈ completed_list m
                       /\ offset = start_byte (chunk_size self) i)
    /\ (forall i, i ∈ loaded_chunks w (meta_path_of dest_path) ->
                  i ∈ completed_list m).
Proof.
  intros Hrun Hr Hnohash.
  apply download_with_resume_run in Hrun.
  destruct Hrun as [e w1 Hsetup
                   |fi md w1 e w2 Hsetup Hloop
                   |fi md w1 cc md' w2 r w3 Hsetup Hloop Htail].
  - discriminate.
  - destruct (assemble_spec self url dest_path w _ _ _ _ _ Hsetup Hloop)
      as (_ & _ & _ & _ & evs & cc' & md' & Ht & _ & Hinv & Hres).
    destruct Hres as [Hres|(_ & Hledger & evs1 & Hlast)]; [discriminate|].
    rewrite (added_app _ _ _ Ht). exists md'. split_and!.
    + exact Hledger.
    + rewrite Hlast. apply last_snoc.
    + intros k p offset data Hk.
      destruct (inv_writes _ _ _ _ _ _ _ Hinv _ _ _ _ Hk) as [-> (i & Hi & ->)].
      split; [reflexivity|]. exists i. split; [|reflexivity].
      now apply (inv_list _ _ _ _ _ _ _ Hinv).
    + intros i Hi. apply (inv_list _ _ _ _ _ _ _ Hinv).
      apply (inv_loaded _ _ _ _ _ _ _ Hinv). now apply elem_of_list_to_set.
  - exfalso.
    destruct (assemble_spec self url dest_path w _ _ _ _ _ Hsetup Hloop)
      as (_ & _ & _ & _ & evs & _ & _ & Ht & _ & _ & _).
    destruct Htail as [Hnone
                      |content Hc _ Hbad
                      |content checked r w3 Hc Hchecked Hmatch Hf3 Hend].
    + discriminate.
    + apply (Hnohash (temp_path_of dest_path) (sha256_hexdigest content)).
      assert (trace (snd (emit (EvHash (temp_path_of dest_path)
                                   (sha256_hexdigest content)) w2))
              = trace w ++ evs ++ [EvHash (temp_path_of dest_path)
                                     (sha256_hexdigest content)]) as Ht3
        by (simpl; rewrite Ht, <- app_assoc; reflexivity).
      rewrite (added_app _ _ _ Ht3). apply elem_of_app. right.
      now apply list_elem_of_singleton.
    + destruct Hend as [(_ & -> & _)|(_ & -> & _)]; discriminate.
Qed.

(** The theorem on the same interrupted download: it returns [False], and
    the ledger on disk records the chunk written at offset 0. *)
Lemma failure_saves_ledger_witness :
  fst (download_with_resume toy_digest (init (Some 4) interrupted) URL DEST
         None empty_world) = Return false
  /\ exists m,
       ledgers (snd (download_with_resume toy_digest (init (Some 4) interrupted)
                       URL DEST None empty_world)) !! meta_path_of DEST
       = Some (ValidJson m)
       /\ exists i, i ∈ completed_list m /\ 0 = start_byte 4 i.
Proof.
  assert (fst (download_with_resume toy_digest (init (Some 4) interrupted) URL DEST
                 None empty_world) = Return false) as Hr by (vm_compute; reflexivity).
  split; [exact Hr|].
  destruct (failure_saves_ledger toy_digest (init (Some 4) interrupted) URL DEST
              None empty_world _ _ (surjective_pairing _) Hr)
    as (m & Hledger & _ & Hwrites & _).
  - intros p d Hin. apply list_elem_of_In in Hin. vm_compute in Hin.
    intuition discriminate.
  - exists m. split; [exact Hledger|].
    apply (Hwrites 4%nat (temp_path_of DEST) 0 [1; 2; 3; 4]).
    vm_compute. reflexivity.
Defined.

End LedgerClaims.

(* ===================================================================== *)
(** ** Retry policy *)
(* ===================================================================== *)

Module RetryProps.
Import Planner PlannerProps ChunkedDownloader Vocabulary FetcherProps PhaseProps
       LedgerProps RunProps.

Section Retry.
Variable sha256_hexdigest : bytes -> string.
Variable self : Downloader.

Lemma get_in_fetch_events (url : string) (s e : Z) (net : list Event) u s' e' :
  Forall (fetch_event url s e) net -> EvGet u s' e' ∈ net ->
  u = url /\ s' = s /\ e' = e.
Proof.
  intros H Hin. rewrite List.Forall_forall in H.
  apply list_elem_of_In, H in Hin. destruct Hin as [Heq|[d Heq]];
    [injection Heq as -> -> ->; auto | discriminate].
Qed.

(** In a chunk loop that ran to its end, every ranged request that was
    issued got, at some attempt, a 206 answer; and whatever was written is
    the content of a 206 answer. *)
Lemma chunk_loop_gets (final_url : string) (file_size : Z)
    (meta_path temp_path : path) (ordinals : list Z) :
  forall (completed : gset Z) (metadata : Metadata) (w : World) res w',
  chunk_loop self final_url file_size meta_path temp_path ordinals
             completed metadata w = (res, w') ->
  exists evs, trace w' = trace w ++ evs
    /\ (forall completed' metadata', res = AllFetched completed' metadata' ->
        forall u s e, EvGet u s e ∈ evs ->
        exists t data, do_get (session self) t u s e = Resp 206 data)
    /\ (forall p offset data, EvWrite p offset data ∈ evs ->
        exists t s e, do_get (session self) t final_url s e = Resp 206 data).
Proof.
  induction ordinals as [|chunk_num rest IH];
    intros completed metadata w res w' Hrun; simpl in Hrun.
  - injection Hrun as <- <-. exists []. rewrite app_nil_r.
    split; [reflexivity|]. split.
    + intros _ _ _ u s e Hin. now apply elem_of_nil in Hin.
    + intros p offset data Hin. now apply elem_of_nil in Hin.
  - destruct (decide (chunk_num ∈ completed)); [eapply IH; eassumption|].
    destruct (fetch_and_record _ _ _ _ _ _ _ _ w) as [r w1] eqn:Hstep.
    apply fetch_and_record_step in Hstep.
    destruct Hstep as [e w1 net Hf Hl Ht1 Hnet
                      |data metadata1 w1 net saved Hnet Hresp Hpos Hf Hlist Hsaved Ht1].
    + injection Hrun as <- <-. unfold save_metadata. simpl.
      eexists. rewrite Ht1, <- app_assoc. split; [reflexivity|].
      split; [discriminate|].
      intros p offset data Hin. exfalso.
      rewrite elem_of_app in Hin. destruct Hin as [Hin|Hin].
      * apply fetch_events_net in Hnet. rewrite forallb_forall in Hnet.
        apply list_elem_of_In, Hnet in Hin. discriminate.
      * apply list_elem_of_singleton in Hin. discriminate.
    + apply IH in Hrun as (evs & Ht & Hgets & Hwrites).
      eexists. rewrite Ht, Ht1, <- !app_assoc. split; [reflexivity|]. split.
      * intros cc' md' Hres u s e Hin.
        rewrite !elem_of_app in Hin. destruct Hin as [Hin|[Hin|[Hin|Hin]]].
        -- destruct (get_in_fetch_events _ _ _ _ _ _ _ Hnet Hin) as (-> & -> & ->).
           destruct Hresp as [t Ht206]. eauto.
        -- apply elem_of_cons in Hin as [?|Hin]; [discriminate|].
           apply list_elem_of_singleton in Hin. discriminate.
        -- destruct Hsaved as [[-> _]|[-> _]];
             [now apply elem_of_nil in Hin
             |apply list_elem_of_singleton in Hin; discriminate].
        -- eapply Hgets; eassumption.
      * intros p offset data' Hin.
        rewrite !elem_of_app in Hin. destruct Hin as [Hin|[Hin|[Hin|Hin]]].
        -- exfalso. apply fetch_events_net in Hnet. rewrite forallb_forall in Hnet.
           apply list_elem_of_In, Hnet in Hin. discriminate.
        -- apply elem_of_cons in Hin as [Heq|Hin].
           ++ injection Heq as -> -> ->. destruct Hresp as [t Ht206]. eauto.
           ++ apply list_elem_of_singleton in Hin. discriminate.
        -- destruct Hsaved as [[-> _]|[-> _]];
             [now apply elem_of_nil in Hin
             |apply list_elem_of_singleton in Hin; discriminate].
        -- eapply Hwrites; eassumption.
Qed.

(** A run that issued a request for a range on which every attempt raises
    returns [False]. *)
Lemma hopeless_request_fails (url : string) (s e : Z)
    (url0 : string) (dest_path : path) (verify_hash : option string)
    (w : World) r w' :
  (forall t, raising (do_get (session self) t url s e) = true) ->
  download_with_resume sha256_hexdigest self url0 dest_path verify_hash w
  = (r, w') ->
  EvGet url s e ∈ added w w' ->
  r = Return false /\ files w' !! dest_path = files w !! dest_path.
Proof.
  intros Hall Hrun Hin.
  apply download_with_resume_run in Hrun.
  destruct Hrun as [e0 w1 Hsetup
                   |fi md w1 e0 w2 Hsetup Hloop
                   |fi md w1 cc md' w2 r w3 Hsetup Hloop Htail].
  - apply setup_spec in Hsetup as (_ & _ & (evs & Ht & Hevs) & _).
    rewrite (added_app _ _ _ Ht) in Hin. exfalso.
    rewrite forallb_forall in Hevs. apply list_elem_of_In, Hevs in Hin.
    discriminate.
  - split; [reflexivity|].
    destruct (assemble_spec self url0 dest_path w _ _ _ _ _ Hsetup Hloop)
      as (Hf & _).
    apply Hf, not_eq_sym, temp_neq_dest.
  - exfalso.
    apply setup_spec in Hsetup as (_ & _ & (evs0 & Ht0 & Hevs0) & _).
    unfold run_chunks in Hloop.
    apply chunk_loop_gets in Hloop as (evs & Ht & Hgets & _).
    apply tail_events in Htail as (tail & Ht3 & Htail).
    rewrite Ht, Ht0, <- !app_assoc in Ht3.
    rewrite (added_app _ _ _ Ht3), !elem_of_app in Hin.
    destruct Hin as [Hin|[Hin|Hin]].
    + rewrite forallb_forall in Hevs0. apply list_elem_of_In, Hevs0 in Hin.
      discriminate.
    + destruct (Hgets _ _ eq_refl _ _ _ Hin) as (t & data & H206).
      specialize (Hall t). rewrite H206 in Hall. discriminate.
    + rewrite forallb_forall in Htail. apply list_elem_of_In, Htail in Hin.
      discriminate.
Qed.


Lemma full_body_raising (r : Response) : full_body r = true -> raising r = true.
Proof.
  destruct r as [status content|]; [|discriminate]. simpl.
  intros H. apply Z.eqb_eq in H as ->. reflexivity.
Qed.

(** Whatever a download writes into its temporary file is the content of
    a 206 answer. *)
Lemma writes_are_partial_content (url0 : string) (dest_path : path)
    (verify_hash : option string) (w : World) r w' :
  download_with_resume sha256_hexdigest self url0 dest_path verify_hash w
  = (r, w') ->
  forall p offset data, EvWrite p offset data ∈ added w w' ->
  exists t u s e, do_get (session self) t u s e = Resp 206 data.
Proof.
  intros Hrun p offset data Hin.
  apply download_with_resume_run in Hrun.
  assert (forall evs, forallb setup_event evs = true ->
            EvWrite p offset data ∉ evs) as Hnosetup.
  { intros evs Hevs H. rewrite forallb_forall in Hevs.
    apply list_elem_of_In, Hevs in H. discriminate. }
  destruct Hrun as [e0 w1 Hsetup
                   |fi md w1 e0 w2 Hsetup Hloop
                   |fi md w1 cc md' w2 r w3 Hsetup Hloop Htail];
    apply setup_spec in Hsetup as (_ & _ & (evs0 & Ht0 & Hevs0) & _).
  - rewrite (added_app _ _ _ Ht0) in Hin. now apply Hnosetup in Hin.
  - unfold run_chunks in Hloop.
    apply chunk_loop_gets in Hloop as (evs & Ht & _ & Hwrites).
    rewrite Ht0, <- app_assoc in Ht.
    rewrite (added_app _ _ _ Ht), elem_of_app in Hin.
    destruct Hin as [Hin|Hin]; [now apply Hnosetup in Hin|].
    destruct (Hwrites _ _ _ Hin) as (t & s & e & H206). eauto.
  - unfold run_chunks in Hloop.
    apply chunk_loop_gets in Hloop as (evs & Ht & _ & Hwrites).
    apply tail_events in Htail as (tail & Ht3 & Htail).
    rewrite Ht, Ht0, <- !app_assoc in Ht3.
    rewrite (added_app _ _ _ Ht3), !elem_of_app in Hin.
    destruct Hin as [Hin|[Hin|Hin]]; [now apply Hnosetup in Hin| |].
    + destruct (Hwrites _ _ _ Hin) as (t & s & e & H206). eauto.
    + exfalso. rewrite forallb_forall in Htail.
      apply list_elem_of_In, Htail in Hin. discriminate.
Qed.

(** A fetch whose every attempt raises makes [effective_retries] requests,
    sleeps [RETRY_DELAY * 2 ^ attempt] after each but the last, and
    raises. *)
Lemma failing_fetch (url : string) (s e : Z) (max_retries : option Z) (w : World) :
  (forall t, raising (do_get (session self) t url s e) = true) ->
  let n := effective_retries max_retries in
  exists last w',
    download_chunk_with_retry self url s e max_retries w
    = (Raise (FailedAfter n last), w')
    /\ added w w' = backoff_schedule url s e n (range n)
    /\ gets (added w w') = map (fun _ => EvGet url s e) (range n)
    /\ sleeps (added w w') = map (fun a => RETRY_DELAY * 2 ^ a) (range (n - 1))
    /\ files w' = files w /\ ledgers w' = ledgers w.
Proof.
  intros Hall n. unfold download_chunk_with_retry. fold n.
  destruct (retry_loop_all_raise self url s e n (range n) Hall None w)
    as (last & w' & Hrun & Ht & Hf & Hl & _).
  exists last, w'. rewrite (added_app _ _ _ Ht).
  rewrite gets_backoff, sleeps_backoff, filter_range_below.
  split_and!; auto.
Qed.

End Retry.
End RetryProps.

Module RetryClaims.
Import Planner PlannerProps ChunkedDownloader Vocabulary FetcherProps PhaseProps
       LedgerProps RunProps RetryProps Scenarios Stated.



(** C2, as stated, fails: against a server that answers 200 the request is
    repeated three times, with the backoff sleeps in between. *)
Lemma full_body_is_retried :
  ~ aborts_on_full_body (init (Some 4) always_200) URL 0 3 empty_world.
Proof.
  intros H. destruct (H eq_refl) as (e & w' & Hrun & Hadd).
  vm_compute in Hrun. injection Hrun as _ <-. vm_compute in Hadd. discriminate.
Qed.

(** C2, amended.  A ranged request that is answered with a full-body 200 on
    every attempt is retried like any other failure: [max_retries] requests
    with the backoff sleeps, then the fetch raises without touching any
    file; a download that issued such a request returns [False] and leaves
    the destination as it was; and no download ever writes anything but the
    content of a 206 answer into its temporary file. *)
Theorem full_body_fails_after_retries
    (sha256_hexdigest : bytes -> string) (self : Downloader)
    (url : string) (start_byte end_byte : Z) (max_retries : option Z) (w : World) :
  (forall t, full_body (do_get (session self) t url start_byte end_byte) = true) ->
  let n := effective_retries max_retries in
  (exists last w',
     download_chunk_with_retry self url start_byte end_byte max_retries w
     = (Raise (FailedAfter n last), w')
     /\ added w w' = backoff_schedule url start_byte end_byte n (range n)
     /\ files w' = files w /\ ledgers w' = ledgers w)
  /\ (forall url0 dest_path verify_hash w0 r w0',
        download_with_resume sha256_hexdigest self url0 dest_path verify_hash w0
        = (r, w0') ->
        (EvGet url start_byte end_byte ∈ added w0 w0' ->
         r = Return false /\ files w0' !! dest_path = files w0 !! dest_path)
        /\ (forall p offset data, EvWrite p offset data ∈ added w0 w0' ->
            exists t u s e, do_get (session self) t u s e = Resp 206 data)).
Proof.
  intros Hall n.
  assert (forall t, raising (do_get (session self) t url start_byte end_byte) = true)
    as Hraise by (intros t; apply full_body_raising, Hall).
  split.
  - destruct (failing_fetch self url start_byte end_byte max_retries w Hraise)
      as (last & w' & Hrun & Hadd & _ & _ & Hf & Hl).
    exists last, w'. auto.
  - intros url0 dest_path verify_hash w0 r w0' Hrun. split.
    + intros Hin. eapply hopeless_request_fails; eassumption.
    + eapply writes_are_partial_content; eassumption.
Qed.

(** The amended claim on a server that answers every ranged request with
    200: the download of the ten-byte resource returns [False] after three
    requests for the first chunk, and the temporary file still holds the
    ten pre-allocated zero bytes. *)
Lemma full_body_fails_after_retries_witness :
  (forall t, full_body (do_get (session (init (Some 4) always_200)) t URL 0 3) = true)
  /\ fst (download_with_resume toy_digest (init (Some 4) always_200) URL DEST None
            empty_world) = Return false
  /\ files (snd (download_with_resume toy_digest (init (Some 4) always_200) URL DEST
                   None empty_world)) !! temp_path_of DEST
     = Some [0; 0; 0; 0; 0; 0; 0; 0; 0; 0].
Proof.
  split; [intros t; reflexivity|].
  destruct (full_body_fails_after_retries toy_digest (init (Some 4) always_200)
              URL 0 3 None empty_world (fun t => eq_refl)) as [_ Hdl].
  destruct (download_with_resume toy_digest (init (Some 4) always_200) URL DEST None
              empty_world) as [r w'] eqn:Hrun.
  destruct (Hdl URL DEST None empty_world r w' Hrun) as [Hfail _].
  split.
  - apply Hfail. vm_compute in Hrun. injection Hrun as _ <-. vm_compute.
    apply list_elem_of_In. simpl. tauto.
  - vm_compute in Hrun. injection Hrun as _ <-. reflexivity.
Defined.

End RetryClaims.

(* ===================================================================== *)
(** ** Resuming *)
(* ===================================================================== *)

Module ResumeProps.
Import Planner PlannerProps ChunkedDownloader Vocabulary FetcherProps PhaseProps
       LedgerProps RunProps.

Lemma write_at_length (local : bytes) (offset : nat) (data : bytes) :
  (offset + length data <= length local)%nat ->
  length (write_at local offset data) = length local.
Proof.
  intros H. unfold write_at.
  rewrite !length_app, length_take, length_replicate, length_drop. lia.
Qed.

Lemma write_at_inside (local : bytes) (offset : nat) (data : bytes) (k : nat) :
  (offset + length data <= length local)%nat ->
  (offset <= k < offset + length data)%nat ->
  write_at local offset data !! k = data !! (k - offset)%nat.
Proof.
  intros H Hk. unfold write_at.
  replace (offset - length local)%nat with 0%nat by lia.
  change (replicate 0%nat 0) with (@nil Z). rewrite app_nil_l.
  rewrite lookup_app_r by (rewrite length_take; lia).
  rewrite length_take. replace (offset `min` length local)%nat with offset by lia.
  apply lookup_app_l. lia.
Qed.

Lemma write_at_outside (local : bytes) (offset : nat) (data : bytes) (k : nat) :
  (offset + length data <= length local)%nat ->
  ~ (offset <= k < offset + length data)%nat ->
  write_at local offset data !! k = local !! k.
Proof.
  intros H Hk. unfold write_at.
  replace (offset - length local)%nat with 0%nat by lia.
  change (replicate 0%nat 0) with (@nil Z). rewrite app_nil_l.
  destruct (Nat.lt_ge_cases k offset) as [Hlt|Hge].
  - rewrite lookup_app_l by (rewrite length_take; lia).
    apply lookup_take_lt. exact Hlt.
  - rewrite lookup_app_r by (rewrite length_take; lia).
    rewrite length_take. replace (offset `min` length local)%nat with offset by lia.
    rewrite lookup_app_r by lia. rewrite lookup_drop. f_equal. lia.
Qed.

Lemma slice_length (content : bytes) (s e : Z) :
  0 <= s <= e -> e < Z.of_nat (length content) ->
  Z.of_nat (length (slice content s e)) = e - s + 1.
Proof.
  intros Hs He. unfold slice. rewrite length_take, length_drop. lia.
Qed.

Lemma slice_lookup (content : bytes) (s e : Z) (j : nat) :
  0 <= s <= e -> Z.of_nat j < e - s + 1 ->
  slice content s e !! j = content !! (Z.to_nat s + j)%nat.
Proof.
  intros Hs Hj. unfold slice.
  rewrite lookup_take_lt by lia. apply lookup_drop.
Qed.

Lemma preallocated_length (k : nat) : length (write_at [] k [0]) = S k.
Proof.
  unfold write_at. rewrite take_nil, drop_nil, !length_app, length_replicate.
  simpl. lia.
Qed.

Lemma gets_app (evs1 evs2 : list Event) : gets (evs1 ++ evs2) = gets evs1 ++ gets evs2.
Proof. apply List.filter_app. Qed.

Lemma gets_none (P : Event -> bool) (evs : list Event) :
  (forall ev, P ev = true -> is_get ev = false) ->
  forallb P evs = true -> gets evs = [].
Proof.
  intros HP. induction evs as [|ev evs IH]; [reflexivity|]. simpl.
  intros H. apply andb_true_iff in H as [Hev Hevs].
  rewrite (HP ev Hev). auto.
Qed.

Lemma gets_setup (evs : list Event) : forallb setup_event evs = true -> gets evs = [].
Proof. apply gets_none. intros []; simpl; congruence. Qed.

Lemma gets_publish (evs : list Event) : forallb publish_event evs = true -> gets evs = [].
Proof. apply gets_none. intros []; simpl; congruence. Qed.

Lemma filter_ext_elem {A : Type} (P Q : A -> Prop)
    `{!forall x, Decision (P x)} `{!forall x, Decision (Q x)} (l : list A) :
  (forall x, x ∈ l -> P x <-> Q x) -> filter P l = filter Q l.
Proof.
  induction l as [|x l IH]; intros Hext; [reflexivity|].
  assert (P x <-> Q x) as Hx by (apply Hext; now left).
  assert (filter P l = filter Q l) as Hl
    by (apply IH; intros y Hy; apply Hext; now right).
  destruct (decide (P x)) as [HP|HP].
  - rewrite !filter_cons_True by tauto. now rewrite Hl.
  - rewrite !filter_cons_False by tauto. exact Hl.
Qed.

Section Served.
Variable sha256_hexdigest : bytes -> string.
Variable self : Downloader.
Variables url final_url : string.
Variable content : bytes.
Variable dest_path : path.

Let meta_path := meta_path_of dest_path.
Let temp_path := temp_path_of dest_path.
Let L := Z.of_nat (length content).
Let n := total_chunks L (chunk_size self).
Let lo := start_byte (chunk_size self).
Let hi := end_byte L (chunk_size self).

Hypothesis positive_chunk : 0 < chunk_size self.
Hypothesis nonempty : 0 < L.
Hypothesis offered : offers (session self) url final_url content.
Hypothesis answered : forall t s e, 0 <= s <= e -> e < L ->
  do_get (session self) t final_url s e = Resp 206 (slice content s e).

Lemma chunk_bounds (i : Z) : 0 <= i < n -> 0 <= lo i <= hi i /\ hi i < L.
Proof.
  intros Hi. subst lo hi. unfold end_byte, start_byte.
  destruct (total_chunks_ceil L (chunk_size self) positive_chunk) as [Hup Hlow].
  fold n in Hup, Hlow.
  assert (0 <= i * chunk_size self) by nia.
  assert (i * chunk_size self <= (n - 1) * chunk_size self) by nia.
  lia.
Qed.

Lemma chunk_of_byte (i : Z) (k : nat) :
  0 <= i < n -> Z.of_nat k < L ->
  (Z.of_nat k / chunk_size self = i <-> lo i <= Z.of_nat k <= hi i).
Proof.
  intros Hi Hk. subst lo hi. unfold end_byte, start_byte.
  pose proof (Z.div_mod (Z.of_nat k) (chunk_size self) ltac:(lia)) as Hdm.
  pose proof (Z.mod_pos_bound (Z.of_nat k) (chunk_size self) positive_chunk) as Hmb.
  split.
  - intros <-. nia.
  - intros [H1 H2]. symmetry.
    apply (Z.div_unique (Z.of_nat k) (chunk_size self) i
                        (Z.of_nat k - i * chunk_size self)); lia.
Qed.

Lemma byte_has_chunk (k : nat) :
  Z.of_nat k < L -> 0 <= Z.of_nat k / chunk_size self < n.
Proof.
  intros Hk. subst n.
  destruct (total_chunks_ceil L (chunk_size self) positive_chunk) as [Hup Hlow].
  pose proof (Z.div_mod (Z.of_nat k) (chunk_size self) ltac:(lia)) as Hdm.
  pose proof (Z.mod_pos_bound (Z.of_nat k) (chunk_size self) positive_chunk) as Hmb.
  split; [apply Z.div_pos; lia | nia].
Qed.

(** Writing the served bytes of chunk [i] at its offset extends the
    agreement to chunk [i]. *)
Lemma agrees_after_write (done : gset Z) (local : bytes) (i : Z) :
  0 <= i < n ->
  agrees (chunk_size self) done local content ->
  agrees (chunk_size self) ({[i]} ∪ done)
    (write_at local (Z.to_nat (lo i)) (slice content (lo i) (hi i))) content.
Proof.
  intros Hi [Hlen Hag].
  destruct (chunk_bounds i Hi) as [Hb1 Hb2].
  pose proof (slice_length content (lo i) (hi i) Hb1 Hb2) as Hsl.
  assert (Z.to_nat (lo i) + length (slice content (lo i) (hi i)) <= length local)%nat
    as Hfit by (subst L; lia).
  split; [now rewrite write_at_length|].
  intros k Hk.
  destruct (Z_lt_ge_dec (Z.of_nat k) L) as [HkL|HkL].
  2:{ rewrite !lookup_ge_None_2; [reflexivity | subst L; lia |].
      rewrite write_at_length by exact Hfit. subst L. lia. }
  destruct (decide (lo i <= Z.of_nat k <= hi i)) as [Hin|Hout].
  - rewrite write_at_inside by lia.
    rewrite slice_lookup by lia. f_equal. lia.
  - rewrite write_at_outside by lia. apply Hag.
    apply elem_of_union in Hk as [Hk|Hk]; [|exact Hk].
    apply elem_of_singleton in Hk. apply chunk_of_byte in Hk; auto. contradiction.
Qed.

Lemma agrees_ext (done done' : gset Z) (local : bytes) :
  (forall i, i ∈ done' -> i ∈ done) ->
  agrees (chunk_size self) done local content ->
  agrees (chunk_size self) done' local content.
Proof. intros Hsub [Hlen Hag]. split; auto. Qed.

(** Against a server that offers the resource, whatever way the chunk loop
    ends, the temporary file holds the chunks recorded: those of the set in
    memory when the loop runs to its end, those of the ledger just saved
    when it ends in the [except] branch. *)
Lemma chunk_loop_offered (ordinals : list Z) :
  (forall i, i ∈ ordinals -> 0 <= i < n) ->
  forall (done : gset Z) (metadata : Metadata) (w : World) (local : bytes) res w',
  files w !! temp_path = Some local ->
  agrees (chunk_size self) done local content ->
  (forall i, i ∈ done <-> i ∈ completed_list metadata) ->
  chunk_loop self final_url L meta_path temp_path ordinals done metadata w
  = (res, w') ->
  exists local',
    files w' !! temp_path = Some local'
    /\ match res with
       | AllFetched done' _ => agrees (chunk_size self) done' local' content
       | ChunkFailed _ =>
           exists saved,
             ledgers w' !! meta_path = Some (ValidJson saved)
             /\ agrees (chunk_size self) (list_to_set (completed_list saved))
                  local' content
       end.
Proof.
  induction ordinals as [|i rest IH];
    intros Hrange done metadata w local res w' Hlocal Hag Hlist Hrun;
    cbn [chunk_loop] in Hrun.
  - injection Hrun as <- <-. eauto.
  - assert (forall j, j ∈ rest -> 0 <= j < n) as Hrest
      by (intros j Hj; apply Hrange; now right).
    assert (0 <= i < n) as Hi by (apply Hrange; now left).
    destruct (decide (i ∈ done)); [eapply IH; eassumption|].
    destruct (fetch_and_record _ _ _ _ _ _ _ _ w) as [r w1] eqn:Hstep.
    apply fetch_and_record_step in Hstep.
    destruct Hstep as [e w1 net Hf Hl Ht1 Hnet
                      |data metadata1 w1 net saved Hnet Hresp Hpos Hf Hlist1 Hsaved Ht1].
    + injection Hrun as <- <-. exists local. unfold save_metadata. cbn.
      rewrite Hf. split; [exact Hlocal|].
      eexists. split; [apply lookup_insert_eq|]. cbn.
      eapply agrees_ext; [|exact Hag].
      intros j Hj. apply elem_of_list_to_set in Hj. now apply Hlist.
    + destruct (chunk_bounds i Hi) as [Hb1 Hb2].
      destruct Hresp as [t H206]. destruct offered as [_ Hhonest].
      apply (Hhonest t _ _ data Hb1 Hb2) in H206. subst data.
      rewrite Hlocal in Hf. cbn [default from_option id] in Hf.
      assert (files w1 !! temp_path
              = Some (write_at local (Z.to_nat (lo i)) (slice content (lo i) (hi i))))
        as Hlocal1 by (rewrite Hf; apply lookup_insert_eq).
      assert (forall j, j ∈ ({[i]} ∪ done : gset Z) <-> j ∈ completed_list metadata1)
        as Hlist' by (intros j; rewrite Hlist1; symmetry; apply elem_of_elements).
      exact (IH Hrest _ _ _ _ _ _ Hlocal1
                (agrees_after_write done local i Hi Hag) Hlist' Hrun).
Qed.

(** Against the serving server the first attempt succeeds. *)
Lemma fetch_and_record_served (i : Z) (done : gset Z) (metadata : Metadata)
    (w : World) (local : bytes) :
  0 <= i < n ->
  files w !! temp_path = Some local ->
  exists metadata' w' saved,
    fetch_and_record self final_url L meta_path temp_path i done metadata w
    = (Return ({[i]} ∪ done, metadata'), w')
    /\ files w'
       = <[temp_path := write_at local (Z.to_nat (lo i)) (slice content (lo i) (hi i))]>
           (files w)
    /\ trace w'
       = trace w ++ [EvGet final_url (lo i) (hi i);
                     EvWrite temp_path (lo i) (slice content (lo i) (hi i));
                     EvFlush temp_path] ++ saved
    /\ gets saved = [].
Proof.
  intros Hi Hlocal. destruct (chunk_bounds i Hi) as [Hb1 Hb2].
  pose proof answered as Hget.
  unfold fetch_and_record, download_chunk_with_retry. unfold_action.
  change (range (effective_retries None)) with [0; 1; 2].
  cbn [retry_loop]. unfold attempt_once.
  fold (lo i) (hi i). rewrite (Hget _ _ _ Hb1 Hb2). cbn [Z.eqb Pos.eqb].
  unfold write_chunk. fold (lo i).
  replace (lo i <? 0) with false by lia.
  cbn [emit snd count_request set_files files ledgers requests clock trace].
  rewrite Hlocal. cbn [default].
  destruct (Z.of_nat (size ({[i]} ∪ done)) mod 10 =? 0).
  - unfold save_metadata.
    eexists _, _, [EvSave _ _]. split; [reflexivity|]. cbn.
    rewrite <- !app_assoc. auto.
  - eexists _, _, []. split; [reflexivity|]. cbn.
    rewrite <- !app_assoc. auto.
Qed.

(** Against the serving server the chunk loop fetches exactly the
    outstanding ordinals, in order, and extends the agreement to all of
    them. *)
Lemma chunk_loop_served (ordinals : list Z) :
  NoDup ordinals ->
  (forall i, i ∈ ordinals -> 0 <= i < n) ->
  forall (done : gset Z) (metadata : Metadata) (w : World) (local : bytes),
  files w !! temp_path = Some local ->
  agrees (chunk_size self) done local content ->
  exists done' metadata' w' local' evs,
    chunk_loop self final_url L meta_path temp_path ordinals done metadata w
    = (AllFetched done' metadata', w')
    /\ files w' !! temp_path = Some local'
    /\ agrees (chunk_size self) done' local' content
    /\ done ⊆ done'
    /\ (forall i, i ∈ ordinals -> i ∈ done')
    /\ trace w' = trace w ++ evs
    /\ gets evs
       = requests_for self final_url L (filter (fun i => i ∉ done) ordinals).
Proof.
  induction ordinals as [|i rest IH]; intros Hnd Hrange done metadata w local Hlocal Hag.
  - exists done, metadata, w, local, []. rewrite app_nil_r.
    split_and!; auto. intros i Hi. now apply elem_of_nil in Hi.
  - apply NoDup_cons in Hnd as [Hfresh Hnd].
    assert (forall j, j ∈ rest -> 0 <= j < n) as Hrest
      by (intros j Hj; apply Hrange; now right).
    assert (0 <= i < n) as Hi by (apply Hrange; now left).
    cbn [chunk_loop]. destruct (decide (i ∈ done)) as [Hdone|Hout].
    + destruct (IH Hnd Hrest done metadata w local Hlocal Hag)
        as (done' & md' & w' & local' & evs & Hrun & Hl' & Hag' & Hsub & Hall & Ht & Hgets).
      exists done', md', w', local', evs. split_and!; auto.
      * intros j Hj. apply elem_of_cons in Hj as [->|Hj]; auto.
      * rewrite filter_cons_False by (intros H; now apply H). exact Hgets.
    + destruct (fetch_and_record_served i done metadata w local Hi Hlocal)
        as (md1 & w1 & saved & Hstep & Hf1 & Ht1 & Hsaved).
      rewrite Hstep.
      assert (files w1 !! temp_path
              = Some (write_at local (Z.to_nat (lo i)) (slice content (lo i) (hi i))))
        as Hlocal1 by (rewrite Hf1; apply lookup_insert_eq).
      destruct (IH Hnd Hrest ({[i]} ∪ done) md1 w1 _ Hlocal1
                  (agrees_after_write done local i Hi Hag))
        as (done' & md' & w' & local' & evs & Hrun & Hl' & Hag' & Hsub & Hall & Ht & Hgets).
      eexists done', md', w', local', _. split_and!; auto.
      * intros j Hj. apply Hsub, elem_of_union. now right.
      * intros j Hj. apply elem_of_cons in Hj as [->|Hj]; auto.
        apply Hsub, elem_of_union. left. now apply elem_of_singleton.
      * rewrite Ht, Ht1, <- !app_assoc. reflexivity.
      * rewrite !gets_app, Hsaved, Hgets, app_nil_l.
        rewrite filter_cons_True by exact Hout.
        change (gets [EvGet final_url (lo i) (hi i);
                      EvWrite temp_path (lo i) (slice content (lo i) (hi i));
                      EvFlush temp_path])
          with [EvGet final_url (lo i) (hi i)].
        unfold requests_for. cbn [map app]. f_equal. f_equal.
        apply filter_ext_elem. intros j Hj. split.
        -- intros Hn Hin. apply Hn, elem_of_union. now right.
        -- intros Hn Hin. apply elem_of_union in Hin as [Hin|Hin]; auto.
           apply elem_of_singleton in Hin. subst j. contradiction.
Qed.

Lemma NoDup_range (k : Z) : NoDup (range k).
Proof.
  unfold range. apply NoDup_fmap_2; [intros x y; lia | apply NoDup_seq].
Qed.

(** A local file that agrees with the resource on every chunk is the
    resource. *)
Lemma agrees_everywhere (done : gset Z) (local : bytes) :
  agrees (chunk_size self) done local content ->
  (forall i, 0 <= i < n -> i ∈ done) ->
  local = content.
Proof.
  intros [Hlen Hag] Hall. apply list_eq. intros k.
  destruct (Z_lt_ge_dec (Z.of_nat k) L) as [Hk|Hk].
  - apply Hag, Hall, byte_has_chunk, Hk.
  - rewrite !lookup_ge_None_2; [reflexivity | subst L; lia | subst L; lia].
Qed.

(** Against the serving server the setup succeeds, and leaves a temporary
    file that agrees with the resource on the chunks of the ledger. *)
Lemma setup_served (w : World) :
  fresh dest_path w \/ resumable self dest_path content w ->
  exists file_info metadata w1 local,
    setup self url dest_path w = (Return (file_info, metadata), w1)
    /\ info_final_url file_info = final_url
    /\ info_size file_info = L
    /\ files w1 !! temp_path = Some local
    /\ agrees (chunk_size self)
         (list_to_set (loaded_chunks w meta_path)) local content.
Proof.
  intros Hstart. destruct offered as [Hhead _].
  destruct (Hhead (requests w)) as (hr & Hhr & Hstatus & Hurl & Hcl).
  unfold setup, get_file_info, load_metadata, open_temp. unfold_action.
  rewrite Hhr, Hstatus.
  cbn [emit snd count_request set_files files ledgers requests clock trace].
  replace (chunk_size self =? 0) with false by lia.
  destruct Hstart as [[Htemp Hmeta]|[[m Hmeta] (local & Htemp & Hag)]].
  - fold meta_path temp_path in Htemp, Hmeta |- *. rewrite Hmeta.
    cbn [emit snd count_request set_files files ledgers requests clock trace].
    rewrite Htemp, Hcl. cbn [default from_option id info_size].
    fold L. replace (L - 1 <? 0) with false by lia.
    cbn [emit snd count_request set_files files ledgers requests clock trace fst].
    eexists _, _, _, _. split; [reflexivity|].
    cbn [info_final_url info_size default from_option id]. split_and!; auto.
    + apply lookup_insert_eq.
    + unfold loaded_chunks. rewrite Hmeta. split.
      * rewrite preallocated_length. subst L. lia.
      * intros k Hk. now apply elem_of_empty in Hk.
  - fold meta_path temp_path in Htemp, Hmeta, Hag |- *. rewrite Hmeta.
    cbn [emit snd count_request set_files files ledgers requests clock trace].
    rewrite Htemp.
    cbn [emit snd count_request set_files files ledgers requests clock trace fst].
    eexists _, _, _, _. split; [reflexivity|].
    rewrite Hcl. cbn [info_final_url info_size default from_option id]. split_and!; eauto.
Qed.

(** Against the serving server, setup and chunk loop together fetch the
    outstanding ordinals and leave the resource in the temporary file. *)
Lemma assemble_served (w : World) :
  fresh dest_path w \/ resumable self dest_path content w ->
  exists file_info metadata w1 done metadata' w2 evs,
    setup self url dest_path w = (Return (file_info, metadata), w1)
    /\ run_chunks self dest_path file_info metadata w1
       = (AllFetched done metadata', w2)
    /\ files w2 !! temp_path = Some content
    /\ trace w2 = trace w ++ evs
    /\ forallb assembling_event evs = true
    /\ gets evs
       = requests_for self final_url L
           (filter (fun i => i ∉ (list_to_set (loaded_chunks w meta_path) : gset Z))
                   (range n))
    /\ (forall p, p <> temp_path -> files w2 !! p = files w !! p)
    /\ (is_Some (ledgers w !! meta_path) -> is_Some (ledgers w2 !! meta_path)).
Proof.
  intros Hstart.
  destruct (setup_served w Hstart)
    as (fi & md & w1 & local & Hsetup & Hurl & Hsize & Hlocal & Hag).
  pose proof (setup_spec self url dest_path w _ _ Hsetup)
    as (_ & _ & (evs0 & Ht0 & Hevs0) & Hret).
  destruct (Hret _ _ eq_refl) as (_ & Hlist & _).
  destruct (chunk_loop_served (range n) (NoDup_range n)
              (fun i Hi => proj1 (elem_of_range n i) Hi)
              (list_to_set (loaded_chunks w meta_path)) md w1 local Hlocal Hag)
    as (done' & md' & w2 & local' & evs & Hrun & Hl' & Hag' & _ & Hall & Ht & Hgets).
  assert (run_chunks self dest_path fi md w1 = (AllFetched done' md', w2)) as Hloop.
  { unfold run_chunks. rewrite Hurl, Hsize, Hlist. exact Hrun. }
  destruct (assemble_spec self url dest_path w _ _ _ _ _ Hsetup Hloop)
    as (Hf & _ & _ & Hm & evs' & _ & _ & Ht' & Hevs' & _).
  exists fi, md, w1, done', md', w2, evs'. split_and!; auto.
  - rewrite Hl'. f_equal. apply (agrees_everywhere done'); [exact Hag'|].
    intros i Hi. now apply Hall, elem_of_range.
  - assert (evs' = evs0 ++ evs) as ->.
    { rewrite Ht, Ht0, <- app_assoc in Ht'. now apply app_inv_head in Ht'. }
    rewrite gets_app, (gets_setup _ Hevs0). exact Hgets.
Qed.

(** A whole download against the serving server. *)
Lemma download_served (verify_hash : option string) (w : World) r w' :
  fresh dest_path w \/ resumable self dest_path content w ->
  download_with_resume sha256_hexdigest self url dest_path verify_hash w = (r, w') ->
  gets (added w w')
  = requests_for self final_url L
      (filter (fun i => i ∉ (list_to_set (loaded_chunks w meta_path) : gset Z))
              (range n))
  /\ assembled dest_path w' = Some content
  /\ (truthy verify_hash = false ->
      files w' !! dest_path = Some content
      /\ files w' !! temp_path = None
      /\ (forall p d, EvHash p d ∉ added w w')
      /\ EvRename temp_path dest_path ∈ added w w'
      /\ r <> Return false
      /\ (is_Some (ledgers w !! meta_path) -> r = Return true)).
Proof.
  intros Hstart Hrun.
  destruct (assemble_served w Hstart)
    as (fi & md & w1 & done & md' & w2 & evs & Hsetup & Hloop & Htemp & Ht & Hevs
        & Hgets & Hf & Hm).
  rewrite download_with_resume_phases, Hsetup, Hloop in Hrun.
  apply verify_and_publish_tail in Hrun.
  fold temp_path meta_path in Hrun.
  destruct Hrun as [Hnone
                   |local Hc Htruthy Hbad
                   |local checked r w3 Hc Hchecked Hmatch Hf3 Hend].
  - fold temp_path in Hnone. congruence.
  - fold temp_path in Hc |- *.
    assert (trace (snd (emit (EvHash temp_path (sha256_hexdigest local)) w2))
            = trace w ++ evs ++ [EvHash temp_path (sha256_hexdigest local)]) as Ht3
      by (cbn; rewrite Ht, <- app_assoc; reflexivity).
    rewrite (added_app _ _ _ Ht3), gets_app, app_nil_r.
    split_and!; [exact Hgets | | congruence].
    unfold assembled. fold temp_path. cbn. now rewrite Htemp.
  - fold temp_path meta_path in Hc, Hf3, Hend, Hchecked |- *.
    assert (local = content) as -> by congruence.
    assert (forallb publish_event checked = true) as Hck
      by (subst checked; destruct (truthy verify_hash); reflexivity).
    assert (files w3 !! temp_path = None) as Hgone.
    { rewrite Hf3, lookup_insert_ne by (apply not_eq_sym, temp_neq_dest).
      apply lookup_delete_eq. }
    assert (files w3 !! dest_path = Some content) as Hdest
      by (rewrite Hf3; apply lookup_insert_eq).
    assert (exists rest, trace w3 = trace w ++ evs ++ checked
                                     ++ EvRename temp_path dest_path :: rest
                         /\ (rest = [] \/ rest = [EvUnlink meta_path]))
      as (rest & Ht3 & Hrest).
    { destruct Hend as [(_ & _ & _ & ->)|(_ & _ & _ & ->)]; rewrite Ht, <- !app_assoc;
        eexists; split; eauto. }
    assert (gets rest = []) as Hgrest by (destruct Hrest as [->| ->]; reflexivity).
    rewrite (added_app _ _ _ Ht3), !gets_app, (gets_publish _ Hck).
    change (gets (EvRename temp_path dest_path :: rest)) with (gets rest).
    rewrite Hgrest, !app_nil_r.
    split_and!; [exact Hgets | |].
    + unfold assembled. fold temp_path. now rewrite Hgone.
    + intros Hfalsy. rewrite Hfalsy in Hchecked. subst checked.
      split_and!; auto.
      * intros p d Hin. rewrite !elem_of_app in Hin.
        destruct Hin as [Hin|[Hin|Hin]].
        -- eapply hash_not_assembling; eassumption.
        -- now apply elem_of_nil in Hin.
        -- apply elem_of_cons in Hin as [?|Hin]; [discriminate|].
           destruct Hrest as [->| ->];
             [now apply elem_of_nil in Hin
             |apply list_elem_of_singleton in Hin; discriminate].
      * rewrite !elem_of_app. right. right. now left.
      * destruct Hend as [(_ & -> & _)|(_ & -> & _)]; discriminate.
      * intros Hsome. destruct Hend as [(Hnone & _)|(_ & -> & _)]; [|reflexivity].
        apply Hm in Hsome. rewrite Hnone in Hsome. now destruct Hsome.
Qed.

(** A download that fails on a chunk leaves behind what a later run can
    resume from. *)
Lemma failed_download_is_resumable (verify_hash : option string) (w : World) r w' :
  fresh dest_path w \/ resumable self dest_path content w ->
  download_with_resume sha256_hexdigest self url dest_path verify_hash w = (r, w') ->
  r = Return false ->
  (forall p d, EvHash p d ∉ added w w') ->
  resumable self dest_path content w'.
Proof.
  intros Hstart Hrun Hr Hnohash.
  destruct (false_without_hash _ _ _ _ _ _ _ _ Hrun Hr Hnohash)
    as (fi & md & w1 & e & Hsetup & Hloop).
  destruct (setup_served w Hstart)
    as (fi' & md' & w1' & local & Hsetup' & Hurl & Hsize & Hlocal & Hag).
  rewrite Hsetup in Hsetup'. injection Hsetup' as <- <- <-.
  pose proof (setup_spec self url dest_path w _ _ Hsetup) as (_ & _ & _ & Hret).
  destruct (Hret _ _ eq_refl) as (_ & Hlist & _).
  unfold run_chunks in Hloop. rewrite Hurl, Hsize, Hlist in Hloop.
  eapply (chunk_loop_offered (range n)) in Hloop
    as (local' & Hlocal' & saved & Hledger & Hag'); [| |exact Hlocal|exact Hag|].
  - split; [eauto|]. exists local'. split; [exact Hlocal'|].
    unfold loaded_chunks. fold meta_path. rewrite Hledger. exact Hag'.
  - intros i Hi. now apply elem_of_range.
  - intros i. rewrite <- Hlist. apply elem_of_list_to_set.
Qed.

End Served.

Lemma serves_offers (srv : Server) (url final_url : string) (content : bytes) :
  serves srv url final_url content -> offers srv url final_url content.
Proof.
  intros [Hhead Hget]. split; [exact Hhead|].
  intros t s e data Hs He H206. rewrite (Hget t s e Hs He) in H206.
  now injection H206 as <-.
Qed.

End ResumeProps.

(* ===================================================================== *)
(** ** Unknown size and unreadable ledger *)
(* ===================================================================== *)

Module EdgeProps.
Import Planner PlannerProps ChunkedDownloader Vocabulary FetcherProps PhaseProps
       LedgerProps RunProps ResumeProps.

Section Edge.
Variable sha256_hexdigest : bytes -> string.
Variable self : Downloader.

(** What the setup hands to the chunk loop is what the probe reported. *)
Lemma setup_probe (url : string) (dest_path : path) (w : World)
    file_info metadata w1 :
  setup self url dest_path w = (Return (file_info, metadata), w1) ->
  exists hr, do_head (session self) (requests w) url = Some hr
             /\ info_size file_info = default 0 (hr_content_length hr)
             /\ info_final_url file_info = hr_url hr.
Proof.
  unfold setup, get_file_info. unfold_action.
  destruct (do_head _ _ _) as [hr|]; [|discriminate].
  destruct (raises_for_status (hr_status hr)); [discriminate|].
  destruct (load_metadata _ _) as [[md|e] wa]; [|discriminate].
  destruct (chunk_size self =? 0); [discriminate|].
  destruct (open_temp _ _ wa) as [[[]|e] wb]; [|discriminate].
  intros H. injection H as <- _ _. exists hr. auto.
Qed.

Lemma total_chunks_zero (chunk_size : Z) :
  0 < chunk_size -> total_chunks 0 chunk_size = 0.
Proof. intros H. unfold total_chunks. apply Z.div_small. lia. Qed.

(** With an unreadable ledger the download stops right after the probe. *)
Lemma corrupt_ledger_raises (url : string) (dest_path : path)
    (verify_hash : option string) (w : World) :
  ledgers w !! meta_path_of dest_path = Some Unparseable ->
  exists e w',
    download_with_resume sha256_hexdigest self url dest_path verify_hash w
    = (Raise e, w')
    /\ files w' = files w /\ ledgers w' = ledgers w
    /\ added w w' = [EvHead url].
Proof.
  intros Hbad. rewrite download_with_resume_phases.
  unfold setup. unfold_action.
  destruct (get_file_info self url w) as [[fi|e] w1] eqn:Hprobe;
    apply get_file_info_spec in Hprobe as (Hf & Hl & Ht).
  - unfold load_metadata. rewrite Hl, Hbad.
    exists JSONDecodeError, w1. rewrite (added_app _ _ _ Ht). auto.
  - exists e, w1. rewrite (added_app _ _ _ Ht). auto.
Qed.

End Edge.
End EdgeProps.

Module EdgeClaims.
Import Planner PlannerProps ChunkedDownloader Vocabulary FetcherProps PhaseProps
       LedgerProps RunProps ResumeProps EdgeProps Scenarios Stated.

(** C4, as stated, fails: [json.load] raises and nothing catches it. *)
Lemma corrupt_ledger_is_fatal :
  ~ corrupt_ledger_starts_over (meta_path_of DEST) corrupt_ledger_world.
Proof.
  intros H. destruct (H eq_refl) as (m & Hload & _). discriminate.
Qed.

(** C4, amended.  A ledger file that does not exist yields a fresh ledger
    with no completed chunk.  A ledger file that cannot be parsed makes
    [load_metadata] raise; [download_with_resume] then raises right after
    the metadata probe, having fetched no chunk and changed neither a file
    nor a ledger; and the module loop of [download_content_package] is left
    by that exception, before the index of the module is attempted. *)
Theorem unparseable_ledger_raises
    (sha256_hexdigest : bytes -> string) (self : Downloader)
    (dest_path : path) (w : World) :
  (ledgers w !! meta_path_of dest_path = None ->
   exists m, load_metadata (meta_path_of dest_path) w = (Return m, w)
             /\ completed_list m = [])
  /\ (ledgers w !! meta_path_of dest_path = Some Unparseable ->
      load_metadata (meta_path_of dest_path) w = (Raise JSONDecodeError, w)
      /\ (forall url verify_hash, exists e w',
            download_with_resume sha256_hexdigest self url dest_path verify_hash w
            = (Raise e, w')
            /\ files w' = files w /\ ledgers w' = ledgers w
            /\ added w w' = [EvHead url])
      /\ (forall dest_dir module_name filename module_info url success,
            dest_path = join_path dest_dir module_name filename ->
            zim_url module_info = Some url ->
            zim_filename module_info = Some filename ->
            exists e w',
              download_module sha256_hexdigest self dest_dir module_name
                module_info success w = (Raise e, w')
              /\ added w w' = [EvHead url])).
Proof.
  split.
  - intros Hnone. unfold load_metadata. rewrite Hnone. eauto.
  - intros Hbad. split_and!.
    + unfold load_metadata. now rewrite Hbad.
    + intros url verify_hash. now apply corrupt_ledger_raises.
    + intros dest_dir module_name filename module_info url success -> Hurl Hname.
      destruct (corrupt_ledger_raises sha256_hexdigest self url _
                  (zim_sha256 module_info) w Hbad) as (e & w' & Hrun & _ & _ & Hadd).
      exists e, w'. split; [|exact Hadd].
      unfold download_module. rewrite Hurl, Hname.
      unfold mbind, action_bind. now rewrite Hrun.
Qed.

(** The amended claim on a world whose ledger for [DEST] is unreadable. *)
Lemma unparseable_ledger_raises_witness :
  ledgers corrupt_ledger_world !! meta_path_of DEST = Some Unparseable
  /\ load_metadata (meta_path_of DEST) corrupt_ledger_world
     = (Raise JSONDecodeError, corrupt_ledger_world).
Proof.
  split; [reflexivity|].
  apply (unparseable_ledger_raises toy_digest (init (Some 4) origin) DEST
           corrupt_ledger_world).
  reflexivity.
Defined.

(** C5, as stated, fails: with no size reported a first download raises at
    the pre-allocation seek and requests nothing. *)
Lemma unknown_size_fetches_no_chunk :
  ~ single_chunk_when_size_unknown toy_digest (init (Some 4) no_size)
      URL DEST None empty_world.
Proof.
  intros H. destruct H as [Hraise _].
  - eexists. split; reflexivity.
  - apply (Hraise (InvalidSeek (-1))). reflexivity.
Qed.

(** C5, amended.  When the size reported for a resource is 0 (or none is
    reported), the chunk plan is empty: there is no single unbounded chunk,
    and the download issues no ranged request and writes no chunk. *)
Theorem zero_size_plans_no_chunk
    (sha256_hexdigest : bytes -> string) (self : Downloader)
    (url : string) (dest_path : path) (verify_hash : option string)
    (w : World) r w' :
  0 < chunk_size self ->
  (forall hr, do_head (session self) (requests w) url = Some hr ->
              default 0 (hr_content_length hr) = 0) ->
  download_with_resume sha256_hexdigest self url dest_path verify_hash w
  = (r, w') ->
  total_chunks 0 (chunk_size self) = 0
  /\ chunk_plan 0 (chunk_size self) = []
  /\ gets (added w w') = []
  /\ (forall p offset data, EvWrite p offset data ∉ added w w').
Proof.
  intros Hcs Hzero Hrun.
  pose proof (total_chunks_zero _ Hcs) as Hn.
  split; [exact Hn|]. split; [unfold chunk_plan; now rewrite Hn|].
  assert (forall evs, forallb setup_event evs = true ->
            forall p offset data, EvWrite p offset data ∉ evs) as Hnosetup.
  { intros evs Hevs p o d H. rewrite forallb_forall in Hevs.
    apply list_elem_of_In, Hevs in H. discriminate. }
  assert (forall evs, forallb publish_event evs = true ->
            forall p offset data, EvWrite p offset data ∉ evs) as Hnopub.
  { intros evs Hevs p o d H. rewrite forallb_forall in Hevs.
    apply list_elem_of_In, Hevs in H. discriminate. }
  assert (forall fi md w1 res w2,
            setup self url dest_path w = (Return (fi, md), w1) ->
            run_chunks self dest_path fi md w1 = (res, w2) ->
            w2 = w1 /\ exists cc md', res = AllFetched cc md') as Hloop0.
  { intros fi md w1 res w2 Hsetup Hloop.
    destruct (setup_probe self url dest_path w _ _ _ Hsetup) as (hr & Hhr & Hsize & _).
    rewrite (Hzero hr Hhr) in Hsize. unfold run_chunks in Hloop.
    rewrite Hsize, Hn in Hloop. cbn in Hloop. injection Hloop as <- <-. eauto. }
  apply download_with_resume_run in Hrun.
  destruct Hrun as [e w1 Hsetup
                   |fi md w1 e w2 Hsetup Hloop
                   |fi md w1 cc md' w2 r w3 Hsetup Hloop Htail].
  - apply setup_spec in Hsetup as (_ & _ & (evs & Ht & Hevs) & _).
    rewrite (added_app _ _ _ Ht). split; [now apply gets_setup | now apply Hnosetup].
  - destruct (Hloop0 _ _ _ _ _ Hsetup Hloop) as (_ & cc & md' & Hres). discriminate.
  - destruct (Hloop0 _ _ _ _ _ Hsetup Hloop) as (-> & _).
    apply setup_spec in Hsetup as (_ & _ & (evs & Ht & Hevs) & _).
    apply tail_events in Htail as (tail & Ht3 & Htail).
    rewrite Ht, <- app_assoc in Ht3. rewrite (added_app _ _ _ Ht3). split.
    + rewrite gets_app, (gets_setup _ Hevs), (gets_publish _ Htail). reflexivity.
    + intros p o d Hin. apply elem_of_app in Hin as [Hin|Hin].
      * eapply Hnosetup; eassumption.
      * eapply Hnopub; eassumption.
Qed.

(** The amended claim on the server that reports no size: the run, which
    raises at the pre-allocation seek, has requested nothing. *)
Lemma zero_size_plans_no_chunk_witness :
  0 < chunk_size (init (Some 4) no_size)
  /\ gets (added empty_world
             (snd (download_with_resume toy_digest (init (Some 4) no_size)
                     URL DEST None empty_world))) = [].
Proof.
  split; [reflexivity|].
  eapply (zero_size_plans_no_chunk toy_digest (init (Some 4) no_size)
            URL DEST None empty_world).
  - reflexivity.
  - intros hr Hhr. injection Hhr as <-. reflexivity.
  - apply surjective_pairing.
Defined.

End EdgeClaims.

Module ResumeClaims.
Import Planner PlannerProps ChunkedDownloader Vocabulary FetcherProps PhaseProps
       LedgerProps RunProps ResumeProps Scenarios ScenarioProps.

(** C7.  Resuming against a server that serves the resource, from a ledger
    whose completed ordinals [S] are held by the temporary file: the ranged
    requests issued are exactly those of the ordinals of
    [0 .. total_chunks - 1] that are not in [S], in ascending order (every
    ordinal in [S] is skipped, every other one is fetched), and the file
    assembled is the resource itself, byte for byte the file that a
    download starting from nothing assembles. *)
Theorem resume_fetches_missing_chunks_only
    (sha256_hexdigest : bytes -> string) (self : Downloader)
    (url final_url : string) (content : bytes) (dest_path : path)
    (verify_hash : option string) (w w0 : World) r w' r0 w0' :
  0 < chunk_size self ->
  0 < Z.of_nat (length content) ->
  serves (session self) url final_url content ->
  resumable self dest_path content w ->
  fresh dest_path w0 ->
  download_with_resume sha256_hexdigest self url dest_path verify_hash w = (r, w') ->
  download_with_resume sha256_hexdigest self url dest_path verify_hash w0 = (r0, w0') ->
  let S : gset Z := list_to_set (loaded_chunks w (meta_path_of dest_path)) in
  let n := total_chunks (Z.of_nat (length content)) (chunk_size self) in
  gets (added w w')
  = requests_for self final_url (Z.of_nat (length content))
      (filter (fun i => i ∉ S) (range n))
  /\ assembled dest_path w' = Some content
  /\ assembled dest_path w' = assembled dest_path w0'.
Proof.
  intros Hcs Hlen Hserved Hresumable Hfresh Hrun Hrun0 S n.
  pose proof (serves_offers _ _ _ _ Hserved) as Hoffered.
  destruct (download_served sha256_hexdigest self url final_url content dest_path
              Hcs Hlen Hoffered (proj2 Hserved) verify_hash w r w'
              (or_intror Hresumable) Hrun)
    as (Hgets & Hfile & _).
  destruct (download_served sha256_hexdigest self url final_url content dest_path
              Hcs Hlen Hoffered (proj2 Hserved) verify_hash w0 r0 w0'
              (or_introl Hfresh) Hrun0)
    as (_ & Hfile0 & _).
  split_and!; [exact Hgets | exact Hfile | congruence].
Qed.

(** The theorem on scenario B of the specification, scaled down: chunks 0
    and 1 of 3 are recorded, and resuming requests chunk 2 only. *)
Lemma resume_fetches_missing_chunks_only_witness :
  gets (added resumable_world
          (snd (download_with_resume toy_digest (init (Some 4) origin) URL DEST
                  (Some "c0ffee"%string) resumable_world)))
  = [EvGet URL 8 9]
  /\ assembled DEST (snd (download_with_resume toy_digest (init (Some 4) origin)
                            URL DEST (Some "c0ffee"%string) resumable_world))
     = Some resource.
Proof.
  destruct (resume_fetches_missing_chunks_only toy_digest (init (Some 4) origin)
              URL URL resource DEST (Some "c0ffee"%string)
              resumable_world empty_world _ _ _ _
              eq_refl eq_refl origin_serves resumable_world_ok empty_world_fresh
              (surjective_pairing _) (surjective_pairing _))
    as (Hgets & Hfile & _).
  split; [|exact Hfile].
  rewrite Hgets. vm_compute. reflexivity.
Defined.

End ResumeClaims.

Module UnverifiedClaims.
Import Planner PlannerProps ChunkedDownloader Vocabulary FetcherProps PhaseProps
       LedgerProps RunProps ResumeProps Scenarios ScenarioProps Stated.




End UnverifiedClaims.

(* ===================================================================== *)
(** ** More on the chunk fetcher *)
(* ===================================================================== *)

Module FetcherMore.
Import Planner PlannerProps ChunkedDownloader Vocabulary MoreVocabulary
       FetcherProps PhaseProps.

Section Fetcher.
Variable self : Downloader.

Lemma range_split (n : Z) (k : nat) :
  Z.of_nat k < n ->
  exists rest, range n = range (Z.of_nat k) ++ Z.of_nat k :: rest.
Proof.
  intros Hk. unfold range. rewrite Nat2Z.id.
  replace (Z.to_nat n) with (k + S (Z.to_nat n - S k))%nat by lia.
  rewrite seq_app, map_app. cbn [seq map Nat.add].
  eexists. reflexivity.
Qed.

(** Attempts that raise, followed by an attempt that is answered with 206:
    the loop returns the content of that answer. *)
Lemma retry_loop_recovers (url : string) (s e n : Z) (content : bytes)
    (a : Z) (post : list Z) (pre : list Z) :
  forall (last : option Exn) (w : World),
  (forall j, (j < length pre)%nat ->
     raising (do_get (session self) (requests w + j) url s e) = true) ->
  do_get (session self) (requests w + length pre) url s e = Resp 206 content ->
  exists w',
    retry_loop self (pre ++ a :: post) n url s e last w = (Return content, w')
    /\ trace w' = trace w ++ backoff_schedule url s e n pre ++ [EvGet url s e]
    /\ requests w' = S (requests w + length pre)
    /\ files w' = files w /\ ledgers w' = ledgers w.
Proof.
  induction pre as [|b pre IH]; intros last w Hfail Hgot.
  - cbn [app retry_loop length] in *. unfold attempt_once.
    rewrite Nat.add_0_r in Hgot. rewrite Hgot. cbn.
    eexists. split; [reflexivity|]. cbn. rewrite Nat.add_0_r. auto.
  - cbn [app retry_loop].
    pose proof (Hfail 0%nat ltac:(cbn; lia)) as H0. rewrite Nat.add_0_r in H0.
    destruct (raising_attempt self url s e w H0) as [err ->].
    match goal with |- context [retry_loop _ _ _ _ _ _ _ ?w2] =>
      destruct (IH (Some err) w2) as (w' & -> & Ht & Hr & Hf & Hl) end.
    + intros j Hj. specialize (Hfail (S j) ltac:(cbn; lia)).
      replace (requests w + S j)%nat with (S (requests w + j)) in Hfail by lia.
      destruct (b <? n - 1); cbn; exact Hfail.
    + cbn [length] in Hgot.
      replace (requests w + S (length pre))%nat
        with (S (requests w + length pre)) in Hgot by lia.
      destruct (b <? n - 1); cbn; exact Hgot.
    + exists w'. split; [reflexivity|]. rewrite Ht, Hr, Hf, Hl.
      cbn [backoff_schedule].
      destruct (b <? n - 1); cbn; rewrite <- !app_assoc; cbn;
        (split_and!; [reflexivity | lia | reflexivity | reflexivity]).
Qed.

(** Attempts that neither return nor raise: the loop goes through all of
    them without sleeping and without recording an error. *)
Lemma retry_loop_silent (url : string) (s e n : Z) (attempts : list Z) :
  (forall t, silent (do_get (session self) t url s e) = true) ->
  forall (last : option Exn) (w : World),
  exists w',
    retry_loop self attempts n url s e last w = (Raise (FailedAfter n last), w')
    /\ trace w' = trace w ++ map (fun _ => EvGet url s e) attempts
    /\ clock w' = clock w
    /\ files w' = files w /\ ledgers w' = ledgers w.
Proof.
  intros Hall. induction attempts as [|a rest IH]; intros last w.
  - exists w. cbn. rewrite app_nil_r. auto.
  - cbn [retry_loop]. unfold attempt_once.
    specialize (Hall (requests w)).
    destruct (do_get _ _ _ _ _) as [status content|]; [|discriminate].
    cbn in Hall. apply andb_true_iff in Hall as [Hall H3].
    apply andb_true_iff in Hall as [H1 H2].
    apply negb_true_iff in H1, H2, H3. rewrite H1, H2, H3.
    match goal with |- context [retry_loop _ _ _ _ _ _ _ ?w1] =>
      destruct (IH last w1) as (w' & -> & Ht & Hc & Hf & Hl) end.
    exists w'. split; [reflexivity|]. rewrite Ht, Hc, Hf, Hl. cbn.
    rewrite <- app_assoc. auto.
Qed.

Lemma sum_Z_cons (x : Z) (l : list Z) : sum_Z (x :: l) = x + sum_Z l.
Proof. reflexivity. Qed.

(** Whatever the server does, the time a fetch takes off the clock is the
    sum of the delays it slept. *)
Lemma retry_loop_clock (url : string) (s e n : Z) (attempts : list Z) :
  forall (last : option Exn) (w : World) r w',
  retry_loop self attempts n url s e last w = (r, w') ->
  exists evs, trace w' = trace w ++ evs
              /\ clock w' = clock w + sum_Z (sleeps evs).
Proof.
  induction attempts as [|a rest IH]; intros last w r w' H; cbn [retry_loop] in H.
  - injection H as <- <-. exists []. rewrite app_nil_r. cbn [sleeps].
    change (sum_Z []) with 0. split; [reflexivity|lia].
  - destruct (attempt_once self url s e w) as [att w1] eqn:Hatt.
    assert (w1 = count_request (snd (emit (EvGet url s e) w))) as ->.
    { unfold attempt_once in Hatt.
      destruct (do_get _ _ _ _ _) as [status c|];
        [destruct (status =? 206); [|destruct (status =? 200);
           [|destruct (raises_for_status status)]]|];
        now injection Hatt. }
    destruct att as [content|err|].
    + injection H as <- <-. exists [EvGet url s e].
      cbn [trace clock snd count_request emit sleeps]. change (sum_Z []) with 0.
      split; [reflexivity|lia].
    + apply IH in H as (evs & Ht & Hc). destruct (a <? n - 1).
      * exists (EvGet url s e :: EvSleep (RETRY_DELAY * 2 ^ a) :: evs).
        rewrite Ht, Hc. cbn [trace clock snd sleep count_request emit sleeps].
        rewrite <- !app_assoc, ?sum_Z_cons. cbn [app]. split; [reflexivity|lia].
      * exists (EvGet url s e :: evs).
        rewrite Ht, Hc. cbn [trace clock snd sleep count_request emit sleeps].
        rewrite <- !app_assoc, ?sum_Z_cons. cbn [app]. split; [reflexivity|lia].
    + apply IH in H as (evs & Ht & Hc).
      exists (EvGet url s e :: evs).
      rewrite Ht, Hc. cbn [trace clock snd sleep count_request emit sleeps].
        rewrite <- !app_assoc, ?sum_Z_cons. cbn [app]. split; [reflexivity|lia].
Qed.

(** [sum (RETRY_DELAY * 2 ** a for a in range(k))] *)
Lemma backoff_total (k : nat) :
  sum_Z (map (fun a => RETRY_DELAY * 2 ^ a) (range (Z.of_nat k)))
  = RETRY_DELAY * (2 ^ Z.of_nat k - 1).
Proof.
  induction k as [|k IH]; [reflexivity|].
  replace (Z.of_nat (S k)) with (Z.of_nat k + 1) by lia.
  rewrite range_succ, map_app, sum_Z_app, IH by lia. cbn [map sum_Z fold_right].
  rewrite Z.pow_add_r by lia. change (2 ^ 1) with 2. lia.
Qed.

End Fetcher.

(** X1.  A chunk fetch whose first [k] attempts raise and whose next attempt,
    still within [max_retries], is answered with 206 returns the content of
    that answer: it has made [k + 1] requests, slept
    [RETRY_DELAY * 2 ^ attempt] after each of the failed ones, and touched
    no file. *)
Theorem fetch_recovers_after_failures (self : Downloader) (url : string)
    (start_byte end_byte : Z) (max_retries : option Z) (w : World)
    (k : nat) (content : bytes) :
  Z.of_nat k < effective_retries max_retries ->
  (forall j, (j < k)%nat ->
     raising (do_get (session self) (requests w + j) url start_byte end_byte) = true) ->
  do_get (session self) (requests w + k) url start_byte end_byte
  = Resp 206 content ->
  exists w',
    download_chunk_with_retry self url start_byte end_byte max_retries w
    = (Return content, w')
    /\ length (gets (added w w')) = S k
    /\ sleeps (added w w')
       = map (fun attempt => RETRY_DELAY * 2 ^ attempt) (range (Z.of_nat k))
    /\ files w' = files w /\ ledgers w' = ledgers w.
Proof.
  intros Hk Hfail Hgot. unfold download_chunk_with_retry.
  set (n := effective_retries max_retries) in *.
  destruct (range_split n k Hk) as [post ->].
  assert (length (range (Z.of_nat k)) = k) as Hlen
    by (unfold range; now rewrite length_map, length_seq, Nat2Z.id).
  destruct (retry_loop_recovers self url start_byte end_byte n content
              (Z.of_nat k) post (range (Z.of_nat k)) None w)
    as (w' & Hrun & Ht & _ & Hf & Hl).
  - rewrite Hlen. exact Hfail.
  - rewrite Hlen. exact Hgot.
  - exists w'. split; [exact Hrun|]. rewrite (added_app _ _ _ Ht).
    split_and!; auto.
    + unfold gets. rewrite List.filter_app. fold (gets (backoff_schedule url start_byte end_byte n (range (Z.of_nat k)))).
      rewrite gets_backoff, length_app, length_map, Hlen. cbn. lia.
    + assert (forall l1 l2, sleeps (l1 ++ l2) = sleeps l1 ++ sleeps l2) as Happ.
      { induction l1 as [|ev l1 IH]; intros l2; [reflexivity|].
        destruct ev; cbn; rewrite ?IH; reflexivity. }
      rewrite Happ, sleeps_backoff. cbn. rewrite app_nil_r. f_equal.
      apply forallb_filter_id, forallb_forall. intros a Ha.
      apply list_elem_of_In, elem_of_range in Ha. lia.
Qed.

(** The theorem on a server that times out twice before it answers. *)
Lemma fetch_recovers_after_failures_witness :
  exists w',
    download_chunk_with_retry (init None slow_start) "u" 0 1 None
      (mkWorld ∅ ∅ 0 0 [])
    = (Return [7; 7], w')
    /\ sleeps (added (mkWorld ∅ ∅ 0 0 []) w') = [5; 10].
Proof.
  destruct (fetch_recovers_after_failures (init None slow_start) "u" 0 1 None
              (mkWorld ∅ ∅ 0 0 []) 2 [7; 7]) as (w' & Hrun & _ & Hsleeps & _).
  - reflexivity.
  - intros j Hj. destruct j as [|[|j]]; [reflexivity | reflexivity | lia].
  - reflexivity.
  - exists w'. split; [exact Hrun | exact Hsleeps].
Defined.

(** X2.  A ranged request that is answered, on every attempt, with a status
    that is neither 206 nor 200 nor an error status (a 204 or a 304, say)
    is repeated [max_retries] times back to back, without any sleep, and
    the fetch then raises with no error recorded ("Failed after n attempts:
    None"). *)
Theorem silent_status_is_retried_without_backoff (self : Downloader)
    (url : string) (start_byte end_byte : Z) (max_retries : option Z) (w : World) :
  (forall t, silent (do_get (session self) t url start_byte end_byte) = true) ->
  let n := effective_retries max_retries in
  exists w',
    download_chunk_with_retry self url start_byte end_byte max_retries w
    = (Raise (FailedAfter n None), w')
    /\ added w w' = bare_requests url start_byte end_byte n
    /\ clock w' = clock w
    /\ files w' = files w /\ ledgers w' = ledgers w.
Proof.
  intros Hall n. unfold download_chunk_with_retry. fold n.
  destruct (retry_loop_silent self url start_byte end_byte n (range n) Hall None w)
    as (w' & Hrun & Ht & Hc & Hf & Hl).
  exists w'. rewrite (added_app _ _ _ Ht). auto.
Qed.

Lemma silent_status_is_retried_without_backoff_witness :
  (forall t, silent (do_get (session (init None no_content)) t "u" 0 3) = true)
  /\ exists w',
       download_chunk_with_retry (init None no_content) "u" 0 3 None
         (mkWorld ∅ ∅ 0 0 [])
       = (Raise (FailedAfter 3 None), w')
       /\ added (mkWorld ∅ ∅ 0 0 []) w' = [EvGet "u" 0 3; EvGet "u" 0 3; EvGet "u" 0 3].
Proof.
  split; [intros t; reflexivity|].
  destruct (silent_status_is_retried_without_backoff (init None no_content) "u" 0 3
              None (mkWorld ∅ ∅ 0 0 []) (fun t => eq_refl))
    as (w' & Hrun & Hadd & _).
  exists w'. split; [exact Hrun | exact Hadd].
Defined.

(** X3.  [max_retries or self.MAX_RETRIES]: an explicit 0 means the default
    of 3 attempts, while a negative count means no attempt at all: the fetch
    raises at once without a single request. *)
Theorem negative_retries_never_request (self : Downloader) (url : string)
    (start_byte end_byte : Z) (m : Z) (w : World) :
  m < 0 ->
  download_chunk_with_retry self url start_byte end_byte (Some m) w
  = (Raise (FailedAfter m None), w)
  /\ download_chunk_with_retry self url start_byte end_byte (Some 0) w
     = download_chunk_with_retry self url start_byte end_byte None w.
Proof.
  intros Hm. split; [|reflexivity].
  unfold download_chunk_with_retry, effective_retries.
  replace (m =? 0) with false by lia.
  unfold range. replace (Z.to_nat m) with 0%nat by lia. reflexivity.
Qed.

Lemma negative_retries_never_request_witness :
  -1 < 0
  /\ download_chunk_with_retry (init None no_content) "u" 0 3 (Some (-1))
       (mkWorld ∅ ∅ 0 0 [])
     = (Raise (FailedAfter (-1) None), mkWorld ∅ ∅ 0 0 []).
Proof.
  split; [reflexivity|].
  apply (negative_retries_never_request (init None no_content) "u" 0 3 (-1)
           (mkWorld ∅ ∅ 0 0 [])).
  reflexivity.
Defined.

(** X4.  The time a chunk fetch spends sleeping is bounded: a fetch whose
    every attempt raises has slept [RETRY_DELAY * (2 ^ (n - 1) - 1)]
    seconds in all when it gives up after [n >= 1] attempts, 15 seconds
    with the default of 3. *)
Theorem failing_fetch_sleeps_in_total (self : Downloader) (url : string)
    (start_byte end_byte : Z) (max_retries : option Z) (w : World) :
  (forall t, raising (do_get (session self) t url start_byte end_byte) = true) ->
  let n := effective_retries max_retries in
  1 <= n ->
  clock (snd (download_chunk_with_retry self url start_byte end_byte max_retries w))
  = clock w + RETRY_DELAY * (2 ^ (n - 1) - 1).
Proof.
  intros Hall n Hn.
  destruct (download_chunk_with_retry self url start_byte end_byte max_retries w)
    as [r w'] eqn:Hrun.
  unfold download_chunk_with_retry in Hrun. fold n in Hrun.
  pose proof (retry_loop_clock self url start_byte end_byte n (range n) None w r w' Hrun)
    as (evs & Ht & Hc).
  destruct (retry_loop_all_raise self url start_byte end_byte n (range n) Hall None w)
    as (last & w'' & Hrun' & Ht' & _).
  rewrite Hrun in Hrun'. injection Hrun' as _ <-.
  rewrite Ht in Ht'. apply app_inv_head in Ht'. subst evs.
  cbn [snd]. rewrite Hc, sleeps_backoff, filter_range_below.
  replace (n - 1) with (Z.of_nat (Z.to_nat (n - 1))) at 1 by lia.
  rewrite backoff_total. rewrite Z2Nat.id by lia. reflexivity.
Qed.

Lemma failing_fetch_sleeps_in_total_witness :
  (forall t, raising (do_get (session (init None Scenarios.unreachable)) t "u" 0 3) = true)
  /\ clock (snd (download_chunk_with_retry (init None Scenarios.unreachable) "u" 0 3
                   None (mkWorld ∅ ∅ 0 0 []))) = 15.
Proof.
  split; [intros t; reflexivity|].
  apply (failing_fetch_sleeps_in_total (init None Scenarios.unreachable) "u" 0 3 None
           (mkWorld ∅ ∅ 0 0 []) (fun t => eq_refl)).
  discriminate.
Defined.

End FetcherMore.

(* ===================================================================== *)
(** ** More on whole downloads *)
(* ===================================================================== *)

Module RunMore.
Import Planner PlannerProps ChunkedDownloader Vocabulary MoreVocabulary
       FetcherProps PhaseProps LedgerProps RunProps RetryProps ResumeProps
       EdgeProps.

Section Runs.
Variable sha256_hexdigest : bytes -> string.
Variable self : Downloader.

(** What the tail of a download may change. *)
Lemma tail_frame (dest_path : path) (verify_hash : option string)
    (w : World) r w' :
  Tail sha256_hexdigest dest_path verify_hash w r w' ->
  (forall p, p <> dest_path -> p <> temp_path_of dest_path ->
             files w' !! p = files w !! p)
  /\ (forall p, p <> meta_path_of dest_path -> ledgers w' !! p = ledgers w !! p).
Proof.
  intros [Hnone|content Hc Htr Hbad|content checked r' w3 Hc _ _ Hf Hend].
  - auto.
  - auto.
  - split.
    + intros p Hp1 Hp2. rewrite Hf, lookup_insert_ne, lookup_delete_ne; auto.
    + intros p Hp. destruct Hend as [(_ & _ & -> & _)|(_ & _ & -> & _)]; [reflexivity|].
      now apply lookup_delete_ne.
Qed.

(** A probe that fails stops the download before it touches the disk. *)
Lemma probe_failure (url : string) (dest_path : path)
    (verify_hash : option string) (w : World) :
  probe_fails (session self) (requests w) url ->
  exists cause w',
    download_with_resume sha256_hexdigest self url dest_path verify_hash w
    = (Raise (FileInfoFailed cause), w')
    /\ files w' = files w /\ ledgers w' = ledgers w
    /\ added w w' = [EvHead url].
Proof.
  unfold probe_fails. intros Hfail.
  rewrite download_with_resume_phases. unfold setup, get_file_info.
  unfold mbind, action_bind.
  destruct (do_head _ _ _) as [hr|].
  - rewrite Hfail. eexists _, _. split; [reflexivity|]. cbn.
    split_and!; auto. apply (added_app w). reflexivity.
  - eexists _, _. split; [reflexivity|]. cbn.
    split_and!; auto. apply (added_app w). reflexivity.
Qed.

(** One pass through the [try]: when the ledger is written. *)
Lemma fetch_and_record_ledger (final_url : string) (file_size : Z)
    (meta_path temp_path : path) (chunk_num : Z)
    (completed : gset Z) (metadata : Metadata) (w : World)
    completed' metadata' w' :
  fetch_and_record self final_url file_size meta_path temp_path chunk_num
                   completed metadata w = (Return (completed', metadata'), w') ->
  completed' = {[chunk_num]} ∪ completed
  /\ (Z.of_nat (size completed') mod 10 <> 0 -> ledgers w' = ledgers w)
  /\ (Z.of_nat (size completed') mod 10 = 0 ->
      ledgers w' !! meta_path = Some (ValidJson metadata')).
Proof.
  unfold fetch_and_record, download_chunk_with_retry.
  unfold mbind, action_bind, mret, action_ret.
  destruct (retry_loop _ _ _ _ _ _ _ w) as [[data|e] w1] eqn:Hretry; [|discriminate].
  apply retry_loop_frame in Hretry as (Hf & Hl & _).
  unfold write_chunk.
  destruct (start_byte (chunk_size self) chunk_num <? 0); [discriminate|]. cbn.
  destruct (Z.of_nat (size ({[chunk_num]} ∪ completed)) mod 10 =? 0) eqn:Hmod.
  - apply Z.eqb_eq in Hmod. unfold save_metadata. cbn.
    intros H. injection H as <- <- <-. split; [reflexivity|]. split.
    + intros Hne. contradiction.
    + intros _. apply lookup_insert_eq.
  - apply Z.eqb_neq in Hmod.
    intros H. injection H as <- <- <-. cbn. split; [reflexivity|]. split.
    + intros _. exact Hl.
    + intros Heq. contradiction.
Qed.

Lemma size_add_fresh (i : Z) (completed : gset Z) :
  i ∉ completed -> size ({[i]} ∪ completed) = S (size completed).
Proof.
  intros Hi. rewrite size_union by set_solver. now rewrite size_singleton.
Qed.

(** As long as fewer than ten ordinals are completed, a chunk loop that
    runs to its end never writes the ledger. *)
Lemma chunk_loop_never_saves (final_url : string) (file_size : Z)
    (meta_path temp_path : path) (ordinals : list Z) :
  forall (completed : gset Z) (metadata : Metadata) (w : World)
         completed' metadata' w',
  (size completed + length ordinals < 10)%nat ->
  chunk_loop self final_url file_size meta_path temp_path ordinals
             completed metadata w = (AllFetched completed' metadata', w') ->
  ledgers w' = ledgers w.
Proof.
  induction ordinals as [|i rest IH];
    intros completed metadata w completed' metadata' w' Hsize Hrun;
    cbn [chunk_loop] in Hrun.
  - now injection Hrun as _ _ <-.
  - cbn [length] in Hsize.
    destruct (decide (i ∈ completed)) as [Hin|Hout].
    { eapply IH; [|exact Hrun]. lia. }
    destruct (fetch_and_record _ _ _ _ _ _ _ _ w) as [[[c1 m1]|e] w1] eqn:Hstep;
      [|discriminate].
    apply fetch_and_record_ledger in Hstep as (-> & Hkeep & _).
    pose proof (size_add_fresh i completed Hout) as Hs.
    transitivity (ledgers w1).
    + eapply IH; [|exact Hrun]. lia.
    + apply Hkeep. rewrite Hs. intros Hmod.
      apply Z.mod_divide in Hmod; [|lia]. destruct Hmod as [q Hq]. lia.
Qed.

(** Once ten ordinals are completed the ledger file exists. *)
Lemma chunk_loop_has_saved (final_url : string) (file_size : Z)
    (meta_path temp_path : path) (ordinals : list Z) :
  forall (completed : gset Z) (metadata : Metadata) (w : World)
         completed' metadata' w',
  (size completed < 10)%nat \/ is_Some (ledgers w !! meta_path) ->
  chunk_loop self final_url file_size meta_path temp_path ordinals
             completed metadata w = (AllFetched completed' metadata', w') ->
  (size completed' < 10)%nat \/ is_Some (ledgers w' !! meta_path).
Proof.
  induction ordinals as [|i rest IH];
    intros completed metadata w completed' metadata' w' Hstart Hrun;
    cbn [chunk_loop] in Hrun.
  - now injection Hrun as <- _ <-.
  - destruct (decide (i ∈ completed)) as [Hin|Hout];
      [eapply IH; eassumption|].
    destruct (fetch_and_record _ _ _ _ _ _ _ _ w) as [[[c1 m1]|e] w1] eqn:Hstep;
      [|discriminate].
    pose proof Hstep as Hframe.
    apply fetch_and_record_step, (fetch_step_frame self meta_path temp_path) in Hframe.
    destruct Hframe as (_ & _ & _ & Hkeep & _).
    apply fetch_and_record_ledger in Hstep as (-> & _ & Hsave).
    pose proof (size_add_fresh i completed Hout) as Hs.
    eapply IH; [|exact Hrun].
    destruct Hstart as [Hlt|Hsome]; [|right; auto].
    destruct (decide (size completed = 9%nat)) as [H9|H9].
    + right. rewrite Hsave; [eauto|]. rewrite Hs, H9. reflexivity.
    + left. lia.
Qed.

(** Every request of the chunk loop is the request of one of its own
    ordinals, to the resolved URL. *)
Lemma chunk_loop_requests (final_url : string) (file_size : Z)
    (meta_path temp_path : path) (ordinals : list Z) :
  forall (completed : gset Z) (metadata : Metadata) (w : World) res w',
  chunk_loop self final_url file_size meta_path temp_path ordinals
             completed metadata w = (res, w') ->
  exists evs, trace w' = trace w ++ evs
    /\ forall u s e, EvGet u s e ∈ evs ->
       exists i, (i ∈ ordinals) /\ (i ∉ completed)
                 /\ u = final_url
                 /\ s = start_byte (chunk_size self) i
                 /\ e = end_byte file_size (chunk_size self) i.
Proof.
  induction ordinals as [|i rest IH];
    intros completed metadata w res w' Hrun; cbn [chunk_loop] in Hrun.
  - injection Hrun as <- <-. exists []. rewrite app_nil_r.
    split; [reflexivity|]. intros u s e Hin. now apply elem_of_nil in Hin.
  - destruct (decide (i ∈ completed)) as [Hin|Hout].
    { apply IH in Hrun as (evs & Ht & Hgets). exists evs. split; [exact Ht|].
      intros u s e Hget. destruct (Hgets u s e Hget) as (j & Hj & Hrest).
      exists j. split; [now right | exact Hrest]. }
    destruct (fetch_and_record _ _ _ _ _ _ _ _ w) as [r w1] eqn:Hstep.
    apply fetch_and_record_step in Hstep.
    assert (forall net u s e,
              Forall (fetch_event final_url (start_byte (chunk_size self) i)
                        (end_byte file_size (chunk_size self) i)) net ->
              EvGet u s e ∈ net ->
              exists j, (j ∈ (i :: rest)) /\ (j ∉ completed) /\ u = final_url
                        /\ s = start_byte (chunk_size self) j
                        /\ e = end_byte file_size (chunk_size self) j) as Hnetget.
    { intros net u s e Hnet Hget.
      destruct (get_in_fetch_events _ _ _ _ _ _ _ Hnet Hget) as (-> & -> & ->).
      exists i. split; [now left|]. auto. }
    destruct Hstep as [e0 w1 net Hf Hl Ht1 Hnet
                      |data metadata1 w1 net saved Hnet Hresp Hpos Hf Hlist Hsaved Ht1].
    + injection Hrun as <- <-. unfold save_metadata. cbn.
      eexists. rewrite Ht1, <- app_assoc. split; [reflexivity|].
      intros u s e Hget. apply elem_of_app in Hget as [Hget|Hget]; [eauto|].
      apply list_elem_of_singleton in Hget. discriminate.
    + apply IH in Hrun as (evs & Ht & Hgets).
      eexists. rewrite Ht, Ht1, <- !app_assoc. split; [reflexivity|].
      intros u s e Hget. rewrite !elem_of_app in Hget.
      destruct Hget as [Hget|[Hget|[Hget|Hget]]]; [eauto| | |].
      * apply elem_of_cons in Hget as [?|Hget]; [discriminate|].
        apply list_elem_of_singleton in Hget. discriminate.
      * destruct Hsaved as [[-> _]|[-> _]];
          [now apply elem_of_nil in Hget
          |apply list_elem_of_singleton in Hget; discriminate].
      * destruct (Hgets u s e Hget) as (j & Hj & Hnot & Hrest).
        exists j. split; [now right|]. split; [|exact Hrest].
        intros Hjc. apply Hnot, elem_of_union. now right.
Qed.

End Runs.
End RunMore.

Module RunShapes.
Import Planner PlannerProps ChunkedDownloader Vocabulary MoreVocabulary
       FetcherProps PhaseProps LedgerProps RunProps RetryProps ResumeProps
       EdgeProps RunMore.

(** What a whole download may change on disk. *)
Lemma download_frame
    (sha256_hexdigest : bytes -> string) (self : Downloader)
    (url : string) (dest_path : path) (verify_hash : option string)
    (w : World) r w' :
  download_with_resume sha256_hexdigest self url dest_path verify_hash w
  = (r, w') ->
  (forall p, p <> dest_path -> p <> temp_path_of dest_path ->
             files w' !! p = files w !! p)
  /\ (forall p, p <> meta_path_of dest_path -> ledgers w' !! p = ledgers w !! p).
Proof.
  intros Hrun. apply download_with_resume_run in Hrun.
  destruct Hrun as [e w1 Hsetup
                   |fi md w1 e w2 Hsetup Hloop
                   |fi md w1 cc md' w2 r w3 Hsetup Hloop Htail].
  - apply setup_spec in Hsetup as (Hl & Hf & _). split.
    + intros p _ Hp. now apply Hf.
    + intros p _. now rewrite Hl.
  - destruct (assemble_spec self url dest_path w _ _ _ _ _ Hsetup Hloop)
      as (Hf & Hl & _). split; auto.
  - destruct (assemble_spec self url dest_path w _ _ _ _ _ Hsetup Hloop)
      as (Hf & Hl & _).
    apply tail_frame in Htail as [Hf3 Hl3]. split.
    + intros p Hp1 Hp2. rewrite Hf3, Hf; auto.
    + intros p Hp. rewrite Hl3, Hl; auto.
Qed.


(** What a download that returned [True] has done. *)
Lemma returns_true_spec
    (sha256_hexdigest : bytes -> string) (self : Downloader)
    (url : string) (dest_path : path) (verify_hash : option string)
    (w : World) w' :
  download_with_resume sha256_hexdigest self url dest_path verify_hash w
  = (Return true, w') ->
  (exists content,
     files w' !! dest_path = Some content
     /\ (truthy verify_hash = true ->
         lower (sha256_hexdigest content) = lower (default ""%string verify_hash)))
  /\ files w' !! temp_path_of dest_path = None
  /\ ledgers w' !! meta_path_of dest_path = None
  /\ exists before,
       added w w' = before ++ [EvRename (temp_path_of dest_path) dest_path;
                               EvUnlink (meta_path_of dest_path)].
Proof.
  intros Hrun. apply download_with_resume_run in Hrun.
  inversion Hrun as [e w1 Hsetup
                    |fi md w1 e w2 Hsetup Hloop
                    |fi md w1 cc md' w2 r w3 Hsetup Hloop Htail]; subst.
  destruct (assemble_spec self url dest_path w _ _ _ _ _ Hsetup Hloop)
    as (_ & _ & _ & _ & evs & _ & _ & Ht & _).
  inversion Htail as [Hnone
                     |content Hc Htr Hbad
                     |content checked r' w3 Hc Hchecked Hmatch Hf Hend]; subst.
  destruct Hend as [(_ & Hr & _)|(_ & _ & Hl & Ht3)]; [discriminate|].
  split_and!.
  - exists content. split; [|exact Hmatch]. rewrite Hf. apply lookup_insert_eq.
  - rewrite Hf, lookup_insert_ne by (apply not_eq_sym, temp_neq_dest).
    apply lookup_delete_eq.
  - rewrite Hl. apply lookup_delete_eq.
  - rewrite Ht in Ht3.
    exists (evs ++ (if truthy verify_hash
                    then [EvHash (temp_path_of dest_path) (sha256_hexdigest content)]
                    else [])).
    apply added_app. rewrite Ht3, <- !app_assoc. reflexivity.
Qed.


End RunShapes.

Module RunFacts.
Import Planner PlannerProps ChunkedDownloader Vocabulary MoreVocabulary
       FetcherProps PhaseProps LedgerProps RunProps RetryProps ResumeProps
       EdgeProps RunMore RunShapes Scenarios ScenarioProps.

(** X5.  When the metadata probe fails (the HEAD request gets no answer, or
    a 4xx/5xx status), [download_with_resume] raises "Failed to get file
    info" after that single request: no temporary file is created, no
    ledger is written, no ranged request is made. *)
Theorem failed_probe_touches_nothing
    (sha256_hexdigest : bytes -> string) (self : Downloader)
    (url : string) (dest_path : path) (verify_hash : option string) (w : World) :
  probe_fails (session self) (requests w) url ->
  exists cause w',
    download_with_resume sha256_hexdigest self url dest_path verify_hash w
    = (Raise (FileInfoFailed cause), w')
    /\ files w' = files w /\ ledgers w' = ledgers w
    /\ added w w' = [EvHead url].
Proof. apply probe_failure. Qed.

Lemma failed_probe_touches_nothing_witness :
  probe_fails (session (init None gone)) (requests empty_world) URL
  /\ fst (download_with_resume toy_digest (init None gone) URL DEST None empty_world)
     = Raise (FileInfoFailed (HTTPError 404)).
Proof.
  split; [reflexivity|].
  destruct (failed_probe_touches_nothing toy_digest (init None gone) URL DEST None
              empty_world eq_refl) as (cause & w' & Hrun & _).
  rewrite Hrun. vm_compute in Hrun. injection Hrun as <- _. reflexivity.
Defined.

(** X6.  A download only ever touches its own three files: every other
    artifact file (any path but the destination and its [.tmp]) and every
    other ledger (any path but its [.meta]) is after the call what it was
    before, whatever the server does and however the call ends. *)
Theorem download_touches_only_its_own_files
    (sha256_hexdigest : bytes -> string) (self : Downloader)
    (url : string) (dest_path : path) (verify_hash : option string)
    (w : World) r w' :
  download_with_resume sha256_hexdigest self url dest_path verify_hash w
  = (r, w') ->
  (forall p, p <> dest_path -> p <> temp_path_of dest_path ->
             files w' !! p = files w !! p)
  /\ (forall p, p <> meta_path_of dest_path -> ledgers w' !! p = ledgers w !! p).
Proof. apply download_frame. Qed.

Lemma download_touches_only_its_own_files_witness :
  files (snd (download_with_resume toy_digest (init (Some 4) origin) URL DEST None
                resumable_world)) !! "raw/other"%string
  = files resumable_world !! "raw/other"%string.
Proof.
  apply (download_touches_only_its_own_files toy_digest (init (Some 4) origin) URL
           DEST None resumable_world _ _ (surjective_pairing _)); discriminate.
Defined.

(** X7.  Whenever [download_with_resume] returns [True], the job is
    complete: the destination holds the assembled file, the temporary file
    and the ledger file are gone, the last two things done were the rename
    and then the removal of the ledger; and if a digest was given, the
    published file hashes to it (compared case-insensitively). *)
Theorem true_means_published_and_cleaned
    (sha256_hexdigest : bytes -> string) (self : Downloader)
    (url : string) (dest_path : path) (verify_hash : option string)
    (w : World) w' :
  download_with_resume sha256_hexdigest self url dest_path verify_hash w
  = (Return true, w') ->
  (exists content,
     files w' !! dest_path = Some content
     /\ (truthy verify_hash = true ->
         lower (sha256_hexdigest content) = lower (default ""%string verify_hash)))
  /\ files w' !! temp_path_of dest_path = None
  /\ ledgers w' !! meta_path_of dest_path = None
  /\ exists before,
       added w w' = before ++ [EvRename (temp_path_of dest_path) dest_path;
                               EvUnlink (meta_path_of dest_path)].
Proof. apply returns_true_spec. Qed.

Lemma true_means_published_and_cleaned_witness :
  files (snd (download_with_resume toy_digest (init (Some 4) origin) URL DEST
                (Some "c0ffee"%string) resumable_world)) !! temp_path_of DEST = None
  /\ ledgers (snd (download_with_resume toy_digest (init (Some 4) origin) URL DEST
                     (Some "c0ffee"%string) resumable_world)) !! meta_path_of DEST
     = None.
Proof.
  destruct (download_with_resume toy_digest (init (Some 4) origin) URL DEST
              (Some "c0ffee"%string) resumable_world) as [r w'] eqn:Hrun.
  assert (r = Return true) as -> by (vm_compute in Hrun; now injection Hrun as <- _).
  destruct (true_means_published_and_cleaned toy_digest (init (Some 4) origin) URL
              DEST (Some "c0ffee"%string) resumable_world w' Hrun)
    as (_ & Htemp & Hledger & _).
  split; assumption.
Defined.

(** X8.  A first download (no ledger file on disk) of a resource of fewer
    than ten chunks never returns [True], whatever the server does: the
    ledger is only ever written on a chunk failure or at every tenth
    completed chunk, so when all chunks have arrived and the file has been
    renamed, [meta_path.unlink()] finds no ledger and raises
    [FileNotFoundError]. *)
Theorem small_first_download_never_returns_true
    (sha256_hexdigest : bytes -> string) (self : Downloader)
    (url : string) (dest_path : path) (verify_hash : option string)
    (w : World) r w' :
  ledgers w !! meta_path_of dest_path = None ->
  (forall hr, do_head (session self) (requests w) url = Some hr ->
     total_chunks (default 0 (hr_content_length hr)) (chunk_size self) < 10) ->
  download_with_resume sha256_hexdigest self url dest_path verify_hash w
  = (r, w') ->
  r <> Return true
  /\ (EvRename (temp_path_of dest_path) dest_path ∈ added w w' ->
      r = Raise (FileNotFoundError (meta_path_of dest_path))).
Proof.
  intros Hnone Hsmall Hrun. apply download_with_resume_run in Hrun.
  assert (forall evs, forallb assembling_event evs = true ->
            EvRename (temp_path_of dest_path) dest_path ∉ evs) as Hnoren
    by (intros evs; apply rename_not_assembling).
  destruct Hrun as [e w1 Hsetup
                   |fi md w1 e w2 Hsetup Hloop
                   |fi md w1 cc md' w2 r w3 Hsetup Hloop Htail].
  - split; [discriminate|]. intros Hin. exfalso.
    apply setup_spec in Hsetup as (_ & _ & (evs & Ht & Hevs) & _).
    rewrite (added_app _ _ _ Ht) in Hin. apply (Hnoren evs); [|exact Hin].
    eapply forallb_weaken; [|exact Hevs].
    intros ev Hev. unfold assembling_event. now rewrite Hev.
  - split; [discriminate|]. intros Hin. exfalso.
    destruct (assemble_spec self url dest_path w _ _ _ _ _ Hsetup Hloop)
      as (_ & _ & _ & _ & evs & _ & _ & Ht & Hevs & _).
    rewrite (added_app _ _ _ Ht) in Hin. now apply (Hnoren evs).
  - destruct (assemble_spec self url dest_path w _ _ _ _ _ Hsetup Hloop)
      as (_ & _ & _ & _ & evs & _ & _ & Ht & Hevs & _).
    assert (ledgers w2 !! meta_path_of dest_path = None) as Hnone2.
    { destruct (setup_probe self url dest_path w _ _ _ Hsetup) as (hr & Hhr & Hsize & _).
      pose proof (Hsmall hr Hhr) as Hlt. rewrite <- Hsize in Hlt.
      pose proof (setup_spec self url dest_path w _ _ Hsetup) as (Hl1 & _ & _ & Hret).
      destruct (Hret _ _ eq_refl) as (_ & Hlist & _).
      unfold run_chunks in Hloop. apply chunk_loop_never_saves in Hloop.
      - now rewrite Hloop, Hl1.
      - rewrite Hlist. unfold loaded_chunks. rewrite Hnone.
        change (size (list_to_set [] : gset Z)) with 0%nat.
        unfold range. rewrite length_map, length_seq. lia. }
    destruct Htail as [Hnotemp
                      |content Hc _ Hbad
                      |content checked r w3 Hc Hchecked Hmatch Hf3 Hend].
    + split; [discriminate|]. intros Hin. exfalso.
      rewrite (added_app _ _ _ Ht) in Hin. now apply (Hnoren evs).
    + split; [discriminate|]. intros Hin. exfalso.
      assert (trace (snd (emit (EvHash (temp_path_of dest_path)
                                   (sha256_hexdigest content)) w2))
              = trace w ++ evs ++ [EvHash (temp_path_of dest_path)
                                     (sha256_hexdigest content)]) as Ht3
        by (simpl; rewrite Ht, <- app_assoc; reflexivity).
      rewrite (added_app _ _ _ Ht3) in Hin.
      apply elem_of_app in Hin as [Hin|Hin]; [now apply (Hnoren evs)|].
      apply list_elem_of_singleton in Hin. discriminate.
    + destruct Hend as [(_ & -> & _)|(Hsome & _)].
      * split; [discriminate | reflexivity].
      * rewrite Hnone2 in Hsome. now destruct Hsome.
Qed.

Lemma small_first_download_never_returns_true_witness :
  ledgers empty_world !! meta_path_of DEST = None
  /\ fst (download_with_resume toy_digest (init (Some 4) origin) URL DEST None
            empty_world)
     = Raise (FileNotFoundError (meta_path_of DEST)).
Proof.
  split; [reflexivity|].
  eapply (small_first_download_never_returns_true toy_digest (init (Some 4) origin)
            URL DEST None empty_world).
  - reflexivity.
  - intros hr Hhr. injection Hhr as <-. reflexivity.
  - apply surjective_pairing.
  - apply list_elem_of_In. vm_compute. do 12 right. left. reflexivity.
Defined.

(** X9.  Every ranged request a download makes is the request of one chunk
    of its plan, sent to the URL the probe resolved to (not to the URL it
    was given): the range is [start_byte .. end_byte] of an ordinal of
    [range(total_chunks)] for the size the probe reported, and that ordinal
    is not one the ledger on disk recorded as completed. *)
Theorem requests_are_planned_chunks
    (sha256_hexdigest : bytes -> string) (self : Downloader)
    (url : string) (dest_path : path) (verify_hash : option string)
    (w : World) r w' :
  download_with_resume sha256_hexdigest self url dest_path verify_hash w
  = (r, w') ->
  forall u s e, EvGet u s e ∈ added w w' ->
  exists hr i,
    do_head (session self) (requests w) url = Some hr
    /\ 0 <= i < total_chunks (default 0 (hr_content_length hr)) (chunk_size self)
    /\ (i ∉ loaded_chunks w (meta_path_of dest_path))
    /\ u = hr_url hr
    /\ s = start_byte (chunk_size self) i
    /\ e = end_byte (default 0 (hr_content_length hr)) (chunk_size self) i.
Proof.
  intros Hrun u s e Hin. apply download_with_resume_run in Hrun.
  assert (forall evs, forallb setup_event evs = true -> EvGet u s e ∉ evs) as Hnosetup.
  { intros evs Hevs H. rewrite forallb_forall in Hevs.
    apply list_elem_of_In, Hevs in H. discriminate. }
  assert (forall fi md w1 res w2 evs0,
            setup self url dest_path w = (Return (fi, md), w1) ->
            run_chunks self dest_path fi md w1 = (res, w2) ->
            trace w1 = trace w ++ evs0 ->
            exists evs, trace w2 = trace w ++ evs0 ++ evs
              /\ (EvGet u s e ∈ evs ->
                  exists hr i,
                    do_head (session self) (requests w) url = Some hr
                    /\ 0 <= i < total_chunks (default 0 (hr_content_length hr))
                                             (chunk_size self)
                    /\ (i ∉ loaded_chunks w (meta_path_of dest_path))
                    /\ u = hr_url hr
                    /\ s = start_byte (chunk_size self) i
                    /\ e = end_byte (default 0 (hr_content_length hr))
                                    (chunk_size self) i)) as Hloopget.
  { intros fi md w1 res w2 evs0 Hsetup Hloop Ht0.
    destruct (setup_probe self url dest_path w _ _ _ Hsetup) as (hr & Hhr & Hsize & Hurl).
    pose proof (setup_spec self url dest_path w _ _ Hsetup) as (_ & _ & _ & Hret).
    destruct (Hret _ _ eq_refl) as (_ & Hlist & _).
    unfold run_chunks in Hloop.
    apply chunk_loop_requests in Hloop as (evs & Ht & Hgets).
    exists evs. split; [rewrite Ht, Ht0, <- app_assoc; reflexivity|].
    intros Hget. destruct (Hgets u s e Hget) as (i & Hi & Hnot & -> & -> & ->).
    exists hr, i. rewrite <- Hsize, <- Hurl. split_and!; auto.
    - apply elem_of_range in Hi. lia.
    - apply elem_of_range in Hi. lia.
    - intros Hl. apply Hnot. rewrite Hlist. now apply elem_of_list_to_set. }
  destruct Hrun as [e0 w1 Hsetup
                   |fi md w1 e0 w2 Hsetup Hloop
                   |fi md w1 cc md' w2 r w3 Hsetup Hloop Htail].
  - apply setup_spec in Hsetup as (_ & _ & (evs & Ht & Hevs) & _).
    rewrite (added_app _ _ _ Ht) in Hin. now apply Hnosetup in Hin.
  - pose proof (setup_spec self url dest_path w _ _ Hsetup)
      as (_ & _ & (evs0 & Ht0 & Hevs0) & _).
    destruct (Hloopget _ _ _ _ _ _ Hsetup Hloop Ht0) as (evs & Ht & Hget).
    rewrite (added_app _ _ _ Ht), elem_of_app in Hin.
    destruct Hin as [Hin|Hin]; [now apply Hnosetup in Hin | auto].
  - pose proof (setup_spec self url dest_path w _ _ Hsetup)
      as (_ & _ & (evs0 & Ht0 & Hevs0) & _).
    destruct (Hloopget _ _ _ _ _ _ Hsetup Hloop Ht0) as (evs & Ht & Hget).
    apply tail_events in Htail as (tail & Ht3 & Htail).
    rewrite Ht, <- !app_assoc in Ht3.
    rewrite (added_app _ _ _ Ht3), !elem_of_app in Hin.
    destruct Hin as [Hin|[Hin|Hin]]; [now apply Hnosetup in Hin | auto |].
    exfalso. rewrite forallb_forall in Htail.
    apply list_elem_of_In, Htail in Hin. discriminate.
Qed.

Lemma requests_are_planned_chunks_witness :
  (EvGet URL 8 9 ∈ added resumable_world
                    (snd (download_with_resume toy_digest (init (Some 4) origin) URL
                            DEST None resumable_world)))
  /\ exists hr i,
       do_head origin 0 URL = Some hr
       /\ 0 <= i < total_chunks (default 0 (hr_content_length hr)) 4
       /\ 8 = start_byte 4 i.
Proof.
  assert (EvGet URL 8 9 ∈ added resumable_world
            (snd (download_with_resume toy_digest (init (Some 4) origin) URL
                    DEST None resumable_world))) as Hin
    by (apply list_elem_of_In; vm_compute; do 2 right; left; reflexivity).
  split; [exact Hin|].
  destruct (requests_are_planned_chunks toy_digest (init (Some 4) origin) URL DEST
              None resumable_world _ _ (surjective_pairing _) _ _ _ Hin)
    as (hr & i & Hhr & Hi & _ & _ & Hs & _).
  exists hr, i. auto.
Defined.

End RunFacts.

Module ServedProps.
Import Planner PlannerProps ChunkedDownloader Vocabulary MoreVocabulary
       FetcherProps PhaseProps LedgerProps RunProps RetryProps ResumeProps
       EdgeProps RunMore Scenarios ScenarioProps.

Lemma range_covers_size (n : Z) (done : gset Z) :
  (forall i, i ∈ range n -> i ∈ done) -> (Z.to_nat n <= size done)%nat.
Proof.
  intros Hall.
  assert (NoDup (range n)) as Hnd.
  { unfold range. apply NoDup_fmap_2; [intros a b; lia | apply NoDup_seq]. }
  assert (length (range n) = Z.to_nat n) as Hlen
    by (unfold range; now rewrite length_map, length_seq).
  rewrite <- Hlen, <- (size_list_to_set (C := gset Z)) by exact Hnd.
  apply subseteq_size. intros i Hi. apply elem_of_list_to_set in Hi. auto.
Qed.

(** The outcome of a download against a serving server. *)
Lemma served_outcome
    (sha256_hexdigest : bytes -> string) (self : Downloader)
    (url final_url : string) (content : bytes) (dest_path : path)
    (verify_hash : option string) (w : World) :
  0 < chunk_size self ->
  content <> [] ->
  serves (session self) url final_url content ->
  fresh dest_path w \/ resumable self dest_path content w ->
  (truthy verify_hash = true ->
   lower (sha256_hexdigest content) = lower (default ""%string verify_hash)) ->
  exists r w',
    download_with_resume sha256_hexdigest self url dest_path verify_hash w = (r, w')
    /\ files w' !! dest_path = Some content
    /\ files w' !! temp_path_of dest_path = None
    /\ (is_Some (ledgers w !! meta_path_of dest_path)
        \/ 10 <= total_chunks (Z.of_nat (length content)) (chunk_size self) ->
        r = Return true /\ ledgers w' !! meta_path_of dest_path = None)
    /\ (ledgers w !! meta_path_of dest_path = None ->
        total_chunks (Z.of_nat (length content)) (chunk_size self) < 10 ->
        r = Raise (FileNotFoundError (meta_path_of dest_path))).
Proof.
  intros Hcs Hne Hserves Hstart Hdigest.
  assert (0 < Z.of_nat (length content)) as HL
    by (destruct content; [congruence | cbn [length]; lia]).
  pose proof (serves_offers _ _ _ _ Hserves) as Hoff.
  destruct Hserves as [_ Hans].
  set (n := total_chunks (Z.of_nat (length content)) (chunk_size self)).
  destruct (setup_served self url final_url content dest_path Hcs HL Hoff w Hstart)
    as (fi & md & w1 & local & Hsetup & Hurl & Hsize & Hlocal & Hag).
  pose proof (setup_spec self url dest_path w _ _ Hsetup) as (Hl1 & _ & _ & Hret).
  destruct (Hret _ _ eq_refl) as (_ & Hlist & _).
  destruct (chunk_loop_served self final_url content dest_path Hcs HL Hans
              (range n) (NoDup_range self content n)
              (fun i Hi => proj1 (elem_of_range n i) Hi)
              (list_to_set (loaded_chunks w (meta_path_of dest_path))) md w1 local
              Hlocal Hag)
    as (done' & md' & w2 & local' & evs & Hrun & Hl' & Hag' & _ & Hall & _ & _).
  assert (run_chunks self dest_path fi md w1 = (AllFetched done' md', w2)) as Hloop.
  { unfold run_chunks. rewrite Hurl, Hsize, Hlist. exact Hrun. }
  assert (local' = content) as ->.
  { apply (agrees_everywhere self content Hcs done'); [exact Hag'|].
    intros i Hi. now apply Hall, elem_of_range. }
  destruct (download_with_resume sha256_hexdigest self url dest_path verify_hash w)
    as [r w'] eqn:Hdl.
  exists r, w'. split; [reflexivity|].
  rewrite download_with_resume_phases, Hsetup, Hloop in Hdl.
  apply verify_and_publish_tail in Hdl.
  inversion Hdl as [Hnone
                   |c Hc Htr Hbad
                   |c checked r' w3 Hc Hchecked Hmatch Hf Hend]; subst.
  - rewrite Hl' in Hnone. discriminate.
  - rewrite Hl' in Hc. injection Hc as <-. exfalso. now apply Hbad, Hdigest.
  - rewrite Hl' in Hc. injection Hc as <-.
    split; [rewrite Hf; apply lookup_insert_eq|].
    split.
    { rewrite Hf, lookup_insert_ne by (apply not_eq_sym, temp_neq_dest).
      apply lookup_delete_eq. }
    split.
    + intros Hok.
      assert (is_Some (ledgers w2 !! meta_path_of dest_path)) as Hsome.
      { destruct (ledgers w !! meta_path_of dest_path) as [mf|] eqn:Hledger.
        - destruct (assemble_spec self url dest_path w _ _ _ _ _ Hsetup Hloop)
            as (_ & _ & _ & Hm & _).
          apply Hm. rewrite Hledger. eauto.
        - destruct Hok as [[? Hs]|Hten]; [discriminate|].
          assert ((size (list_to_set (loaded_chunks w (meta_path_of dest_path))
                           : gset Z) < 10)%nat
                  \/ is_Some (ledgers w1 !! meta_path_of dest_path)) as Hzero.
          { left. unfold loaded_chunks. rewrite Hledger.
            change (size (list_to_set [] : gset Z)) with 0%nat. lia. }
          destruct (chunk_loop_has_saved _ _ _ _ _ _ _ _ _ _ _ _ Hzero Hrun)
            as [Hlt|Hs]; [|exact Hs].
          apply range_covers_size in Hall. fold n in Hten. lia. }
      destruct Hend as [(Hnone & _)|(_ & -> & Hl3 & _)].
      * rewrite Hnone in Hsome. now destruct Hsome.
      * split; [reflexivity|]. rewrite Hl3. apply lookup_delete_eq.
    + intros Hnone Hsmall. fold n in Hsmall.
      apply chunk_loop_never_saves in Hrun.
      * destruct Hend as [(_ & -> & _)|(Hsome & _)]; [reflexivity|].
        rewrite Hrun, Hl1, Hnone in Hsome. now destruct Hsome.
      * unfold loaded_chunks. rewrite Hnone.
        change (size (list_to_set [] : gset Z)) with 0%nat.
        unfold range. rewrite length_map, length_seq. lia.
Qed.




End ServedProps.

Module ServedFacts.
Import Planner PlannerProps ChunkedDownloader Vocabulary MoreVocabulary
       FetcherProps PhaseProps LedgerProps RunProps RetryProps ResumeProps
       EdgeProps RunMore ServedProps Scenarios ScenarioProps.

(** X10.  Against a server that serves the resource, starting from nothing or
    from what an interrupted run left behind, and with no digest or the
    right one, a download always publishes: the destination holds exactly
    the resource and the temporary file is gone.  It returns [True] when
    the ledger file existed at the start or the plan has ten chunks or
    more; started from nothing with fewer than ten chunks it raises
    [FileNotFoundError] from [meta_path.unlink()], after the rename. *)
Theorem served_download_outcome
    (sha256_hexdigest : bytes -> string) (self : Downloader)
    (url final_url : string) (content : bytes) (dest_path : path)
    (verify_hash : option string) (w : World) :
  0 < chunk_size self ->
  content <> [] ->
  serves (session self) url final_url content ->
  fresh dest_path w \/ resumable self dest_path content w ->
  (truthy verify_hash = true ->
   lower (sha256_hexdigest content) = lower (default ""%string verify_hash)) ->
  exists r w',
    download_with_resume sha256_hexdigest self url dest_path verify_hash w = (r, w')
    /\ files w' !! dest_path = Some content
    /\ files w' !! temp_path_of dest_path = None
    /\ (is_Some (ledgers w !! meta_path_of dest_path)
        \/ 10 <= total_chunks (Z.of_nat (length content)) (chunk_size self) ->
        r = Return true /\ ledgers w' !! meta_path_of dest_path = None)
    /\ (ledgers w !! meta_path_of dest_path = None ->
        total_chunks (Z.of_nat (length content)) (chunk_size self) < 10 ->
        r = Raise (FileNotFoundError (meta_path_of dest_path))).
Proof. apply served_outcome. Qed.

Lemma served_download_outcome_witness :
  exists w',
    download_with_resume toy_digest (init (Some 4) origin) URL DEST
      (Some "c0ffee"%string) resumable_world = (Return true, w')
    /\ files w' !! DEST = Some resource.
Proof.
  destruct (served_download_outcome toy_digest (init (Some 4) origin) URL URL
              resource DEST (Some "c0ffee"%string) resumable_world)
    as (r & w' & Hrun & Hdest & _ & Htrue & _).
  - reflexivity.
  - discriminate.
  - exact origin_serves.
  - right. exact resumable_world_ok.
  - intros _. reflexivity.
  - destruct Htrue as [-> _]; [left; vm_compute; eauto|].
    exists w'. split; [exact Hrun | exact Hdest].
Defined.



End ServedFacts.

(* ===================================================================== *)
(** ** Content packages *)
(* ===================================================================== *)

Module PackageProps.
Import Planner PlannerProps ChunkedDownloader Vocabulary MoreVocabulary
       FetcherProps PhaseProps RunProps RunMore RunShapes.





Section Package.
Variable sha256_hexdigest : bytes -> string.
Variable self : Downloader.

(** The manifest download: what it returns and what it leaves. *)
Lemma download_manifest_spec (manifest_url : string) (dest_dir : path)
    (w : World) r w1 :
  download_manifest self manifest_url dest_dir w = (r, w1) ->
  files w1 = files w /\ ledgers w1 = ledgers w
  /\ match r with
     | Return manifest =>
         (exists status,
            do_get_manifest (session self) (requests w) manifest_url
            = ManifestResp status (Some manifest)
            /\ raises_for_status status = false)
         /\ trace w1 = trace w ++ manifest_events manifest_url dest_dir
     | Raise _ =>
         manifest_fails (session self) (requests w) manifest_url
         /\ trace w1 = trace w ++ [EvGetManifest manifest_url]
     end.
Proof.
  unfold download_manifest, manifest_fails, manifest_events.
  destruct (do_get_manifest _ _ _) as [status [manifest|]|];
    [destruct (raises_for_status status) eqn:Hst| destruct (raises_for_status status) eqn:Hst |];
    intros H; injection H as <- <-; cbn; split_and!; eauto.
  rewrite <- app_assoc. reflexivity.
Qed.


(** The package, once the manifest has arrived. *)
Lemma package_unfold (manifest_url : string) (dest_dir : path)
    (module : option string) (w : World) :
  download_content_package sha256_hexdigest self manifest_url dest_dir module w
  = match download_manifest self manifest_url dest_dir w with
    | (Raise _, w1) => (false, w1)
    | (Return manifest, w1) =>
        match select_modules manifest module with
        | None => (false, w1)
        | Some modules_to_download =>
            match download_modules sha256_hexdigest self dest_dir
                                   modules_to_download true w1 with
            | (Return b, w') => (b, w')
            | (Raise _, w') => (false, w')
            end
        end
    end.
Proof.
  unfold download_content_package. unfold_action.
  destruct (download_manifest self manifest_url dest_dir w) as [[manifest|e] w1];
    [|reflexivity].
  destruct (select_modules manifest module); reflexivity.
Qed.

Lemma download_modules_single (dest_dir name : string) (module_info : ModuleInfo)
    (w : World) :
  download_modules sha256_hexdigest self dest_dir [(name, module_info)] true w
  = download_module sha256_hexdigest self dest_dir name module_info true w.
Proof.
  cbn [download_modules]. unfold_action.
  now destruct (download_module _ _ _ _ _ _ w) as [[b|e] w'].
Qed.

End Package.
End PackageProps.

Module PackageFacts.
Import Planner PlannerProps ChunkedDownloader Vocabulary MoreVocabulary
       FetcherProps PhaseProps RunProps RunMore RunShapes PackageProps
       Scenarios ScenarioProps.

(** X12.  When the manifest cannot be fetched (no answer, an error status, or
    a body that is not JSON), [download_content_package] returns [False]
    after that one request: no manifest file is written, no artifact is
    probed, and no file or ledger changes. *)
Theorem manifest_failure_fails_package
    (sha256_hexdigest : bytes -> string) (self : Downloader)
    (manifest_url : string) (dest_dir : path) (module : option string)
    (w : World) :
  manifest_fails (session self) (requests w) manifest_url ->
  exists w',
    download_content_package sha256_hexdigest self manifest_url dest_dir module w
    = (false, w')
    /\ added w w' = [EvGetManifest manifest_url]
    /\ files w' = files w /\ ledgers w' = ledgers w.
Proof.
  intros Hfail. rewrite package_unfold.
  destruct (download_manifest self manifest_url dest_dir w) as [[manifest|e] w1] eqn:Hm;
    apply download_manifest_spec in Hm as (Hf & Hl & Hr).
  - exfalso. destruct Hr as [(status & Hresp & Hst) _].
    unfold manifest_fails in Hfail. rewrite Hresp in Hfail.
    destruct Hfail; congruence.
  - destruct Hr as [_ Ht]. exists w1. split_and!; auto. now apply added_app.
Qed.

Lemma manifest_failure_fails_package_witness :
  exists w',
    download_content_package toy_digest (init None origin) "http://host/m" "raw"
      None empty_world = (false, w')
    /\ added empty_world w' = [EvGetManifest "http://host/m"].
Proof.
  destruct (manifest_failure_fails_package toy_digest (init None origin)
              "http://host/m" "raw" None empty_world I)
    as (w' & Hrun & Hadd & _).
  exists w'. split; [exact Hrun | exact Hadd].
Defined.

(** X13.  A named module is looked up under ['modules'] only, and the default
    is the top-level ['core'] entry only.  When the lookup misses (the name
    is not under ['modules'], or no module is named and there is no
    top-level ['core']) the package returns [False] having downloaded and
    saved the manifest and nothing else. *)
Theorem unlisted_module_fails_package
    (sha256_hexdigest : bytes -> string) (self : Downloader)
    (manifest_url : string) (dest_dir : path) (module : option string)
    (w : World) (status : Z) (manifest : Manifest) :
  do_get_manifest (session self) (requests w) manifest_url
  = ManifestResp status (Some manifest) ->
  raises_for_status status = false ->
  (truthy module = true
   /\ default ∅ (modules manifest) !! default ""%string module = None)
  \/ (truthy module = false /\ core manifest = None) ->
  exists w',
    download_content_package sha256_hexdigest self manifest_url dest_dir module w
    = (false, w')
    /\ added w w' = manifest_events manifest_url dest_dir
    /\ files w' = files w /\ ledgers w' = ledgers w.
Proof.
  intros Hresp Hst Hmiss. rewrite package_unfold.
  destruct (download_manifest self manifest_url dest_dir w) as [[m|e] w1] eqn:Hm;
    apply download_manifest_spec in Hm as (Hf & Hl & Hr).
  - destruct Hr as [(status' & Hresp' & _) Ht].
    rewrite Hresp in Hresp'. injection Hresp' as _ <-.
    assert (select_modules manifest module = None) as ->.
    { unfold select_modules.
      destruct Hmiss as [[-> ->]|[-> ->]]; reflexivity. }
    exists w1. split_and!; auto. now apply added_app.
  - exfalso. destruct Hr as [Hfail _]. unfold manifest_fails in Hfail.
    rewrite Hresp in Hfail. destruct Hfail; congruence.
Qed.

(** Asking for the module ["core"] by name, where the manifest has it at
    the top level only. *)
Lemma unlisted_module_fails_package_witness :
  exists w',
    download_content_package toy_digest (init None (depot zim_only))
      "http://host/m" "raw" (Some "core"%string) empty_world = (false, w')
    /\ added empty_world w' = manifest_events "http://host/m" "raw".
Proof.
  destruct (unlisted_module_fails_package toy_digest (init None (depot zim_only))
              "http://host/m" "raw" (Some "core"%string) empty_world 200
              (mkManifest None (Some zim_only)) eq_refl eq_refl)
    as (w' & Hrun & Hadd & _).
  - left. split; reflexivity.
  - exists w'. split; [exact Hrun | exact Hadd].
Defined.

(** X14.  A selected descriptor that has neither a ['zim_url'] nor an
    ['index_url'] key makes the package succeed vacuously: it returns
    [True] having fetched and saved the manifest and nothing else.  A
    descriptor that has a URL but not the matching file name fails on the
    missing key: the package returns [False] before any artifact is
    probed. *)
Theorem descriptor_without_keys
    (sha256_hexdigest : bytes -> string) (self : Downloader)
    (manifest_url : string) (dest_dir : path) (module : option string)
    (w : World) (status : Z) (manifest : Manifest)
    (name : string) (module_info : ModuleInfo) :
  do_get_manifest (session self) (requests w) manifest_url
  = ManifestResp status (Some manifest) ->
  raises_for_status status = false ->
  select_modules manifest module = Some [(name, module_info)] ->
  exists w1,
    added w w1 = manifest_events manifest_url dest_dir
    /\ files w1 = files w /\ ledgers w1 = ledgers w
    /\ (zim_url module_info = None -> index_url module_info = None ->
        download_content_package sha256_hexdigest self manifest_url dest_dir
          module w = (true, w1))
    /\ (lacks_filename module_info ->
        download_content_package sha256_hexdigest self manifest_url dest_dir
          module w = (false, w1)).
Proof.
  intros Hresp Hst Hsel. rewrite package_unfold.
  destruct (download_manifest self manifest_url dest_dir w) as [[m|e] w1] eqn:Hm;
    apply download_manifest_spec in Hm as (Hf & Hl & Hr).
  2:{ exfalso. destruct Hr as [Hfail _]. unfold manifest_fails in Hfail.
      rewrite Hresp in Hfail. destruct Hfail; congruence. }
  destruct Hr as [(status' & Hresp' & _) Ht].
  rewrite Hresp in Hresp'. injection Hresp' as _ <-.
  rewrite Hsel, download_modules_single.
  unfold download_module, download_index, lacks_filename. unfold_action.
  exists w1. split; [now apply added_app|]. split; [exact Hf|]. split; [exact Hl|].
  split.
  - intros -> ->. reflexivity.
  - intros [[[u ->] ->]|(-> & [u ->] & ->)]; reflexivity.
Qed.

Lemma descriptor_without_keys_witness :
  download_content_package toy_digest (init None (depot keyless))
    "http://host/m" "raw" None empty_world
  = (true, mkWorld ∅ ∅ 1 0 (manifest_events "http://host/m" "raw")).
Proof.
  destruct (descriptor_without_keys toy_digest (init None (depot keyless))
              "http://host/m" "raw" None empty_world 200
              (mkManifest None (Some keyless)) "core" keyless
              eq_refl eq_refl eq_refl)
    as (w1 & _ & _ & _ & Htrue & _).
  rewrite (Htrue eq_refl eq_refl). vm_compute in Htrue.
  specialize (Htrue eq_refl eq_refl). now injection Htrue as <-.
Defined.

(** X15.  When the ZIM download of a module does not return [True] (it
    returns [False], or raises), the package returns [False] and the index
    of that module is not attempted: the package leaves the world exactly
    as the ZIM download left it. *)
Theorem failed_zim_skips_index
    (sha256_hexdigest : bytes -> string) (self : Downloader)
    (manifest_url : string) (dest_dir : path) (module : option string)
    (w : World) (status : Z) (manifest : Manifest)
    (name : string) (module_info : ModuleInfo) (url filename : string)
    (r : Outcome bool) (w2 : World) :
  do_get_manifest (session self) (requests w) manifest_url
  = ManifestResp status (Some manifest) ->
  raises_for_status status = false ->
  select_modules manifest module = Some [(name, module_info)] ->
  zim_url module_info = Some url ->
  zim_filename module_info = Some filename ->
  download_with_resume sha256_hexdigest self url
    (join_path dest_dir name filename) (zim_sha256 module_info)
    (snd (download_manifest self manifest_url dest_dir w)) = (r, w2) ->
  r <> Return true ->
  download_content_package sha256_hexdigest self manifest_url dest_dir module w
  = (false, w2).
Proof.
  intros Hresp Hst Hsel Hurl Hname Hzim Hr. rewrite package_unfold.
  destruct (download_manifest self manifest_url dest_dir w) as [[m|e] w1] eqn:Hm;
    pose proof (download_manifest_spec _ _ _ _ _ _ Hm) as (_ & _ & Hspec).
  2:{ exfalso. destruct Hspec as [Hfail _]. unfold manifest_fails in Hfail.
      rewrite Hresp in Hfail. destruct Hfail; congruence. }
  destruct Hspec as [(status' & Hresp' & _) _].
  rewrite Hresp in Hresp'. injection Hresp' as _ <-.
  rewrite Hsel, download_modules_single.
  unfold download_module. rewrite Hurl, Hname. unfold_action.
  cbn [snd] in Hzim. rewrite Hzim.
  destruct r as [[|]|e]; [congruence | reflexivity | reflexivity].
Qed.

(** The ZIM of the [core] module is refused by the integrity check: the
    package reports failure. *)
Lemma failed_zim_skips_index_witness :
  fst (download_content_package toy_digest
         (init (Some 1)
            (depot (mkModuleInfo (Some URL) (Some "f.zim"%string)
                      (Some "0bad"%string) (Some URL) (Some "f.idx"%string) None)))
         "http://host/m" "raw" None empty_world) = false.
Proof.
  erewrite (failed_zim_skips_index toy_digest _ "http://host/m" "raw" None
              empty_world 200 _ "core" _ URL "f.zim" (Return false));
    [reflexivity | reflexivity | reflexivity | reflexivity | reflexivity
    | reflexivity | | discriminate].
  vm_compute. reflexivity.
Defined.



End PackageFacts.

(* ===================================================================== *)
(** ** The command line *)
(* ===================================================================== *)

Module CliProps.
Import Planner ChunkedDownloader Vocabulary MoreVocabulary Cli.

Lemma has_slash_mentions (s : string) : has_slash s = mentions "/" s.
Proof. induction s as [|c s IH]; [reflexivity|]. cbn. now rewrite IH. Qed.

Lemma basename_no_slash (p : string) : has_slash (basename p) = false.
Proof.
  induction p as [|c p IH]; [reflexivity|].
  cbn [basename]. destruct (has_slash (String c p)) eqn:Hs; [exact IH | exact Hs].
Qed.

(** The base name is a part of the path. *)
Lemma basename_mentions (d : ascii) (p : string) :
  mentions d p = false -> mentions d (basename p) = false.
Proof.
  induction p as [|c p IH]; [reflexivity|].
  cbn [basename]. destruct (has_slash (String c p)); [|auto].
  cbn [mentions]. intros H. apply orb_false_iff in H as [_ H]. auto.
Qed.

Lemma basename_bare (p : string) : has_slash p = false -> basename p = p.
Proof. destruct p as [|c p]; [reflexivity|]. cbn [basename]. now intros ->. Qed.

Lemma has_slash_app (a b : string) :
  has_slash (a +:+ b) = has_slash a || has_slash b.
Proof.
  induction a as [|c a IH]; [reflexivity|].
  change (has_slash (String c (a +:+ b)) = has_slash (String c a) || has_slash b).
  cbn [has_slash]. now rewrite IH, orb_assoc.
Qed.

Lemma basename_after_slash (prefix name : string) :
  has_slash name = false -> basename (prefix +:+ "/" +:+ name) = name.
Proof.
  intros Hname. induction prefix as [|c prefix IH].
  - change (basename (String "/" name) = name). cbn [basename has_slash].
    unfold is_char. rewrite bool_decide_true by reflexivity. cbn [orb].
    now apply basename_bare.
  - change (basename (String c (prefix +:+ "/" +:+ name)) = name).
    cbn [basename].
    assert (has_slash (String c (prefix +:+ "/" +:+ name)) = true) as ->; [|exact IH].
    cbn [has_slash]. rewrite has_slash_app.
    change (has_slash ("/" +:+ name)) with (is_char "/" "/" || has_slash name).
    unfold is_char at 2. rewrite bool_decide_true by reflexivity.
    cbn [orb]. now rewrite !orb_true_r.
Qed.

Lemma before_query_no_query (s : string) : mentions "?" (before_query s) = false.
Proof.
  induction s as [|c s IH]; [reflexivity|].
  cbn [before_query]. destruct (is_char c "?") eqn:Hc; [reflexivity|].
  cbn [mentions]. now rewrite Hc, IH.
Qed.

Lemma before_query_bare (s : string) : mentions "?" s = false -> before_query s = s.
Proof.
  induction s as [|c s IH]; [reflexivity|].
  cbn [mentions before_query]. intros H. apply orb_false_iff in H as [-> H].
  now rewrite IH.
Qed.

Lemma before_query_app (s query : string) :
  mentions "?" s = false -> before_query (s +:+ "?" +:+ query) = s.
Proof.
  induction s as [|c s IH]; intros H.
  - reflexivity.
  - cbn [mentions] in H. apply orb_false_iff in H as [Hc H].
    change (before_query (String c (s +:+ "?" +:+ query)) = String c s).
    cbn [before_query]. now rewrite Hc, IH.
Qed.

Lemma mentions_app (d : ascii) (a b : string) :
  mentions d (a +:+ b) = mentions d a || mentions d b.
Proof.
  induction a as [|c a IH]; [reflexivity|].
  change (mentions d (String c (a +:+ b)) = mentions d (String c a) || mentions d b).
  cbn [mentions]. now rewrite IH, orb_assoc.
Qed.

End CliProps.

Module CliFacts.
Import Planner PlannerProps ChunkedDownloader Vocabulary MoreVocabulary Cli
       PhaseProps RunProps ResumeProps RunMore RunShapes ServedProps CliProps
       Scenarios ScenarioProps.

(** X17.  The file name [main] derives from a URL,
    [os.path.basename(url.split('?')[0])], never contains a slash or a
    question mark: a direct download is stored directly inside [--dest],
    whatever the URL. *)
Theorem filename_is_a_bare_name (url : string) :
  mentions "/" (filename_of_url url) = false
  /\ mentions "?" (filename_of_url url) = false.
Proof.
  unfold filename_of_url. split.
  - rewrite <- has_slash_mentions. apply basename_no_slash.
  - apply basename_mentions, before_query_no_query.
Qed.

(** X18.  For a URL of the form [prefix/name] or [prefix/name?query], where
    neither [prefix] nor [name] contains a question mark and [name]
    contains no slash, the derived file name is [name]: directories and
    query string are dropped. *)
Theorem filename_drops_directories_and_query (prefix name query : string) :
  mentions "?" prefix = false ->
  mentions "?" name = false ->
  mentions "/" name = false ->
  filename_of_url (prefix +:+ "/" +:+ name) = name
  /\ filename_of_url ((prefix +:+ "/" +:+ name) +:+ "?" +:+ query) = name.
Proof.
  intros Hprefix Hname Hslash. rewrite <- has_slash_mentions in Hslash.
  assert (mentions "?" (prefix +:+ "/" +:+ name) = false) as Hq.
  { rewrite !mentions_app, Hprefix, Hname. reflexivity. }
  unfold filename_of_url.
  rewrite before_query_app, before_query_bare by exact Hq.
  split; now apply basename_after_slash.
Qed.

Lemma filename_drops_directories_and_query_witness :
  filename_of_url "http://host/wiki/medical.zim?mirror=2&sig=a/b" = "medical.zim"%string.
Proof.
  apply (filename_drops_directories_and_query "http://host/wiki" "medical.zim"
           "mirror=2&sig=a/b"); reflexivity.
Defined.

(** X19.  A direct download ([download --url], no [--manifest]) exits with
    status 0 only if the file is in place: it is stored under
    [dest/filename], it matches [--hash] if one was given, and neither its
    temporary file nor its ledger is left behind. *)
Theorem exit_zero_means_file_in_place
    (sha256_hexdigest : bytes -> string) (session : Server)
    (path_join : string -> string -> path) (args : Args) (w w' : World) :
  arg_action args = ActDownload ->
  truthy (arg_manifest args) = false ->
  main sha256_hexdigest session path_join args w = (Exited 0, w') ->
  exists url,
    arg_url args = Some url
    /\ let dest_path := path_join (arg_dest args) (filename_of_url url) in
       in_place sha256_hexdigest dest_path (arg_hash args) w'
       /\ files w' !! temp_path_of dest_path = None
       /\ ledgers w' !! meta_path_of dest_path = None.
Proof.
  intros Haction Hmanifest. unfold main. rewrite Haction, Hmanifest.
  destruct (arg_url args) as [[|c url]|]; cbn [truthy default from_option id];
    [discriminate| |discriminate].
  destruct (download_with_resume _ _ _ _ _ w) as [[[|]|e] w1] eqn:Hrun;
    intros H; [|discriminate|discriminate].
  injection H as <-. exists (String c url). split; [reflexivity|].
  apply returns_true_spec in Hrun as ((content & Hc & Hd) & Htemp & Hledger & _).
  cbn zeta. split_and!; auto. exists content. auto.
Qed.

(** Resuming [raw/f] from the command line. *)
Lemma exit_zero_means_file_in_place_witness :
  in_place toy_digest "raw/f" (Some "c0ffee"%string)
    (snd (main toy_digest origin slash_join
            (mkArgs ActDownload (Some "http://host/dir/f?token=1"%string) None "raw"
                    None (Some "c0ffee"%string) (Some 4))
            resumable_world)).
Proof.
  destruct (main toy_digest origin slash_join
              (mkArgs ActDownload (Some "http://host/dir/f?token=1"%string) None "raw"
                      None (Some "c0ffee"%string) (Some 4))
              resumable_world) as [t w'] eqn:Hrun.
  assert (t = Exited 0) as -> by (vm_compute in Hrun; now injection Hrun as <- _).
  destruct (exit_zero_means_file_in_place toy_digest origin slash_join
              (mkArgs ActDownload (Some "http://host/dir/f?token=1"%string) None "raw"
                      None (Some "c0ffee"%string) (Some 4))
              resumable_world w' eq_refl eq_refl Hrun)
    as (url & Hurl & Hplace & _).
  injection Hurl as <-. exact Hplace.
Defined.

(** X20.  The first direct download of a resource of fewer than ten chunks
    (with the default chunk size: anything up to 36 MiB) from a server that
    serves it ends in an uncaught [FileNotFoundError], not in exit status
    0, although the file has been fetched completely and renamed to its
    destination: the ledger [main] tries to remove was never written. *)
Theorem small_direct_download_ends_in_traceback
    (sha256_hexdigest : bytes -> string) (session : Server)
    (path_join : string -> string -> path) (args : Args)
    (url final_url : string) (content : bytes) (w : World) :
  arg_action args = ActDownload ->
  truthy (arg_manifest args) = false ->
  arg_url args = Some url ->
  url <> ""%string ->
  0 < init_chunk_size (arg_chunk_size args) ->
  content <> [] ->
  serves session url final_url content ->
  fresh (path_join (arg_dest args) (filename_of_url url)) w ->
  (truthy (arg_hash args) = true ->
   lower (sha256_hexdigest content) = lower (default ""%string (arg_hash args))) ->
  total_chunks (Z.of_nat (length content)) (init_chunk_size (arg_chunk_size args)) < 10 ->
  exists w',
    main sha256_hexdigest session path_join args w
    = (Uncaught (FileNotFoundError
                   (meta_path_of (path_join (arg_dest args) (filename_of_url url)))),
       w')
    /\ files w' !! path_join (arg_dest args) (filename_of_url url) = Some content.
Proof.
  intros Haction Hmanifest Hurl Hne Hcs Hcontent Hserves Hfresh Hdigest Hsmall.
  unfold main. rewrite Haction, Hmanifest, Hurl.
  destruct url as [|c url]; [congruence|]. cbn [truthy default from_option id].
  destruct (served_outcome sha256_hexdigest (init (arg_chunk_size args) session)
              (String c url) final_url content
              (path_join (arg_dest args) (filename_of_url (String c url)))
              (arg_hash args) w Hcs Hcontent Hserves (or_introl Hfresh) Hdigest)
    as (r & w' & Hrun & Hdest & _ & _ & Hraise).
  rewrite Hrun, (Hraise (proj2 Hfresh) Hsmall).
  exists w'. split; [reflexivity | exact Hdest].
Qed.

Lemma small_direct_download_ends_in_traceback_witness :
  exists w',
    main toy_digest origin slash_join
      (mkArgs ActDownload (Some URL) None "raw" None None (Some 4)) empty_world
    = (Uncaught (FileNotFoundError "raw/f.meta"), w')
    /\ files w' !! "raw/f"%string = Some resource.
Proof.
  apply (small_direct_download_ends_in_traceback toy_digest origin slash_join
           (mkArgs ActDownload (Some URL) None "raw" None None (Some 4))
           URL URL resource empty_world);
    try reflexivity; try discriminate.
  - exact origin_serves.
  - split; reflexivity.
Defined.

End CliFacts.
